(** * IdeaFlow AI Whiteboard: the canvas interaction engine of [src/App.tsx]

    A shallow embedding of the state and the event handlers of the [App]
    component, and the properties of its history, zoom, duplication,
    freehand normalisation, resize, alignment and paste paths.

    Number model.  A JavaScript [number] that holds a coordinate, an extent
    or a scale is embedded as a rational ([Q]), and every expression of a
    handler is written operation by operation as in the source: the
    handlers only add, subtract, multiply, divide, compare and take minima
    and maxima.  What is proved over this reading is what the rounding of
    IEEE doubles leaves alone: that a result is the source's own expression
    of its inputs, and order facts that rounding to nearest keeps.  An
    equality that needs an exact cancellation is not of that kind; module
    [Double] evaluates the same expressions in binary64, and the statements
    of that kind are settled there, on concrete inputs.  The non-finite
    values are outside the rational reading; the two transcendental
    library calls ([Math.sqrt], [Math.atan2]) are parameters of the
    development.  Counters and indices ([zIndex], [historyStep], [length])
    are integers. *)

From Stdlib Require Import Floats.PrimFloat.
From Stdlib Require Import List String Ascii Bool Arith ZArith QArith Qminmax
  Qround Qabs Lia Lqa Field FinFun Permutation Sorted.
Import ListNotations.

Set Warnings "-inexact-float".

(** ** JavaScript values *)

Module Js.

(** An optional numeric field ([width?: number]): [None] is [undefined]. *)
Definition optnum := option Q.

(** Truthiness of [v] for an optional number: [undefined] and [0] are
    falsy. *)
Definition truthy (v : optnum) : bool :=
  match v with
  | Some q => negb (Qeq_bool q 0)
  | None => false
  end.

(** [v || d] on an optional number. *)
Definition or_else (v : optnum) (d : Q) : Q :=
  match v with
  | Some q => if Qeq_bool q 0 then d else q
  | None => d
  end.

(** [a < b] on numbers. *)
Definition ltb (a b : Q) : bool := negb (Qle_bool b a).

(** [v < b] where [v] may be [undefined] ([undefined < b] is [false]). *)
Definition opt_ltb (v : optnum) (b : Q) : bool :=
  match v with
  | Some q => ltb q b
  | None => false
  end.

(** [Math.round]: the nearest integer, halves towards [+Infinity]. *)
Definition round (q : Q) : Q := inject_Z (Qfloor (q + (1 # 2))).

(** Numbers extended with the two infinities, for the accumulators that
    the code starts at [Infinity] and [-Infinity]. *)
Inductive ext : Type :=
| NegInf
| Fin (q : Q)
| PosInf.

(** [Math.min(a, b)] and [Math.max(a, b)] with a possibly infinite
    accumulator [a] and a finite [b]. *)
Definition ext_min (a : ext) (b : Q) : ext :=
  match a with
  | NegInf => NegInf
  | Fin q => Fin (Qmin q b)
  | PosInf => Fin b
  end.

Definition ext_max (a : ext) (b : Q) : ext :=
  match a with
  | NegInf => Fin b
  | Fin q => Fin (Qmax q b)
  | PosInf => PosInf
  end.

(** [Math.min(x0, ...xs)] and [Math.max(x0, ...xs)]: the spread of a
    non-empty array whose first entry is [x0]. *)
Definition min_list (x0 : Q) (xs : list Q) : Q := fold_left Qmin xs x0.
Definition max_list (x0 : Q) (xs : list Q) : Q := fold_left Qmax xs x0.

(** [Math.max(...zs, 0)] and [Math.min(...zs, 0)] on integers. *)
Definition zmax0 (zs : list Z) : Z := fold_left Z.max zs 0%Z.
Definition zmin0 (zs : list Z) : Z := fold_left Z.min zs 0%Z.

(** [s.includes(c)] for a one-character needle. *)
Fixpoint includes (s : string) (c : ascii) : bool :=
  match s with
  | EmptyString => false
  | String a rest => if Ascii.eqb a c then true else includes rest c
  end.

(** [ids.includes(id)] on an array of strings. *)
Definition mem (id : string) (ids : list string) : bool :=
  existsb (String.eqb id) ids.

(** [Math.min(a, b)] of two possibly infinite numbers. *)
Definition ext_min2 (a b : ext) : ext :=
  match b with
  | NegInf => NegInf
  | Fin q => ext_min a q
  | PosInf => a
  end.

(** [a / b] where [b] may be zero.  A zero the handlers divide by is the
    sum of finite numbers, so it is [+0]: the quotient is the infinity of
    the sign of [a], and [0 / 0] is [NaN], which is [None]. *)
Definition div (a b : Q) : option ext :=
  if Qeq_bool b 0 then
    if Qeq_bool a 0 then None
    else if Qle_bool 0 a then Some PosInf else Some NegInf
  else Some (Fin (a / b)).

(** [s.length].  JavaScript counts UTF-16 code units; a string is held
    here as its UTF-8 bytes.  A byte below 0x80 and the lead byte of a
    sequence of two or three bytes stand for one unit, the lead byte of a
    sequence of four bytes for the two units of a surrogate pair, and a
    continuation byte for none. *)
Definition utf16_units (c : ascii) : nat :=
  let n := nat_of_ascii c in
  if (n <? 128)%nat then 1%nat
  else if (n <? 192)%nat then 0%nat
  else if (n <? 240)%nat then 1%nat
  else 2%nat.

Fixpoint str_length (s : string) : nat :=
  match s with
  | EmptyString => 0%nat
  | String c rest => (utf16_units c + str_length rest)%nat
  end.

End Js.

(** ** Types of [types.ts] *)

Inductive ToolType : Type :=
| select | pen | highlighter | text | sticky | rect | circle | triangle
| rhombus | arrow | line | cylinder.

(** [ToolType | 'image'], the [type] of an element. *)
Inductive ElementType : Type :=
| Tool (t : ToolType)
| image.

Definition ToolType_eqb (a b : ToolType) : bool :=
  match a, b with
  | select, select | pen, pen | highlighter, highlighter | text, text
  | sticky, sticky | rect, rect | circle, circle | triangle, triangle
  | rhombus, rhombus | arrow, arrow | line, line | cylinder, cylinder => true
  | _, _ => false
  end.

Definition ElementType_is (t : ElementType) (k : ToolType) : bool :=
  match t with
  | Tool t' => ToolType_eqb t' k
  | image => false
  end.

Record Point : Type := mkPoint { px : Q; py : Q }.

Record BoardElement : Type := mkElement {
  id : string;
  type : ElementType;
  x : Q;
  y : Q;
  width : Js.optnum;
  height : Js.optnum;
  content : option string;
  color : option string;
  fillColor : option string;
  strokeColor : option string;
  textColor : option string;
  fontSize : Js.optnum;
  points : option (list Point);
  strokeWidth : Js.optnum;
  rotation : Js.optnum;
  zIndex : Z
}.

Record InitialPosition : Type := mkInitialPosition {
  ip_id : string; ip_x : Q; ip_y : Q
}.

Record DragInfo : Type := mkDragInfo {
  isDragging : bool;
  drag_startX : Q;
  drag_startY : Q;
  initialPositions : list InitialPosition
}.

(** [ResizeHandleDirection | null]: the handle is one of the eight compass
    strings; it is kept as the string the code tests with [includes]. *)
Record ResizeInfo : Type := mkResizeInfo {
  isResizing : bool;
  handle : option string;
  resize_startX : Q;
  resize_startY : Q;
  initialX : Q;
  initialY : Q;
  initialWidth : Q;
  initialHeight : Q
}.

Record RotateInfo : Type := mkRotateInfo {
  isRotating : bool;
  rotate_startX : Q;
  rotate_startY : Q;
  initialRotation : Q;
  centerX : Q;
  centerY : Q
}.

Record ViewTransform : Type := mkViewTransform {
  vt_x : Q;
  vt_y : Q;
  scale : Q
}.

Record ToolConfig : Type := mkToolConfig {
  cfg_color : string;
  cfg_width : Q
}.

(** What [containerRef.current.getBoundingClientRect()] returns. *)
Record DOMRect : Type := mkDOMRect {
  rect_left : Q;
  rect_top : Q;
  rect_width : Q;
  rect_height : Q
}.

(** ** Functional updates of an element ([{ ...el, field: v }]) *)

Definition with_xy (el : BoardElement) (nx ny : Q) : BoardElement :=
  mkElement (id el) (type el) nx ny (width el) (height el) (content el)
    (color el) (fillColor el) (strokeColor el) (textColor el) (fontSize el)
    (points el) (strokeWidth el) (rotation el) (zIndex el).

Definition with_size (el : BoardElement) (w h : Q) : BoardElement :=
  mkElement (id el) (type el) (x el) (y el) (Some w) (Some h) (content el)
    (color el) (fillColor el) (strokeColor el) (textColor el) (fontSize el)
    (points el) (strokeWidth el) (rotation el) (zIndex el).

Definition with_content (el : BoardElement) (c : string) : BoardElement :=
  mkElement (id el) (type el) (x el) (y el) (width el) (height el) (Some c)
    (color el) (fillColor el) (strokeColor el) (textColor el) (fontSize el)
    (points el) (strokeWidth el) (rotation el) (zIndex el).

Definition with_points (el : BoardElement) (ps : list Point) : BoardElement :=
  mkElement (id el) (type el) (x el) (y el) (width el) (height el)
    (content el) (color el) (fillColor el) (strokeColor el) (textColor el)
    (fontSize el) (Some ps) (strokeWidth el) (rotation el) (zIndex el).

Definition with_rotation (el : BoardElement) (r : Q) : BoardElement :=
  mkElement (id el) (type el) (x el) (y el) (width el) (height el)
    (content el) (color el) (fillColor el) (strokeColor el) (textColor el)
    (fontSize el) (points el) (strokeWidth el) (Some r) (zIndex el).

Definition with_zIndex (el : BoardElement) (z : Z) : BoardElement :=
  mkElement (id el) (type el) (x el) (y el) (width el) (height el)
    (content el) (color el) (fillColor el) (strokeColor el) (textColor el)
    (fontSize el) (points el) (strokeWidth el) (rotation el) z.

(** [els.map(el => el.id === i ? f(el) : el)] *)
Definition map_id (i : string) (f : BoardElement -> BoardElement)
  (els : list BoardElement) : list BoardElement :=
  map (fun el => if String.eqb (id el) i then f el else el) els.

(** [els.find(e => e.id === i)] *)
Definition find_id (i : string) (els : list BoardElement)
  : option BoardElement :=
  find (fun el => String.eqb (id el) i) els.

(** ** The state of the [App] component

    One field per [useState] cell the handlers read or write, the rectangle
    of the container the [containerRef] points to ([None] while the ref is
    [null]), and the number of identifiers [uuidv4] has handed out. *)

Record AppState : Type := mkAppState {
  history : list (list BoardElement);
  historyStep : nat;
  elements : list BoardElement;
  penConfig : ToolConfig;
  markerConfig : ToolConfig;
  isCommandPaletteOpen : bool;
  activeTool : ToolType;
  selectedIds : list string;
  viewTransform : ViewTransform;
  isPanning : bool;
  panStart : Point;
  creationStart : option Point;
  dragInfo : DragInfo;
  resizeInfo : ResizeInfo;
  rotateInfo : RotateInfo;
  isDrawing : bool;
  contextMenuOpen : bool;
  containerRect : option DOMRect;
  uuidCount : nat
}.

Definition set_history (s : AppState) (h : list (list BoardElement))
  (k : nat) : AppState :=
  mkAppState h k (elements s) (penConfig s) (markerConfig s)
    (isCommandPaletteOpen s) (activeTool s) (selectedIds s) (viewTransform s)
    (isPanning s) (panStart s) (creationStart s) (dragInfo s) (resizeInfo s)
    (rotateInfo s) (isDrawing s) (contextMenuOpen s) (containerRect s)
    (uuidCount s).

Definition setElements (s : AppState) (els : list BoardElement) : AppState :=
  mkAppState (history s) (historyStep s) els (penConfig s) (markerConfig s)
    (isCommandPaletteOpen s) (activeTool s) (selectedIds s) (viewTransform s)
    (isPanning s) (panStart s) (creationStart s) (dragInfo s) (resizeInfo s)
    (rotateInfo s) (isDrawing s) (contextMenuOpen s) (containerRect s)
    (uuidCount s).

Definition setSelectedIds (s : AppState) (ids : list string) : AppState :=
  mkAppState (history s) (historyStep s) (elements s) (penConfig s)
    (markerConfig s) (isCommandPaletteOpen s) (activeTool s) ids
    (viewTransform s) (isPanning s) (panStart s) (creationStart s)
    (dragInfo s) (resizeInfo s) (rotateInfo s) (isDrawing s)
    (contextMenuOpen s) (containerRect s) (uuidCount s).

Definition setViewTransform (s : AppState) (t : ViewTransform) : AppState :=
  mkAppState (history s) (historyStep s) (elements s) (penConfig s)
    (markerConfig s) (isCommandPaletteOpen s) (activeTool s) (selectedIds s)
    t (isPanning s) (panStart s) (creationStart s) (dragInfo s)
    (resizeInfo s) (rotateInfo s) (isDrawing s) (contextMenuOpen s)
    (containerRect s) (uuidCount s).

(** The gesture cells written together by the pointer handlers. *)
Definition set_gesture (s : AppState) (panning : bool) (pstart : Point)
  (cstart : option Point) (d : DragInfo) (r : ResizeInfo) (ro : RotateInfo)
  (drawing : bool) : AppState :=
  mkAppState (history s) (historyStep s) (elements s) (penConfig s)
    (markerConfig s) (isCommandPaletteOpen s) (activeTool s) (selectedIds s)
    (viewTransform s) panning pstart cstart d r ro drawing
    (contextMenuOpen s) (containerRect s) (uuidCount s).

Definition setContextMenuOpen (s : AppState) (b : bool) : AppState :=
  mkAppState (history s) (historyStep s) (elements s) (penConfig s)
    (markerConfig s) (isCommandPaletteOpen s) (activeTool s) (selectedIds s)
    (viewTransform s) (isPanning s) (panStart s) (creationStart s)
    (dragInfo s) (resizeInfo s) (rotateInfo s) (isDrawing s) b
    (containerRect s) (uuidCount s).

Definition set_uuidCount (s : AppState) (n : nat) : AppState :=
  mkAppState (history s) (historyStep s) (elements s) (penConfig s)
    (markerConfig s) (isCommandPaletteOpen s) (activeTool s) (selectedIds s)
    (viewTransform s) (isPanning s) (panStart s) (creationStart s)
    (dragInfo s) (resizeInfo s) (rotateInfo s) (isDrawing s)
    (contextMenuOpen s) (containerRect s) n.

(** The initial values of the [useState] cells; the container is a
    parameter of the mounted component. *)
Definition initialState (rect : option DOMRect) : AppState :=
  mkAppState [[]] 0 []
    (mkToolConfig "#1f2937" 3) (mkToolConfig "#fde047" 25)
    false select [] (mkViewTransform 0 0 1)
    false (mkPoint 0 0) None
    (mkDragInfo false 0 0 [])
    (mkResizeInfo false None 0 0 0 0 0 0)
    (mkRotateInfo false 0 0 0 0 0)
    false false rect 0.

(** ** History *)

(** The effect [setElements(history[historyStep])], which React runs after
    a render in which [history] or [historyStep] changed.  An index outside
    the array would read [undefined]; the cursor stays inside the array in
    every state of a run ([runCommands_inv]). *)
Definition historyEffect (s : AppState) : AppState :=
  match nth_error (history s) (historyStep s) with
  | Some els => setElements s els
  | None => s
  end.

(** [addToHistory]: [history.slice(0, historyStep + 1)], [push], and the
    step set to the new last index. *)
Definition addToHistory (s : AppState) (newElements : list BoardElement)
  : AppState :=
  let newHistory := firstn (historyStep s + 1) (history s) ++ [newElements] in
  set_history s newHistory (List.length newHistory - 1).

(** The sequence [setElements(newEls); addToHistory(newEls)] of the discrete
    actions, followed by the history effect of the next render. *)
Definition commitElements (s : AppState) (newEls : list BoardElement)
  : AppState :=
  historyEffect (addToHistory (setElements s newEls) newEls).

Definition handleUndo (s : AppState) : AppState :=
  if (0 <? historyStep s)%nat
  then historyEffect (set_history s (history s) (historyStep s - 1))
  else s.

Definition handleRedo (s : AppState) : AppState :=
  if (Z.of_nat (historyStep s) <? Z.of_nat (List.length (history s)) - 1)%Z
  then historyEffect (set_history s (history s) (historyStep s + 1))
  else s.

(** The cursor points into the snapshot sequence. *)
Definition history_wf (s : AppState) : Prop :=
  (historyStep s < List.length (history s))%nat.

(** ** Events *)

(** The fields of a [React.MouseEvent] the handlers read.  [onBackground]
    is the test [e.target === containerRef.current ||
    e.target.id === 'main-svg-layer']. *)
Record MouseEvent : Type := mkMouseEvent {
  clientX : Q;
  clientY : Q;
  button : Z;
  shiftKey : bool;
  onBackground : bool
}.

Record WheelEvent : Type := mkWheelEvent {
  deltaY : Q;
  wheel_clientX : Q;
  wheel_clientY : Q
}.

Inductive AlignType : Type :=
| AlignLeft | AlignCenter | AlignRight | AlignTop | AlignMiddle | AlignBottom.

(** The [action] strings of the context menu and the command palette;
    [OtherAction] is any string outside the vocabulary. *)
(** The actions of the context menu.  [paste] calls [handlePaste], a
    callback memoised on [elements] and [viewTransform]: the action carries
    the [history] and the [historyStep] of the render that created the
    callback in place, which the [addToHistory] inside it reads. *)
Inductive Action : Type :=
| ADelete | ADuplicate | AFront | ABack
| APaste (closureHistory : list (list BoardElement)) (closureStep : nat)
| AAlign (t : AlignType)
| OtherAction.

(** ** Coordinate helpers *)

Definition screenToWorld (t : ViewTransform) (screenX screenY : Q) : Point :=
  mkPoint ((screenX - vt_x t) / scale t) ((screenY - vt_y t) / scale t).

Definition getMousePos (s : AppState) (e : MouseEvent) : Point :=
  match containerRect s with
  | None => mkPoint 0 0
  | Some box =>
      screenToWorld (viewTransform s)
        (clientX e - rect_left box) (clientY e - rect_top box)
  end.

Definition isDrawingMode (s : AppState) : bool :=
  ToolType_eqb (activeTool s) pen || ToolType_eqb (activeTool s) highlighter.

(** ** Normalisation of drawings *)

Definition normalizeDrawing (el : BoardElement) : BoardElement :=
  match points el with
  | None => el
  | Some [] => el
  | Some ((p :: ps) as pts) =>
      let minX := Js.min_list (px p) (map px ps) in
      let minY := Js.min_list (py p) (map py ps) in
      let maxX := Js.max_list (px p) (map px ps) in
      let maxY := Js.max_list (py p) (map py ps) in
      let padding := 5 in
      let w := Qmax 20 (maxX - minX + padding * 2) in
      let h := Qmax 20 (maxY - minY + padding * 2) in
      let normalizedPoints :=
        map (fun q => mkPoint (px q - minX + padding) (py q - minY + padding))
          pts in
      mkElement (id el) (type el) (minX - padding) (minY - padding)
        (Some w) (Some h) (content el) (color el) (fillColor el)
        (strokeColor el) (textColor el) (fontSize el)
        (Some normalizedPoints) (strokeWidth el) (rotation el) (zIndex el)
  end.

(** ** Zoom *)

Definition handleWheel (s : AppState) (e : WheelEvent) : AppState :=
  let vt := viewTransform s in
  let scaleAmount := - deltaY e * (1 # 1000) in
  let newScale := Qmin (Qmax (1 # 10) (scale vt * (1 + scaleAmount))) 5 in
  match containerRect s with
  | Some box =>
      let mouseX := wheel_clientX e - rect_left box in
      let mouseY := wheel_clientY e - rect_top box in
      let worldX := (mouseX - vt_x vt) / scale vt in
      let worldY := (mouseY - vt_y vt) / scale vt in
      let newX := mouseX - worldX * newScale in
      let newY := mouseY - worldY * newScale in
      setViewTransform s (mkViewTransform newX newY newScale)
  | None => s
  end.

(** ** Alignment *)

Record Bounds : Type := mkBounds {
  minX : Js.ext; maxX : Js.ext; minY : Js.ext; maxY : Js.ext
}.

(** One round of the [forEach] that widens [bounds] by an element. *)
Definition growBounds (b : Bounds) (el : BoardElement) : Bounds :=
  mkBounds
    (Js.ext_min (minX b) (x el))
    (Js.ext_max (maxX b) (x el + Js.or_else (width el) 0))
    (Js.ext_min (minY b) (y el))
    (Js.ext_max (maxY b) (y el + Js.or_else (height el) 0)).

Definition alignBounds (s : AppState) (selectedEls : list BoardElement)
  : Bounds :=
  let start := mkBounds Js.PosInf Js.NegInf Js.PosInf Js.NegInf in
  if (List.length selectedEls =? 1)%nat then
    match containerRect s with
    | Some box =>
        let vt := viewTransform s in
        let viewW := rect_width box / scale vt in
        let viewH := rect_height box / scale vt in
        let viewX := - vt_x vt / scale vt in
        let viewY := - vt_y vt / scale vt in
        mkBounds (Js.Fin viewX) (Js.Fin (viewX + viewW))
                 (Js.Fin viewY) (Js.Fin (viewY + viewH))
    | None => start
    end
  else fold_left growBounds selectedEls start.

(** The body of the [map] of [handleAlign] for finite bounds. *)
Definition alignElement (t : AlignType) (bminX bmaxX bminY bmaxY : Q)
  (selected : list string) (el : BoardElement) : BoardElement :=
  if negb (Js.mem (id el) selected) then el
  else
    let cX := (bminX + bmaxX) / 2 in
    let cY := (bminY + bmaxY) / 2 in
    let newX :=
      match t with
      | AlignLeft => bminX
      | AlignCenter => cX - Js.or_else (width el) 0 / 2
      | AlignRight => bmaxX - Js.or_else (width el) 0
      | _ => x el
      end in
    let newY :=
      match t with
      | AlignTop => bminY
      | AlignMiddle => cY - Js.or_else (height el) 0 / 2
      | AlignBottom => bmaxY - Js.or_else (height el) 0
      | _ => y el
      end in
    with_xy el newX newY.

(** [handleAlign].  The result is [None] when a bound is still infinite
    where the new coordinates are computed (one selected element and no
    container): the coordinates written would not be finite numbers. *)
Definition handleAlign (s : AppState) (t : AlignType) : option AppState :=
  if (List.length (selectedIds s) =? 0)%nat then Some s
  else
    let selectedEls :=
      filter (fun el => Js.mem (id el) (selectedIds s)) (elements s) in
    if (List.length selectedEls =? 0)%nat then Some s
    else
      match alignBounds s selectedEls with
      | mkBounds (Js.Fin a) (Js.Fin b) (Js.Fin c) (Js.Fin d) =>
          let newElements :=
            map (alignElement t a b c d (selectedIds s)) (elements s) in
          Some (commitElements s newElements)
      | _ => None
      end.

(** ** Tool selection *)

(** [handleSelectTool].  Picking the active drawing tool again only toggles
    the configuration menu, which is not part of the modelled state; any
    other pick sets the tool and clears the selection. *)
Definition handleSelectTool (s : AppState) (tool : ToolType) : AppState :=
  if ToolType_eqb tool (activeTool s)
     && (ToolType_eqb tool pen || ToolType_eqb tool highlighter)
  then s
  else
    mkAppState (history s) (historyStep s) (elements s) (penConfig s)
      (markerConfig s) (isCommandPaletteOpen s) tool [] (viewTransform s)
      (isPanning s) (panStart s) (creationStart s) (dragInfo s)
      (resizeInfo s) (rotateInfo s) (isDrawing s) (contextMenuOpen s)
      (containerRect s) (uuidCount s).

(** ** Content edits *)

Definition handleContentChange (s : AppState) (i : string)
  (newContent : string) : AppState :=
  setElements s (map_id i (fun el => with_content el newContent) (elements s)).

(** Stable sort by [zIndex]: [sort((a, b) => a.zIndex - b.zIndex)]. *)
Fixpoint insertByZ (el : BoardElement) (l : list BoardElement)
  : list BoardElement :=
  match l with
  | [] => [el]
  | h :: tl =>
      if (zIndex el <=? zIndex h)%Z then el :: h :: tl
      else h :: insertByZ el tl
  end.

Definition sortByZ (l : list BoardElement) : list BoardElement :=
  fold_right insertByZ [] l.

(** The object [{ ...el, id: newId, x: el.x + 20, y: el.y + 20,
    zIndex: z }] that [duplicate] pushes. *)
Definition duplicateOf (el : BoardElement) (newId : string) (z : Z)
  : BoardElement :=
  mkElement newId (type el) (x el + 20) (y el + 20) (width el) (height el)
    (content el) (color el) (fillColor el) (strokeColor el) (textColor el)
    (fontSize el) (points el) (strokeWidth el) (rotation el) z.

(** ** Handlers that draw identifiers or call transcendental functions *)

Section Handlers.

(** [uuidv4 k] is the identifier returned by the [k]-th call of
    [uuidv4()].  [sqrt] is [Math.sqrt]; [atan2deg dy dx] is
    [Math.atan2(dy, dx) * (180 / Math.PI)]. *)
Variable uuidv4 : nat -> string.
Variable sqrt : Q -> Q.
Variable atan2deg : Q -> Q -> Q.

(** [createTextElementAtCenter], read in a closure whose [elements] is
    [els]; the caller accounts for the identifier drawn. *)
Definition createTextElementAtCenter (s : AppState)
  (els : list BoardElement) (txt : string) : BoardElement :=
  let vt := viewTransform s in
  let cX := match containerRect s with
            | Some box => (rect_width box / 2 - vt_x vt) / scale vt
            | None => 0
            end in
  let cY := match containerRect s with
            | Some box => (rect_height box / 2 - vt_y vt) / scale vt
            | None => 0
            end in
  let isShort := (Js.str_length txt <? 50)%nat in
  mkElement (uuidv4 (uuidCount s))
    (Tool (if isShort then sticky else text))
    (cX - 100) (cY - 50)
    (Some 200) (Some (if isShort then 200 else 100))
    (Some txt)
    (Some (if isShort then "#fef3c7" else "#1f2937")%string)
    None None None None None None None
    (Z.of_nat (List.length els) + 1)%Z.

(** [handlePaste] once [navigator.clipboard.readText()] has settled:
    [clip] is [None] when the read was rejected.  The callback is
    [useCallback(..., [elements, viewTransform])]: its [elements] and
    [viewTransform] are those of the current render, but the
    [addToHistory] it calls is the one of the render that created the
    callback, whose [history] and [historyStep] are [closureHistory] and
    [closureStep].  They are the current ones unless the history changed
    in a render that left [elements] the same array, as after a pointer-up
    that commits the array it was given. *)
Definition handlePaste (s : AppState)
  (closureHistory : list (list BoardElement)) (closureStep : nat)
  (clip : option string) : AppState :=
  match clip with
  | None => s
  | Some txt =>
      if String.eqb txt "" then s
      else
        let newEl := createTextElementAtCenter s (elements s) txt in
        let newEls := elements s ++ [newEl] in
        commitElements
          (set_history (set_uuidCount s (S (uuidCount s)))
             closureHistory closureStep)
          newEls
  end.

(** The window [paste] listener.  It is installed by an effect that
    depends on [viewTransform] and [isCommandPaletteOpen] only, so the
    [elements] it reads for the new [zIndex] are those of the render that
    installed it ([closureElements]); [txt] is
    [e.clipboardData?.getData('text')]. *)
Definition pasteListener (s : AppState)
  (closureElements : list BoardElement) (txt : option string) : AppState :=
  if isCommandPaletteOpen s then s
  else
    match txt with
    | None => s
    | Some t =>
        if String.eqb t "" then s
        else
          let newEl := createTextElementAtCenter s closureElements t in
          setElements (set_uuidCount s (S (uuidCount s)))
            (elements s ++ [newEl])
    end.

(** One round of the [forEach] over the target ids of [duplicate]:
    [n] is [elements.length], [acc] the duplicates pushed so far with the
    number of identifiers drawn. *)
Definition duplicateStep (els : list BoardElement) (n : nat)
  (acc : list BoardElement * nat) (tid : string)
  : list BoardElement * nat :=
  let (duplicates, cnt) := acc in
  match find_id tid els with
  | Some el =>
      (duplicates ++
         [duplicateOf el (uuidv4 cnt)
            (Z.of_nat n + Z.of_nat (List.length duplicates) + 1)%Z],
       S cnt)
  | None => acc
  end.

(** The resolution of the target ids at the head of
    [handleContextMenuAction]; an empty [elementId] is falsy. *)
Definition targetIdsOf (s : AppState) (elementId : option string)
  : list string :=
  let given := match elementId with
               | Some e => if String.eqb e "" then None else Some e
               | None => None
               end in
  let t1 := match given with
            | Some e => if negb (Js.mem e (selectedIds s)) then [e]
                        else selectedIds s
            | None => selectedIds s
            end in
  match given with
  | Some e => if (List.length t1 =? 0)%nat then [e] else t1
  | None => t1
  end.

Definition handleContextMenuAction (s : AppState) (action : Action)
  (elementId : option string) (clip : option string) : option AppState :=
  let targetIds := targetIdsOf s elementId in
  match action with
  | AAlign t => handleAlign s t
  | ADelete =>
      let newElements :=
        filter (fun el => negb (Js.mem (id el) targetIds)) (elements s) in
      Some (commitElements (setSelectedIds s []) newElements)
  | ADuplicate =>
      let (duplicates, cnt) :=
        fold_left (duplicateStep (elements s) (List.length (elements s)))
          targetIds ([], uuidCount s) in
      let newElements := elements s ++ duplicates in
      Some (commitElements
              (setSelectedIds (set_uuidCount s cnt) (map id duplicates))
              newElements)
  | AFront =>
      let maxZ := Js.zmax0 (map zIndex (elements s)) in
      let newElements :=
        map (fun el => if Js.mem (id el) targetIds
                       then with_zIndex el (maxZ + 1)%Z else el)
          (elements s) in
      Some (commitElements s (sortByZ newElements))
  | ABack =>
      let minZ := Js.zmin0 (map zIndex (elements s)) in
      let newElements :=
        map (fun el => if Js.mem (id el) targetIds
                       then with_zIndex el (minZ - 1)%Z else el)
          (elements s) in
      Some (commitElements s (sortByZ newElements))
  | APaste h k => Some (handlePaste s h k clip)
  | OtherAction => Some (commitElements s (elements s))
  end.

(** *** Pointer down *)

Definition newDrawing (s : AppState) (pos : Point) : BoardElement :=
  let config := if ToolType_eqb (activeTool s) pen
                then penConfig s else markerConfig s in
  mkElement (uuidv4 (uuidCount s)) (Tool (activeTool s)) 0 0
    (Some (px pos + cfg_width config * 2))
    (Some (py pos + cfg_width config * 2))
    None (Some (cfg_color config)) None None None None
    (Some [pos]) (Some (cfg_width config)) (Some 0)
    (if ToolType_eqb (activeTool s) highlighter then 0%Z
     else (Z.of_nat (List.length (elements s)) + 1)%Z).

Definition newShape (s : AppState) (pos : Point) : BoardElement :=
  let isSticky := ToolType_eqb (activeTool s) sticky in
  let isText := ToolType_eqb (activeTool s) text in
  mkElement (uuidv4 (uuidCount s)) (Tool (activeTool s)) (px pos) (py pos)
    (Some 0) (Some 0)
    (if isSticky || isText then Some "Double click to edit"%string
     else None)
    (Some (if isSticky then "#fef3c7"
           else if isText then "#1f2937" else "transparent")%string)
    (if isSticky then Some "#fef3c7"%string
     else if isText then None else Some "transparent"%string)
    (if isSticky || isText then None else Some "#000000"%string)
    None
    (Some (if isText then 24 else 18))
    None (Some 3) (Some 0)
    (Z.of_nat (List.length (elements s)) + 1)%Z.

Definition handleMouseDown (s : AppState) (e : MouseEvent) : AppState :=
  if (button e =? 2)%Z then s
  else
    let s1 := if contextMenuOpen s then setContextMenuOpen s false else s in
    if isResizing (resizeInfo s) || isRotating (rotateInfo s) then s1
    else
      let pos := getMousePos s e in
      if ToolType_eqb (activeTool s) select && onBackground e then
        setSelectedIds
          (set_gesture s1 true (mkPoint (clientX e) (clientY e))
             (creationStart s1) (dragInfo s1) (resizeInfo s1)
             (rotateInfo s1) (isDrawing s1))
          []
      else if isDrawingMode s then
        let newElement := newDrawing s pos in
        setElements
          (set_uuidCount
             (set_gesture s1 (isPanning s1) (panStart s1)
                (creationStart s1) (dragInfo s1) (resizeInfo s1)
                (rotateInfo s1) true)
             (S (uuidCount s)))
          (elements s ++ [newElement])
      else if negb (ToolType_eqb (activeTool s) select) then
        let newElement := newShape s pos in
        setSelectedIds
          (setElements
             (set_uuidCount
                (set_gesture s1 (isPanning s1) (panStart s1) (Some pos)
                   (dragInfo s1) (resizeInfo s1) (rotateInfo s1)
                   (isDrawing s1))
                (S (uuidCount s)))
             (elements s ++ [newElement]))
          [id newElement]
      else if onBackground e then setSelectedIds s1 []
      else s1.

(** *** Pointer move *)

(** [h?.includes(c)] on the handle of the resize in progress. *)
Definition handleHas (ri : ResizeInfo) (c : ascii) : bool :=
  match handle ri with
  | Some h => Js.includes h c
  | None => false
  end.

(** The geometry a resize move gives the selected element. *)
Definition resizeElement (ri : ResizeInfo) (dx dy : Q) (el : BoardElement)
  : BoardElement :=
  let x0 := initialX ri in
  let y0 := initialY ri in
  let w0 := initialWidth ri in
  let h0 := initialHeight ri in
  let w1 := if handleHas ri "e" then w0 + dx else w0 in
  let w2 := if handleHas ri "w" then w1 - dx else w1 in
  let x1 := if handleHas ri "w" then x0 + dx else x0 in
  let h1 := if handleHas ri "s" then h0 + dy else h0 in
  let h2 := if handleHas ri "n" then h1 - dy else h1 in
  let y1 := if handleHas ri "n" then y0 + dy else y0 in
  let x2 := if Js.ltb w2 20
            then (if handleHas ri "w"
                  then initialX ri + initialWidth ri - 20 else x1)
            else x1 in
  let w3 := if Js.ltb w2 20 then 20 else w2 in
  let y2 := if Js.ltb h2 20
            then (if handleHas ri "n"
                  then initialY ri + initialHeight ri - 20 else y1)
            else y1 in
  let h3 := if Js.ltb h2 20 then 20 else h2 in
  with_size (with_xy el x2 y2) w3 h3.

(** The geometry a drag-to-create move gives the element being created. *)
Definition createGeometry (start current : Point) (shift : bool)
  (el : BoardElement) : BoardElement :=
  if ElementType_is (type el) line || ElementType_is (type el) arrow then
    let dx := px current - px start in
    let dy := py current - py start in
    let len := sqrt (dx * dx + dy * dy) in
    let angle := atan2deg dy dx in
    let midX := (px start + px current) / 2 in
    let midY := (py start + py current) / 2 in
    let h := 20 in
    with_rotation
      (with_size
         (with_xy el (midX - Qmax 20 len / 2) (midY - h / 2))
         (Qmax 20 len) h)
      angle
  else
    let mX := Qmin (px start) (px current) in
    let mY := Qmin (py start) (py current) in
    let w := Qabs (px current - px start) in
    let h := Qabs (py current - py start) in
    let maxDim := Qmax w h in
    with_size (with_xy el mX mY)
      (if shift then maxDim else w) (if shift then maxDim else h).

(** The handlers of a stroke read [prev[prev.length - 1].points]; on an
    empty array that raises a [TypeError], the [None] of the move and up
    handlers. *)
Definition handleMouseMove (s : AppState) (e : MouseEvent)
  : option AppState :=
  let pos := getMousePos s e in
  if isPanning s then
    let dx := clientX e - px (panStart s) in
    let dy := clientY e - py (panStart s) in
    let vt := viewTransform s in
    let s1 := setViewTransform s
                (mkViewTransform (vt_x vt + dx) (vt_y vt + dy) (scale vt)) in
    Some (set_gesture s1 (isPanning s1) (mkPoint (clientX e) (clientY e))
            (creationStart s1) (dragInfo s1) (resizeInfo s1)
            (rotateInfo s1) (isDrawing s1))
  else
    match isRotating (rotateInfo s), selectedIds s with
    | true, [sid] =>
        let dx := px pos - centerX (rotateInfo s) in
        let dy := py pos - centerY (rotateInfo s) in
        let angle := atan2deg dy dx + 90 in
        let angle' := if shiftKey e then Js.round (angle / 15) * 15
                      else angle in
        Some (setElements s
                (map_id sid (fun el => with_rotation el angle')
                   (elements s)))
    | _, _ =>
    match isResizing (resizeInfo s), selectedIds s with
    | true, [sid] =>
        let dx := px pos - resize_startX (resizeInfo s) in
        let dy := py pos - resize_startY (resizeInfo s) in
        Some (setElements s
                (map_id sid (resizeElement (resizeInfo s) dx dy)
                   (elements s)))
    | _, _ =>
    match creationStart s, selectedIds s with
    | Some start, [sid] =>
        Some (setElements s
                (map_id sid (createGeometry start pos (shiftKey e))
                   (elements s)))
    | _, _ =>
    if isDrawing s then
      match last (map Some (elements s)) None with
      | None => None
      | Some lastEl =>
          match points lastEl with
          | None => Some s
          | Some pts =>
              let newPoints := pts ++ [pos] in
              let padding := Js.or_else (strokeWidth lastEl) 5 * 2 in
              let newWidth :=
                Qmax (Js.or_else (width lastEl) 0) (px pos + padding) in
              let newHeight :=
                Qmax (Js.or_else (height lastEl) 0) (py pos + padding) in
              Some (setElements s
                      (map_id (id lastEl)
                         (fun el =>
                            with_size (with_points el newPoints)
                              newWidth newHeight)
                         (elements s)))
          end
      end
    else if isDragging (dragInfo s)
            && (0 <? List.length (initialPositions (dragInfo s)))%nat then
      let dx := px pos - drag_startX (dragInfo s) in
      let dy := py pos - drag_startY (dragInfo s) in
      Some (setElements s
              (map (fun el =>
                      match find (fun p => String.eqb (ip_id p) (id el))
                              (initialPositions (dragInfo s)) with
                      | Some p => with_xy el (ip_x p + dx) (ip_y p + dy)
                      | None => el
                      end)
                 (elements s)))
    else Some s
    end end end.

(** *** Pointer up *)

(** The test [el && el.width && el.width < 5 && el.height &&
    el.height < 5] that decides whether a created element is dropped. *)
Definition isDegenerate (el : option BoardElement) : bool :=
  match el with
  | None => false
  | Some el =>
      Js.truthy (width el) && Js.opt_ltb (width el) 5
      && Js.truthy (height el) && Js.opt_ltb (height el) 5
  end.

(** The state cells every pointer-up resets. *)
Definition endGesture (s : AppState) : AppState :=
  set_gesture s false (panStart s) None
    (mkDragInfo false (drag_startX (dragInfo s)) (drag_startY (dragInfo s))
       [])
    (mkResizeInfo false (handle (resizeInfo s))
       (resize_startX (resizeInfo s)) (resize_startY (resizeInfo s))
       (initialX (resizeInfo s)) (initialY (resizeInfo s))
       (initialWidth (resizeInfo s)) (initialHeight (resizeInfo s)))
    (mkRotateInfo false (rotate_startX (rotateInfo s))
       (rotate_startY (rotateInfo s)) (initialRotation (rotateInfo s))
       (centerX (rotateInfo s)) (centerY (rotateInfo s)))
    false.

Definition handleMouseUp (s : AppState) : option AppState :=
  if isDrawing s then
    match last (map Some (elements s)) None with
    | None => None
    | Some lastEl =>
        match points lastEl with
        | None => Some (endGesture s)
        | Some _ =>
            let normalized := normalizeDrawing lastEl in
            let newEls :=
              map_id (id lastEl) (fun _ => normalized) (elements s) in
            Some (endGesture (commitElements s newEls))
        end
    end
  else
    match creationStart s, selectedIds s with
    | Some _, [sid] =>
        if isDegenerate (find_id sid (elements s)) then
          let filtered :=
            filter (fun el => negb (String.eqb (id el) sid)) (elements s) in
          Some (endGesture (setSelectedIds (setElements s filtered) []))
        else Some (endGesture (commitElements s (elements s)))
    | _, _ =>
        if isDragging (dragInfo s) || isResizing (resizeInfo s)
           || isRotating (rotateInfo s)
        then Some (endGesture (commitElements s (elements s)))
        else Some (endGesture s)
    end.

(** *** Handle grabs and content *)

Definition handleResizeStart (s : AppState) (e : MouseEvent)
  (direction : string) : AppState :=
  match selectedIds s with
  | [sid] =>
      let pos := getMousePos s e in
      match find_id sid (elements s) with
      | Some el =>
          if Js.truthy (width el) && Js.truthy (height el) then
            set_gesture s (isPanning s) (panStart s) (creationStart s)
              (dragInfo s)
              (mkResizeInfo true (Some direction) (px pos) (py pos)
                 (x el) (y el)
                 (Js.or_else (width el) 0) (Js.or_else (height el) 0))
              (rotateInfo s) (isDrawing s)
          else s
      | None => s
      end
  | _ => s
  end.

End Handlers.

(** ** Runs of the component *)

(** The events the modelled handlers answer.  A paste event carries the
    [elements] of the closure of its listener. *)
Inductive Event : Type :=
| MouseDown (e : MouseEvent)
| MouseMove (e : MouseEvent)
| MouseUp
| Wheel (e : WheelEvent)
| SelectTool (t : ToolType)
| ResizeStart (e : MouseEvent) (direction : string)
| ContextMenuAction (a : Action) (elementId clip : option string)
| Align (t : AlignType)
| PasteEvent (closureElements : list BoardElement) (txt : option string)
| ContentChange (i newContent : string)
| Undo
| Redo.

(** The handler React calls for an event; [None] when the handler would
    raise or leave the number model. *)
Definition dispatch (uuidv4 : nat -> string) (sqrt : Q -> Q)
  (atan2deg : Q -> Q -> Q) (s : AppState) (ev : Event) : option AppState :=
  match ev with
  | MouseDown e => Some (handleMouseDown uuidv4 s e)
  | MouseMove e => handleMouseMove sqrt atan2deg s e
  | MouseUp => handleMouseUp s
  | Wheel e => Some (handleWheel s e)
  | SelectTool t => Some (handleSelectTool s t)
  | ResizeStart e d => Some (handleResizeStart s e d)
  | ContextMenuAction a i c => handleContextMenuAction uuidv4 s a i c
  | Align t => handleAlign s t
  | PasteEvent els txt => Some (pasteListener uuidv4 s els txt)
  | ContentChange i c => Some (handleContentChange s i c)
  | Undo => Some (handleUndo s)
  | Redo => Some (handleRedo s)
  end.

(** The states a mounted component goes through. *)
Inductive reachable (uuidv4 : nat -> string) (sqrt : Q -> Q)
  (atan2deg : Q -> Q -> Q) (box : option DOMRect) : AppState -> Prop :=
| reachable_init : reachable uuidv4 sqrt atan2deg box (initialState box)
| reachable_step (s s' : AppState) (ev : Event) :
    reachable uuidv4 sqrt atan2deg box s ->
    dispatch uuidv4 sqrt atan2deg s ev = Some s' ->
    reachable uuidv4 sqrt atan2deg box s'.

(** The ids [ids] were handed out by the first [cnt] calls of [uuidv4]. *)
Definition issued (uuidv4 : nat -> string) (cnt : nat) (ids : list string)
  : Prop :=
  Forall (fun i => exists k, (k < cnt)%nat /\ i = uuidv4 k) ids.

(** The invariant of the store: the cursor points into the snapshots, and
    the ids of the store and of every snapshot were handed out by
    [uuidv4]. *)
Definition store_inv (uuidv4 : nat -> string) (s : AppState) : Prop :=
  history_wf s
  /\ issued uuidv4 (uuidCount s) (map id (elements s))
  /\ Forall (fun snap => issued uuidv4 (uuidCount s) (map id snap))
       (history s).

(** What the invariant asks of the history and the cursor a memoised
    callback holds. *)
Definition closure_inv (uuidv4 : nat -> string) (cnt : nat)
  (h : list (list BoardElement)) (k : nat) : Prop :=
  (k < List.length h)%nat
  /\ Forall (fun snap => issued uuidv4 cnt (map id snap)) h.

(** The values of [ResizeHandleDirection] in [types.ts]. *)
Definition resizeDirections : list string :=
  ["n"; "s"; "e"; "w"; "ne"; "nw"; "se"; "sw"]%string.

(** The right and bottom edges of an element, with [width || 0] and
    [height || 0] as [handleAlign] reads them. *)
Definition rightEdge (el : BoardElement) : Q :=
  x el + Js.or_else (width el) 0.

Definition bottomEdge (el : BoardElement) : Q :=
  y el + Js.or_else (height el) 0.

(** The selected elements of the store, [selectedEls] in [handleAlign]. *)
Definition selectedElements (s : AppState) : list BoardElement :=
  filter (fun el => Js.mem (id el) (selectedIds s)) (elements s).

(** The elements [duplicate] finds for its target ids, in the order of
    the ids. *)
Definition targetsFound (els : list BoardElement) (tids : list string)
  : list BoardElement :=
  flat_map (fun tid => match find_id tid els with
                       | Some el => [el]
                       | None => []
                       end) tids.

(** The duplicates pushed for the originals [origs] when [k] duplicates
    were pushed before and [cnt] identifiers drawn. *)
Fixpoint duplicatesFrom (uuidv4 : nat -> string) (n k cnt : nat)
  (origs : list BoardElement) : list BoardElement :=
  match origs with
  | [] => []
  | el :: rest =>
      duplicateOf el (uuidv4 cnt) (Z.of_nat n + Z.of_nat k + 1)%Z
      :: duplicatesFrom uuidv4 n (S k) (S cnt) rest
  end.

(** Every id of the store was handed out by [uuidv4]. *)
Definition ids_issued (uuidv4 : nat -> string) (s : AppState) : Prop :=
  forall el, In el (elements s) ->
             exists k, (k < uuidCount s)%nat /\ id el = uuidv4 k.

(** ** The rest of the component *)

Definition setActiveTool (s : AppState) (t : ToolType) : AppState :=
  mkAppState (history s) (historyStep s) (elements s) (penConfig s)
    (markerConfig s) (isCommandPaletteOpen s) t (selectedIds s)
    (viewTransform s) (isPanning s) (panStart s) (creationStart s)
    (dragInfo s) (resizeInfo s) (rotateInfo s) (isDrawing s)
    (contextMenuOpen s) (containerRect s) (uuidCount s).

Definition setIsCommandPaletteOpen (s : AppState) (b : bool) : AppState :=
  mkAppState (history s) (historyStep s) (elements s) (penConfig s)
    (markerConfig s) b (activeTool s) (selectedIds s) (viewTransform s)
    (isPanning s) (panStart s) (creationStart s) (dragInfo s) (resizeInfo s)
    (rotateInfo s) (isDrawing s) (contextMenuOpen s) (containerRect s)
    (uuidCount s).

Definition setToolConfigs (s : AppState) (penCfg markerCfg : ToolConfig)
  : AppState :=
  mkAppState (history s) (historyStep s) (elements s) penCfg markerCfg
    (isCommandPaletteOpen s) (activeTool s) (selectedIds s) (viewTransform s)
    (isPanning s) (panStart s) (creationStart s) (dragInfo s) (resizeInfo s)
    (rotateInfo s) (isDrawing s) (contextMenuOpen s) (containerRect s)
    (uuidCount s).

(** [handleZoomToFit].  The bounds are folded from the infinities as in
    [handleAlign]; over a non-empty store they are finite.  A quotient by a
    zero extent is an infinity, which [Math.min] with 1.5 removes.  The
    result is [None] only where the code would write a view that is not a
    finite number: a scale of [NaN] (a zero extent in a container of zero
    size) or of [-Infinity]. *)
Definition handleZoomToFit (s : AppState) : option AppState :=
  if (List.length (elements s) =? 0)%nat
  then Some (setViewTransform s (mkViewTransform 0 0 1))
  else
    match fold_left growBounds (elements s)
            (mkBounds Js.PosInf Js.NegInf Js.PosInf Js.NegInf) with
    | mkBounds (Js.Fin bminX) (Js.Fin bmaxX) (Js.Fin bminY) (Js.Fin bmaxY) =>
        let padding := 100 in
        let w := bmaxX - bminX + padding * 2 in
        let h := bmaxY - bminY + padding * 2 in
        match containerRect s with
        | Some box =>
            let contW := rect_width box in
            let contH := rect_height box in
            match Js.div contW w, Js.div contH h with
            | Some qw, Some qh =>
                match Js.ext_min (Js.ext_min2 qw qh) (3 # 2) with
                | Js.Fin sc =>
                    let nx := (contW - w * sc) / 2 - (bminX - padding) * sc in
                    let ny := (contH - h * sc) / 2 - (bminY - padding) * sc in
                    Some (setViewTransform s (mkViewTransform nx ny sc))
                | _ => None
                end
            | _, _ => None
            end
        | None => Some s
        end
    | _ => None
    end.

(** [handleClearCanvas]; [confirmed] is the answer of [window.confirm]. *)
Definition handleClearCanvas (s : AppState) (confirmed : bool) : AppState :=
  if confirmed then setSelectedIds (commitElements s []) [] else s.

(** [handleUploadImage] once the file reader has finished: [dataUrl] is
    [None] when no file was chosen or the reader has no result. *)
Definition handleUploadImage (uuidv4 : nat -> string) (s : AppState)
  (dataUrl : option string) : AppState :=
  match dataUrl with
  | None => s
  | Some d =>
      if String.eqb d "" then s
      else
        let vt := viewTransform s in
        let cX := match containerRect s with
                  | Some box => (rect_width box / 2 - vt_x vt) / scale vt
                  | None => 0
                  end in
        let cY := match containerRect s with
                  | Some box => (rect_height box / 2 - vt_y vt) / scale vt
                  | None => 0
                  end in
        let newEl :=
          mkElement (uuidv4 (uuidCount s)) image (cX - 150) (cY - 150)
            (Some 300) (Some 300) (Some d)
            None None None None None None None None
            (Z.of_nat (List.length (elements s)) + 1)%Z in
        setActiveTool
          (commitElements (set_uuidCount s (S (uuidCount s)))
             (elements s ++ [newEl]))
          select
  end.

(** The [selectedIds] that [handleContextMenu] writes into the menu. *)
Definition contextMenuSelection (s : AppState) (elementId : option string)
  : list string :=
  match elementId with
  | Some e =>
      if negb (String.eqb e "") && negb (Js.mem e (selectedIds s))
      then [e] else selectedIds s
  | None => selectedIds s
  end.

(** [handleContextMenu].  The position of the menu is not part of the
    modelled state; the ids it lists are [contextMenuSelection]. *)
Definition handleContextMenu (s : AppState) (elementId : option string)
  : AppState :=
  if isDrawingMode s then s
  else
    setContextMenuOpen
      (setSelectedIds s (contextMenuSelection s elementId)) true.

(** The element id [handleAction] of the context menu passes with an
    action: [selectedIds.length > 0 ? selectedIds[0] : null] on the ids of
    the menu. *)
Definition menuActionElementId (menuIds : list string) : option string :=
  hd_error menuIds.

(** The selection a click on the element [i] gives, with and without
    shift. *)
Definition clickSelection (selected : list string) (shift : bool)
  (i : string) : list string :=
  if shift then
    if Js.mem i selected
    then filter (fun j => negb (String.eqb j i)) selected
    else selected ++ [i]
  else if negb (Js.mem i selected) then [i] else selected.

(** [handleElementSelect], the [onSelect] of a board item.  The
    configuration menu it opens is not part of the modelled state. *)
Definition handleElementSelect (s : AppState) (e : MouseEvent) (i : string)
  : AppState :=
  if (button e =? 2)%Z then
    if negb (isDrawingMode s) then handleContextMenu s (Some i) else s
  else if isDrawingMode s then s
  else if ToolType_eqb (activeTool s) select then
    let newSelectedIds := clickSelection (selectedIds s) (shiftKey e) i in
    let pos := getMousePos s e in
    let relevantElements :=
      filter (fun el => Js.mem (id el) newSelectedIds) (elements s) in
    setSelectedIds
      (set_gesture s (isPanning s) (panStart s) (creationStart s)
         (mkDragInfo true (px pos) (py pos)
            (map (fun el => mkInitialPosition (id el) (x el) (y el))
               relevantElements))
         (resizeInfo s) (rotateInfo s) (isDrawing s))
      newSelectedIds
  else s.

Definition handleRotateStart (s : AppState) (e : MouseEvent) : AppState :=
  match selectedIds s with
  | [sid] =>
      let pos := getMousePos s e in
      match find_id sid (elements s) with
      | Some el =>
          if Js.truthy (width el) && Js.truthy (height el) then
            set_gesture s (isPanning s) (panStart s) (creationStart s)
              (dragInfo s) (resizeInfo s)
              (mkRotateInfo true (px pos) (py pos)
                 (Js.or_else (rotation el) 0)
                 (x el + Js.or_else (width el) 0 / 2)
                 (y el + Js.or_else (height el) 0 / 2))
              (isDrawing s)
          else s
      | None => s
      end
  | _ => s
  end.

(** [Partial<BoardElement>]: the fields an update carries. *)
Record Updates : Type := mkUpdates {
  u_id : option string;
  u_type : option ElementType;
  u_x : option Q;
  u_y : option Q;
  u_width : option Q;
  u_height : option Q;
  u_content : option string;
  u_color : option string;
  u_fillColor : option string;
  u_strokeColor : option string;
  u_textColor : option string;
  u_fontSize : option Q;
  u_points : option (list Point);
  u_strokeWidth : option Q;
  u_rotation : option Q;
  u_zIndex : option Z
}.

Definition noUpdates : Updates :=
  mkUpdates None None None None None None None None None None None None None
    None None None.

(** [a ?? b] for a field the update may carry. *)
Definition override {A : Type} (u : option A) (v : A) : A :=
  match u with
  | Some a => a
  | None => v
  end.

(** For an optional field the carried value replaces the old one. *)
Definition override_opt {A : Type} (u : option A) (v : option A)
  : option A :=
  match u with
  | Some a => Some a
  | None => v
  end.

(** [{ ...el, ...updates }] *)
Definition applyUpdates (u : Updates) (el : BoardElement) : BoardElement :=
  mkElement (override (u_id u) (id el)) (override (u_type u) (type el))
    (override (u_x u) (x el)) (override (u_y u) (y el))
    (override_opt (u_width u) (width el))
    (override_opt (u_height u) (height el))
    (override_opt (u_content u) (content el))
    (override_opt (u_color u) (color el))
    (override_opt (u_fillColor u) (fillColor el))
    (override_opt (u_strokeColor u) (strokeColor el))
    (override_opt (u_textColor u) (textColor el))
    (override_opt (u_fontSize u) (fontSize el))
    (override_opt (u_points u) (points el))
    (override_opt (u_strokeWidth u) (strokeWidth el))
    (override_opt (u_rotation u) (rotation el))
    (override (u_zIndex u) (zIndex el)).

(** [handleElementUpdate]; a [null] or empty id is falsy. *)
Definition handleElementUpdate (s : AppState) (i : option string)
  (u : Updates) : AppState :=
  match i with
  | None => s
  | Some i' =>
      if String.eqb i' "" then s
      else commitElements s (map_id i' (applyUpdates u) (elements s))
  end.

Definition handleColorChange (s : AppState) (c : string) : AppState :=
  commitElements s
    (map (fun el =>
            if Js.mem (id el) (selectedIds s) then
              if ElementType_is (type el) text
              then applyUpdates
                     (mkUpdates None None None None None None None (Some c)
                        None None None None None None None None) el
              else applyUpdates
                     (mkUpdates None None None None None None None (Some c)
                        (Some c) None None None None None None None) el
            else el)
       (elements s)).

Definition handleConfigChange (s : AppState) (forPen : bool)
  (config : ToolConfig) : AppState :=
  if forPen then setToolConfigs s config (markerConfig s)
  else setToolConfigs s (penConfig s) config.

(** *** The toolbar's calls of [onElementUpdate] *)

(** [selectedElement] of the toolbar: the selected element when exactly
    one element of the store is selected. *)
Definition selectedElement (s : AppState) : option BoardElement :=
  match selectedElements s with
  | [el] => Some el
  | _ => None
  end.

Definition handleFontSizeChange (s : AppState) (delta : Q) : AppState :=
  match selectedElement s with
  | Some el =>
      if negb (Js.truthy (fontSize el)) then s
      else
        let newSize :=
          Qmax 12 (Qmin 128 (Js.or_else (fontSize el) 18 + delta)) in
        handleElementUpdate s (Some (id el))
          (mkUpdates None None None None None None None None None None None
             (Some newSize) None None None None)
  | None => s
  end.

Definition handleTextColorChange (s : AppState) (hex : string) : AppState :=
  match selectedElement s with
  | Some el =>
      handleElementUpdate s (Some (id el))
        (mkUpdates None None None None None None None None None None
           (Some hex) None None None None None)
  | None => s
  end.

Definition handleStrokeColorChange (s : AppState) (hex : string)
  : AppState :=
  match selectedElement s with
  | Some el =>
      handleElementUpdate s (Some (id el))
        (mkUpdates None None None None None None None None None (Some hex)
           None None None None None None)
  | None => s
  end.

Definition handleFillColorChange (s : AppState) (hex : string) : AppState :=
  match selectedElement s with
  | Some el =>
      handleElementUpdate s (Some (id el))
        (mkUpdates None None None None None None None None (Some hex) None
           None None None None None None)
  | None => s
  end.

(** *** Keyboard shortcuts *)

(** [toLowerCase] on the ASCII letters, the only characters the shortcut
    tests compare with. *)
Definition lowerAscii (c : ascii) : ascii :=
  let n := nat_of_ascii c in
  if (65 <=? n)%nat && (n <=? 90)%nat then ascii_of_nat (n + 32) else c.

Fixpoint toLowerCase (s : string) : string :=
  match s with
  | EmptyString => EmptyString
  | String c rest => String (lowerAscii c) (toLowerCase rest)
  end.

Record KeyboardEvent : Type := mkKeyboardEvent {
  key : string;
  ctrlKey : bool;
  metaKey : bool;
  key_shiftKey : bool
}.

(** The [switch] on the lower-cased key at the end of [handleKeyDown]. *)
Definition keySwitch (s : AppState) (k : string) : AppState :=
  if String.eqb k "v" then handleSelectTool s select
  else if String.eqb k "p" then handleSelectTool s pen
  else if String.eqb k "h" then handleSelectTool s highlighter
  else if String.eqb k "t" then handleSelectTool s text
  else if String.eqb k "s" then handleSelectTool s sticky
  else if String.eqb k "r" then handleSelectTool s rect
  else if String.eqb k "c" then handleSelectTool s circle
  else if String.eqb k "l" then handleSelectTool s line
  else if String.eqb k "a" then handleSelectTool s arrow
  else if String.eqb k "backspace" || String.eqb k "delete" then
    if (0 <? List.length (selectedIds s))%nat then
      setSelectedIds
        (commitElements s
           (filter (fun el => negb (Js.mem (id el) (selectedIds s)))
              (elements s)))
        []
    else s
  else s.

(** The global [keydown] listener; [isInputActive] is its test of the
    focused element. *)
Definition handleKeyDown (s : AppState) (e : KeyboardEvent)
  (isInputActive : bool) : AppState :=
  let cmd := ctrlKey e || metaKey e in
  if cmd && String.eqb (toLowerCase (key e)) "k" then
    setIsCommandPaletteOpen s (negb (isCommandPaletteOpen s))
  else if isCommandPaletteOpen s then s
  else if cmd && String.eqb (key e) "z" && negb (key_shiftKey e) then
    handleUndo s
  else if (cmd && String.eqb (key e) "y")
          || (cmd && key_shiftKey e && String.eqb (key e) "z") then
    handleRedo s
  else if isInputActive then s
  else keySwitch s (toLowerCase (key e)).

(** *** All the commands of the component *)

(** The pointer and history events of [dispatch] and the entry points of
    the toolbar, the board items and the keyboard. *)
Inductive Command : Type :=
| Pointer (ev : Event)
| ElementSelect (e : MouseEvent) (i : string)
| OpenContextMenu (elementId : option string)
| RotateStart (e : MouseEvent)
| ColorChange (c : string)
| FontSizeChange (delta : Q)
| TextColorChange (hex : string)
| StrokeColorChange (hex : string)
| FillColorChange (hex : string)
| ConfigChange (forPen : bool) (config : ToolConfig)
| ClearCanvas (confirmed : bool)
| UploadImage (dataUrl : option string)
| KeyDown (e : KeyboardEvent) (isInputActive : bool)
| ZoomToFit.

Definition execute (uuidv4 : nat -> string) (sqrt : Q -> Q)
  (atan2deg : Q -> Q -> Q) (s : AppState) (c : Command) : option AppState :=
  match c with
  | Pointer ev => dispatch uuidv4 sqrt atan2deg s ev
  | ElementSelect e i => Some (handleElementSelect s e i)
  | OpenContextMenu i => Some (handleContextMenu s i)
  | RotateStart e => Some (handleRotateStart s e)
  | ColorChange c => Some (handleColorChange s c)
  | FontSizeChange d => Some (handleFontSizeChange s d)
  | TextColorChange h => Some (handleTextColorChange s h)
  | StrokeColorChange h => Some (handleStrokeColorChange s h)
  | FillColorChange h => Some (handleFillColorChange s h)
  | ConfigChange p cfg => Some (handleConfigChange s p cfg)
  | ClearCanvas b => Some (handleClearCanvas s b)
  | UploadImage d => Some (handleUploadImage uuidv4 s d)
  | KeyDown e a => Some (handleKeyDown s e a)
  | ZoomToFit => handleZoomToFit s
  end.

(** The run of a list of commands from a state; [None] as soon as one of
    them fails. *)
Fixpoint runCommands (uuidv4 : nat -> string) (sqrt : Q -> Q)
  (atan2deg : Q -> Q -> Q) (s : AppState) (cs : list Command)
  : option AppState :=
  match cs with
  | [] => Some s
  | c :: rest =>
      match execute uuidv4 sqrt atan2deg s c with
      | Some s' => runCommands uuidv4 sqrt atan2deg s' rest
      | None => None
      end
  end.

(** The container, when it is mounted, has a positive width and height. *)
Definition hasExtent (box : option DOMRect) : Prop :=
  match box with
  | Some b => 0 < rect_width b /\ 0 < rect_height b
  | None => True
  end.

(** The memoised callback a command runs, if it runs one, with the history
    and the cursor that callback holds. *)
Definition pasteClosure (c : Command)
  : option (list (list BoardElement) * nat) :=
  match c with
  | Pointer (ContextMenuAction (APaste h k) _ _) => Some (h, k)
  | _ => None
  end.

(** A callback was created in a render of the run: the history and the
    cursor it holds are those of the current state or of one of the states
    the run went through, [past].  Which of them it is depends on which
    renders replaced the [elements] array; every choice is admitted
    here. *)
Definition capturedIn (past : list AppState) (s : AppState) (c : Command)
  : Prop :=
  match pasteClosure c with
  | Some (h, k) =>
      exists t, In t (s :: past) /\ h = history t /\ k = historyStep t
  | None => True
  end.

Fixpoint closuresCaptured (uuidv4 : nat -> string) (sqrt : Q -> Q)
  (atan2deg : Q -> Q -> Q) (past : list AppState) (s : AppState)
  (cs : list Command) : Prop :=
  match cs with
  | [] => True
  | c :: rest =>
      capturedIn past s c
      /\ match execute uuidv4 sqrt atan2deg s c with
         | Some s' =>
             closuresCaptured uuidv4 sqrt atan2deg (s :: past) s' rest
         | None => True
         end
  end.

(** The store shows the snapshot under the cursor. *)
Definition synced (s : AppState) : Prop :=
  nth_error (history s) (historyStep s) = Some (elements s).

(** No two elements of the store, and no two elements of a snapshot, have
    the same id. *)
Definition unique_ids (s : AppState) : Prop :=
  NoDup (map id (elements s))
  /\ Forall (fun snap => NoDup (map id snap)) (history s).

(** ** The command palette *)

(** The keyboard navigation of [CommandPalette.tsx].  [selectedIndex] is
    [None] when it is [NaN], which the remainder by the length of an empty
    list gives.  The handler closes over the filtered commands of the
    render; it returns the new state and the action it ran, if any. *)
Module CommandPalette.

Inductive Key : Type := ArrowDown | ArrowUp | Enter | Escape | OtherKey.

Record State : Type := mkState {
  query : string;
  selectedIndex : option Z;
  isOpen : bool
}.

(** [a % n] on numbers that are integers or [NaN]. *)
Definition remainder (a : option Z) (n : Z) : option Z :=
  match a with
  | Some v => if (n =? 0)%Z then None else Some (Z.rem v n)
  | None => None
  end.

(** [l[i]]: [undefined] outside the list and for [NaN]. *)
Definition item {A : Type} (l : list A) (i : option Z) : option A :=
  match i with
  | Some v => if (v <? 0)%Z then None else nth_error l (Z.to_nat v)
  | None => None
  end.

Definition onClose (st : State) : State :=
  mkState (query st) (selectedIndex st) false.

Definition handleKeyDown {A : Type} (filteredCommands : list A)
  (st : State) (k : Key) : State * option A :=
  let n := Z.of_nat (List.length filteredCommands) in
  match k with
  | ArrowDown =>
      (mkState (query st)
         (remainder (option_map (fun prev => prev + 1) (selectedIndex st)) n)
         (isOpen st), None)
  | ArrowUp =>
      (mkState (query st)
         (remainder (option_map (fun prev => prev - 1 + n) (selectedIndex st))
            n)
         (isOpen st), None)
  | Enter =>
      match item filteredCommands (selectedIndex st) with
      | Some c => (onClose st, Some c)
      | None => (st, None)
      end
  | Escape => (onClose st, None)
  | OtherKey => (st, None)
  end%Z.

(** The [onChange] of the search input. *)
Definition handleQueryChange (st : State) (value : string) : State :=
  mkState value (Some 0%Z) (isOpen st).

End CommandPalette.

(** ** The same expressions in binary64 *)

(** The arithmetic of a handler as a JavaScript engine evaluates it: on
    IEEE binary64 numbers, rounded to nearest after every operation.  The
    expressions on whose exactness a statement of the specification
    depends are repeated here under the names of the source, operation by
    operation as in the rational reading above. *)
Module Double.

Local Open Scope float_scope.

(** [Math.max(a, b)] and [Math.min(a, b)]. *)
Definition max (a b : float) : float :=
  if PrimFloat.is_nan a || PrimFloat.is_nan b then nan
  else if a <? b then b
  else if b <? a then a
  else if PrimFloat.get_sign a then b else a.

Definition min (a b : float) : float :=
  if PrimFloat.is_nan a || PrimFloat.is_nan b then nan
  else if a <? b then a
  else if b <? a then b
  else if PrimFloat.get_sign a then a else b.

(** [v || 0] *)
Definition or_zero (v : float) : float :=
  if PrimFloat.is_nan v || (v =? 0) then 0 else v.

Record Point : Type := mkPoint { px : float; py : float }.

Record ViewTransform : Type := mkViewTransform {
  vt_x : float;
  vt_y : float;
  scale : float
}.

Definition screenToWorld (t : ViewTransform) (screenX screenY : float)
  : Point :=
  mkPoint ((screenX - vt_x t) / scale t) ((screenY - vt_y t) / scale t).

(** [handleWheel] in a mounted container whose rectangle starts at
    [(rect_left, rect_top)]. *)
Definition handleWheel (t : ViewTransform)
  (rect_left rect_top clientX clientY deltaY : float) : ViewTransform :=
  let scaleAmount := - deltaY * 0.001 in
  let newScale := min (max 0.1 (scale t * (1 + scaleAmount))) 5 in
  let mouseX := clientX - rect_left in
  let mouseY := clientY - rect_top in
  let worldX := (mouseX - vt_x t) / scale t in
  let worldY := (mouseY - vt_y t) / scale t in
  let newX := mouseX - worldX * newScale in
  let newY := mouseY - worldY * newScale in
  mkViewTransform newX newY newScale.

Record Geometry : Type := mkGeometry {
  g_x : float;
  g_y : float;
  g_width : float;
  g_height : float
}.

(** The geometry a resize move computes from the resize in progress and
    the displacement of the pointer. *)
Definition resizeElement (handle : string)
  (initialX initialY initialWidth initialHeight dx dy : float) : Geometry :=
  let w1 := if Js.includes handle "e" then initialWidth + dx
            else initialWidth in
  let w2 := if Js.includes handle "w" then w1 - dx else w1 in
  let x1 := if Js.includes handle "w" then initialX + dx else initialX in
  let h1 := if Js.includes handle "s" then initialHeight + dy
            else initialHeight in
  let h2 := if Js.includes handle "n" then h1 - dy else h1 in
  let y1 := if Js.includes handle "n" then initialY + dy else initialY in
  let x2 := if w2 <? 20
            then (if Js.includes handle "w"
                  then initialX + initialWidth - 20 else x1)
            else x1 in
  let w3 := if w2 <? 20 then 20 else w2 in
  let y2 := if h2 <? 20
            then (if Js.includes handle "n"
                  then initialY + initialHeight - 20 else y1)
            else y1 in
  let h3 := if h2 <? 20 then 20 else h2 in
  mkGeometry x2 y2 w3 h3.

(** The horizontal part of [handleAlign] with type [right] on a selection
    of more than one element: [bounds.maxX] of the [forEach], and the new
    [x] of every selected element. *)
Record Extent : Type := mkExtent { e_x : float; e_width : float }.

Definition boundsMaxX (selectedEls : list Extent) : float :=
  fold_left (fun m el => max m (e_x el + or_zero (e_width el)))
    selectedEls neg_infinity.

Definition alignRight (selectedEls : list Extent) : list Extent :=
  map (fun el =>
         mkExtent (boundsMaxX selectedEls - or_zero (e_width el))
           (e_width el))
    selectedEls.

End Double.

(** ** Concrete data for the examples *)

(** A mounted 800 x 600 container at the origin of the page. *)
Definition exampleRect : option DOMRect := Some (mkDOMRect 0 0 800 600).

(** A collision-free identifier source: the [k]-th identifier is [k]
    letters long. *)
Fixpoint unaryId (k : nat) : string :=
  match k with
  | O => "u"%string
  | S k' => String "u" (unaryId k')
  end.

(** A rectangle with the appearance fields the rectangle tool gives. *)
Definition exampleBox (i : string) (bx by_ w h : Q) (z : Z) : BoardElement :=
  mkElement i (Tool rect) bx by_ (Some w) (Some h) None
    (Some "transparent"%string) (Some "transparent"%string)
    (Some "#000000"%string) None (Some 18) None (Some 3) (Some 0) z.

(** A left-button event at a client position, on the background. *)
Definition leftButtonAt (cx cy : Q) : MouseEvent :=
  mkMouseEvent cx cy 0 false true.

(** A pen stroke as [handleMouseDown] and [handleMouseMove] leave it in the
    store, with the captured world points [pts]. *)
Definition exampleStroke (i : string) (pts : list Point) : BoardElement :=
  mkElement i (Tool pen) 0 0 (Some 56) (Some 56) None
    (Some "#1f2937"%string) None None None None (Some pts) (Some 3) (Some 0)
    1.

(** The board with the elements [els] committed and the ids [sel]
    selected with the select tool. *)
Definition boardWith (els : list BoardElement) (sel : list string)
  : AppState :=
  setSelectedIds (commitElements (initialState exampleRect) els) sel.

(** A complete drag-to-create gesture with the tool [t]: pointer down at
    [(x0, y0)], one move to [(x1, y1)], pointer up. *)
Definition dragCreate (s : AppState) (t : ToolType) (x0 y0 x1 y1 : Q)
  : option AppState :=
  let s1 := handleMouseDown unaryId (handleSelectTool s t)
              (leftButtonAt x0 y0) in
  match handleMouseMove (fun q => q) (fun _ _ => 0) s1 (leftButtonAt x1 y1)
  with
  | Some s2 => handleMouseUp s2
  | None => None
  end.


(** * Properties *)

(** ** History: projections of the primitive steps *)

Local Open Scope nat_scope.

Lemma historyEffect_history (s : AppState) :
  history (historyEffect s) = history s.
Proof. unfold historyEffect. now destruct (nth_error _ _). Qed.

Lemma historyEffect_step (s : AppState) :
  historyStep (historyEffect s) = historyStep s.
Proof. unfold historyEffect. now destruct (nth_error _ _). Qed.

Lemma historyEffect_selectedIds (s : AppState) :
  selectedIds (historyEffect s) = selectedIds s.
Proof. unfold historyEffect. now destruct (nth_error _ _). Qed.

Lemma historyEffect_uuidCount (s : AppState) :
  uuidCount (historyEffect s) = uuidCount s.
Proof. unfold historyEffect. now destruct (nth_error _ _). Qed.

Lemma historyEffect_elements (s : AppState) (els : list BoardElement) :
  nth_error (history s) (historyStep s) = Some els ->
  elements (historyEffect s) = els.
Proof. unfold historyEffect. intros ->. reflexivity. Qed.

Lemma nth_error_snoc (A : Type) (l : list A) (a : A) :
  nth_error (l ++ [a]) (List.length (l ++ [a]) - 1) = Some a.
Proof.
  rewrite length_app. simpl.
  replace (List.length l + 1 - 1)%nat with (List.length l) by lia.
  rewrite nth_error_app2 by lia. now rewrite Nat.sub_diag.
Qed.

Lemma commitElements_history (s : AppState) (c : list BoardElement) :
  history (commitElements s c)
  = firstn (historyStep s + 1) (history s) ++ [c].
Proof. unfold commitElements. now rewrite historyEffect_history. Qed.

Lemma commitElements_step (s : AppState) (c : list BoardElement) :
  historyStep (commitElements s c)
  = List.length (history (commitElements s c)) - 1.
Proof.
  unfold commitElements.
  now rewrite historyEffect_step, historyEffect_history.
Qed.

Lemma commitElements_elements (s : AppState) (c : list BoardElement) :
  elements (commitElements s c) = c.
Proof.
  unfold commitElements. apply historyEffect_elements.
  cbn [addToHistory set_history history historyStep setElements].
  apply nth_error_snoc.
Qed.

Lemma commitElements_selectedIds (s : AppState) (c : list BoardElement) :
  selectedIds (commitElements s c) = selectedIds s.
Proof. unfold commitElements. now rewrite historyEffect_selectedIds. Qed.

Lemma commitElements_uuidCount (s : AppState) (c : list BoardElement) :
  uuidCount (commitElements s c) = uuidCount s.
Proof. unfold commitElements. now rewrite historyEffect_uuidCount. Qed.

Lemma commitElements_wf (s : AppState) (c : list BoardElement) :
  history_wf (commitElements s c).
Proof.
  unfold history_wf. rewrite commitElements_step, commitElements_history.
  rewrite length_app. simpl. lia.
Qed.

(** A commit made with the cursor on the last snapshot appends. *)
Lemma commitElements_at_end (s : AppState) (c : list BoardElement) :
  historyStep s = List.length (history s) - 1 ->
  history (commitElements s c) = history s ++ [c].
Proof.
  intros Hs. rewrite commitElements_history.
  rewrite firstn_all2 by lia. reflexivity.
Qed.

Lemma handleUndo_history (s : AppState) : history (handleUndo s) = history s.
Proof.
  unfold handleUndo. destruct (0 <? historyStep s)%nat; [|reflexivity].
  now rewrite historyEffect_history.
Qed.

Lemma handleUndo_step (s : AppState) :
  historyStep (handleUndo s) = historyStep s - 1.
Proof.
  unfold handleUndo. destruct (0 <? historyStep s)%nat eqn:E.
  - now rewrite historyEffect_step.
  - apply Nat.ltb_ge in E. lia.
Qed.

Lemma handleUndo_elements (s : AppState) :
  history_wf s -> (0 < historyStep s)%nat ->
  elements (handleUndo s) = nth (historyStep s - 1) (history s) [].
Proof.
  unfold history_wf, handleUndo. intros Hwf Hpos.
  destruct (Nat.ltb_spec 0 (historyStep s)); [|lia].
  apply historyEffect_elements. cbn [set_history history historyStep].
  apply nth_error_nth'. lia.
Qed.

Lemma handleRedo_history (s : AppState) : history (handleRedo s) = history s.
Proof.
  unfold handleRedo. destruct (_ <? _)%Z; [|reflexivity].
  now rewrite historyEffect_history.
Qed.

Lemma handleRedo_step (s : AppState) :
  (historyStep s + 1 < List.length (history s))%nat ->
  historyStep (handleRedo s) = historyStep s + 1.
Proof.
  unfold handleRedo. intros H.
  destruct (Z.ltb_spec (Z.of_nat (historyStep s))
              (Z.of_nat (List.length (history s)) - 1)); [|lia].
  now rewrite historyEffect_step.
Qed.

Lemma handleRedo_elements (s : AppState) :
  (historyStep s + 1 < List.length (history s))%nat ->
  elements (handleRedo s) = nth (historyStep s + 1) (history s) [].
Proof.
  unfold handleRedo. intros H.
  destruct (Z.ltb_spec (Z.of_nat (historyStep s))
              (Z.of_nat (List.length (history s)) - 1)); [|lia].
  apply historyEffect_elements. cbn [set_history history historyStep].
  apply nth_error_nth'. lia.
Qed.

Lemma handleRedo_at_end (s : AppState) :
  (List.length (history s) <= historyStep s + 1)%nat -> handleRedo s = s.
Proof.
  unfold handleRedo. intros H.
  destruct (Z.ltb_spec (Z.of_nat (historyStep s))
              (Z.of_nat (List.length (history s)) - 1)); [lia|reflexivity].
Qed.

(** ** History: runs of undo and redo *)

Lemma undo_iter (j : nat) (s : AppState) :
  history_wf s -> (0 < j <= historyStep s)%nat ->
  history (Nat.iter j handleUndo s) = history s
  /\ historyStep (Nat.iter j handleUndo s) = historyStep s - j
  /\ elements (Nat.iter j handleUndo s)
     = nth (historyStep s - j) (history s) [].
Proof.
  unfold history_wf. intros Hwf. induction j as [|j IH]; intros Hj; [lia|].
  rewrite Nat.iter_succ. destruct j as [|j].
  - change (Nat.iter 0 ?f ?a) with a. cbv beta.
    rewrite handleUndo_history, handleUndo_step.
    rewrite handleUndo_elements by (unfold history_wf; lia). auto.
  - destruct IH as (Hh & Hs & _); [lia|].
    rewrite handleUndo_history, handleUndo_step, Hh, Hs.
    rewrite handleUndo_elements
      by (unfold history_wf; rewrite ?Hh, ?Hs; lia).
    rewrite Hh, Hs. repeat split; first [reflexivity | lia | f_equal; lia].
Qed.

Lemma redo_iter (j : nat) (s : AppState) :
  (0 < j)%nat -> (historyStep s + j < List.length (history s))%nat ->
  history (Nat.iter j handleRedo s) = history s
  /\ historyStep (Nat.iter j handleRedo s) = historyStep s + j
  /\ elements (Nat.iter j handleRedo s)
     = nth (historyStep s + j) (history s) [].
Proof.
  induction j as [|j IH]; intros Hpos Hj; [lia|].
  rewrite Nat.iter_succ. destruct j as [|j].
  - change (Nat.iter 0 ?f ?a) with a. cbv beta.
    rewrite handleRedo_history, handleRedo_step by lia.
    rewrite handleRedo_elements by lia. auto.
  - destruct IH as (Hh & Hs & _); [lia|lia|].
    rewrite handleRedo_history, Hh.
    rewrite handleRedo_step by (rewrite Hh, Hs; lia).
    rewrite handleRedo_elements by (rewrite Hh, Hs; lia).
    rewrite Hh, Hs. repeat split; first [reflexivity | lia | f_equal; lia].
Qed.

Lemma last_cons_default (A : Type) (l : list A) (a d : A) :
  last (a :: l) d = last l a.
Proof.
  revert a d. induction l as [|b l IH]; intros a d; [reflexivity|].
  change (last (a :: b :: l) d) with (last (b :: l) d).
  rewrite (IH b d), (IH b a). reflexivity.
Qed.

(** After a run of commits that starts with the cursor on the last
    snapshot, the snapshots are the old ones followed by the committed
    collections and the cursor is on the last of them. *)
Lemma commits_run (cs : list (list BoardElement)) (s : AppState) :
  history_wf s -> historyStep s = List.length (history s) - 1 ->
  let sN := fold_left commitElements cs s in
  history sN = history s ++ cs
  /\ historyStep sN = List.length (history s) + List.length cs - 1
  /\ elements sN = last cs (elements s).
Proof.
  revert s. induction cs as [|c cs IH]; intros s Hwf Hend; cbn [fold_left].
  - rewrite app_nil_r. cbn [List.length last]. repeat split; lia.
  - destruct (IH (commitElements s c)) as (Hh & Hs & He).
    + apply commitElements_wf.
    + apply commitElements_step.
    + cbv zeta in *. rewrite Hh, Hs, He.
      rewrite commitElements_at_end by assumption.
      rewrite <- app_assoc. cbn [app]. rewrite length_app.
      cbn [List.length]. repeat split; [lia|].
      rewrite commitElements_elements.
      symmetry. apply last_cons_default.
Qed.

Lemma nth_length_cons (A : Type) (l : list A) (a d : A) :
  nth (List.length l) (a :: l) d = last l a.
Proof.
  revert a. induction l as [|b l IH]; intros a; [reflexivity|].
  change (nth (List.length (b :: l)) (a :: b :: l) d)
    with (nth (List.length l) (b :: l) d).
  rewrite IH. symmetry. apply last_cons_default.
Qed.

(** C2.  The history is linear.  [addToHistory] keeps the snapshots up to
    the cursor, appends the new collection and moves the cursor to the new
    last index; [handleUndo] moves the cursor back by one exactly when it is
    positive and otherwise changes nothing; [handleRedo] moves it forward by
    one exactly when it is below the last index and otherwise changes
    nothing.  From the initial state, after the commits [cs] the board shows
    the last committed collection, as many undos show the empty board, as
    many redos show the last collection again; and a commit made after an
    undo drops the snapshots beyond the cursor, so that the next redo
    changes nothing. *)
Theorem history_linear :
  (forall s c,
      history (addToHistory s c)
      = firstn (historyStep s + 1) (history s) ++ [c]
      /\ historyStep (addToHistory s c)
         = List.length (history (addToHistory s c)) - 1)
  /\ (forall s,
        (0 < historyStep s ->
         history (handleUndo s) = history s
         /\ historyStep (handleUndo s) = historyStep s - 1)
        /\ (~ 0 < historyStep s -> handleUndo s = s))
  /\ (forall s,
        (historyStep s < List.length (history s) - 1 ->
         history (handleRedo s) = history s
         /\ historyStep (handleRedo s) = historyStep s + 1)
        /\ (~ historyStep s < List.length (history s) - 1 ->
            handleRedo s = s))
  /\ (forall box cs,
        let sN := fold_left commitElements cs (initialState box) in
        let N := List.length cs in
        elements sN = last cs []
        /\ elements (Nat.iter N handleUndo sN) = []
        /\ elements (Nat.iter N handleRedo (Nat.iter N handleUndo sN))
           = last cs [])
  /\ (forall s c,
        history_wf s -> 0 < historyStep s ->
        let s' := commitElements (handleUndo s) c in
        history s' = firstn (historyStep s) (history s) ++ [c]
        /\ handleRedo s' = s').
Proof.
  split; [|split; [|split; [|split]]].
  - intros s c. split; reflexivity.
  - intros s. split.
    + intros _. split; [apply handleUndo_history | apply handleUndo_step].
    + intros H. unfold handleUndo.
      destruct (Nat.ltb_spec 0 (historyStep s)); [lia | reflexivity].
  - intros s. split.
    + intros H. split; [apply handleRedo_history|].
      apply handleRedo_step. lia.
    + intros H. apply handleRedo_at_end. lia.
  - intros box cs sN N.
    destruct (commits_run cs (initialState box)) as (Hh & Hs & He).
    { unfold history_wf. cbn. lia. }
    { reflexivity. }
    fold sN in Hh, Hs, He.
    change (history (initialState box)) with ([[]] : list (list BoardElement))
      in *.
    change (elements (initialState box)) with ([] : list BoardElement) in He.
    cbn [List.length app] in Hh, Hs. fold N in Hs.
    assert (HsN : historyStep sN = N) by lia.
    split; [exact He|].
    destruct N as [|n] eqn:EN.
    + change (Nat.iter 0 ?f ?a) with a. cbv beta.
      split; [|exact He].
      rewrite He. destruct cs; [reflexivity | discriminate].
    + destruct (undo_iter (S n) sN) as (Uh & Us & Ue).
      { unfold history_wf. rewrite Hh, HsN. cbn [List.length]. lia. }
      { lia. }
      rewrite Ue, HsN, Nat.sub_diag, Hh. split; [reflexivity|].
      destruct (redo_iter (S n) (Nat.iter (S n) handleUndo sN))
        as (_ & _ & Re).
      { lia. }
      { rewrite Uh, Us, Hh, HsN. cbn [List.length]. lia. }
      rewrite Re, Uh, Us, Hh, HsN, Nat.sub_diag. cbn [Nat.add].
      rewrite <- EN. apply nth_length_cons.
  - intros s c Hwf Hpos s'. unfold history_wf in Hwf. split.
    + unfold s'. rewrite commitElements_history.
      rewrite handleUndo_history, handleUndo_step.
      f_equal. f_equal. lia.
    + apply handleRedo_at_end. unfold s'.
      rewrite commitElements_step. lia.
Qed.

(** The last part of [history_linear] on a board with two committed
    rectangles: undo, then commit a third. *)
Lemma history_linear_witness :
  let a := exampleBox "a" 0 0 50 50 1 in
  let b := exampleBox "b" 100 0 30 30 2 in
  let c := exampleBox "c" 10 10 40 40 2 in
  let s := fold_left commitElements [[a]; [a; b]] (initialState exampleRect) in
  let s' := commitElements (handleUndo s) [a; c] in
  history s' = [[]; [a]; [a; c]] /\ handleRedo s' = s'.
Proof.
  intros a b c s s'.
  destruct history_linear as (_ & _ & _ & _ & H).
  apply (H s [a; c]); vm_compute; lia.
Defined.

(** ** Content edits *)

(** C8.  [handleContentChange] replaces the [content] of the elements whose
    id is the given one and nothing else: the store keeps its length, an
    element with another id is unchanged, an element with the id keeps
    every other field; the snapshots and the cursor are unchanged, so an
    undo made after the edit shows the same board as an undo made before
    it. *)
Theorem handleContentChange_frame :
  forall (s : AppState) (i newContent : string),
    let s' := handleContentChange s i newContent in
    history s' = history s
    /\ historyStep s' = historyStep s
    /\ List.length (elements s') = List.length (elements s)
    /\ (forall k el,
          nth_error (elements s) k = Some el ->
          exists el',
            nth_error (elements s') k = Some el'
            /\ (id el <> i -> el' = el)
            /\ (id el = i ->
                content el' = Some newContent
                /\ id el' = id el /\ type el' = type el
                /\ x el' = x el /\ y el' = y el
                /\ width el' = width el /\ height el' = height el
                /\ color el' = color el /\ fillColor el' = fillColor el
                /\ strokeColor el' = strokeColor el
                /\ textColor el' = textColor el
                /\ fontSize el' = fontSize el /\ points el' = points el
                /\ strokeWidth el' = strokeWidth el
                /\ rotation el' = rotation el /\ zIndex el' = zIndex el))
    /\ (history_wf s -> 0 < historyStep s ->
        elements (handleUndo s') = elements (handleUndo s)).
Proof.
  intros s i newContent s'. unfold s', handleContentChange.
  cbn [history historyStep elements setElements].
  split; [reflexivity|]. split; [reflexivity|].
  split; [unfold map_id; apply length_map|]. split.
  - intros k el Hk. unfold map_id.
    rewrite nth_error_map, Hk. cbn [option_map].
    eexists. split; [reflexivity|].
    destruct (String.eqb_spec (id el) i) as [E|E].
    + split; [intros N; contradiction|]. intros _.
      cbn. repeat split; reflexivity.
    + split; [reflexivity | intros N; contradiction].
  - intros Hwf Hpos.
    rewrite !handleUndo_elements by assumption. reflexivity.
Qed.

(** An edit of the first of two committed notes. *)
Lemma handleContentChange_frame_witness :
  let a := exampleBox "a" 0 0 50 50 1 in
  let b := exampleBox "b" 100 0 30 30 2 in
  let s := fold_left commitElements [[a]; [a; b]] (initialState exampleRect) in
  elements (handleUndo (handleContentChange s "a" "hello")) = [a].
Proof.
  intros a b s.
  destruct (handleContentChange_frame s "a" "hello") as (_ & _ & _ & _ & H).
  rewrite H; [reflexivity | vm_compute; lia | vm_compute; lia].
Defined.

(** ** Paste *)


(** What the paste listener writes: the new element after the current
    store, and nothing else. *)
Lemma pasteListener_writes (uuidv4 : nat -> string) (s : AppState)
  (closureElements : list BoardElement) (txt : string) :
  txt <> ""%string -> isCommandPaletteOpen s = false ->
  let sl := pasteListener uuidv4 s closureElements (Some txt) in
  elements sl
  = elements s ++ [createTextElementAtCenter uuidv4 s closureElements txt]
  /\ history sl = history s /\ historyStep sl = historyStep s.
Proof.
  intros Htxt Hopen sl. unfold sl, pasteListener. rewrite Hopen.
  destruct (String.eqb_spec txt ""); [contradiction|]. repeat split.
Qed.


(** ** Strokes *)

(** C10.  A left-button pointer-down with no resize or rotation in
    progress appends one element when a drawing tool is active: with the
    highlighter its [zIndex] is 0, which is at most the [zIndex] of every
    element whose [zIndex] is positive; with the pen its [zIndex] is the
    number of elements plus one. *)
Theorem drawing_zIndex :
  forall (uuidv4 : nat -> string) (s : AppState) (e : MouseEvent),
    button e <> 2%Z ->
    isResizing (resizeInfo s) = false ->
    isRotating (rotateInfo s) = false ->
    let s' := handleMouseDown uuidv4 s e in
    (activeTool s = highlighter ->
     exists el,
       elements s' = elements s ++ [el]
       /\ zIndex el = 0%Z
       /\ forall other,
            In other (elements s) -> (0 < zIndex other)%Z ->
            (zIndex el <= zIndex other)%Z)
    /\ (activeTool s = pen ->
        exists el,
          elements s' = elements s ++ [el]
          /\ zIndex el = (Z.of_nat (List.length (elements s)) + 1)%Z).
Proof.
  intros uuidv4 s e Hb Hrs Hro s'. unfold s', handleMouseDown.
  destruct (Z.eqb_spec (button e) 2); [contradiction|].
  rewrite Hrs, Hro. cbn [orb].
  split; intros Htool; unfold isDrawingMode, newDrawing; rewrite Htool;
    cbn [ToolType_eqb andb orb elements setElements];
    eexists; (split; [reflexivity|]); cbn [zIndex].
  - split; [reflexivity|]. intros other _ Hpos. lia.
  - reflexivity.
Qed.

(** A highlighter stroke started on a board that holds one rectangle. *)
Lemma drawing_zIndex_witness :
  let a := exampleBox "a" 0 0 50 50 1 in
  let s := handleSelectTool (commitElements (initialState exampleRect) [a])
             highlighter in
  exists el,
    elements (handleMouseDown unaryId s (leftButtonAt 10 10))
    = elements s ++ [el]
    /\ zIndex el = 0%Z.
Proof.
  intros a s.
  destruct (drawing_zIndex unaryId s (leftButtonAt 10 10)) as [H _];
    [discriminate | reflexivity | reflexivity |].
  destruct (H eq_refl) as (el & Hel & Hz & _).
  exists el. split; assumption.
Defined.

(** ** Zoom *)

Local Open Scope Q_scope.

Lemma Qmin_Qmax_bounds (lo hi v : Q) :
  lo <= hi -> lo <= Qmin (Qmax lo v) hi <= hi.
Proof.
  intros H. split.
  - apply Q.min_glb; [apply Q.le_max_l | assumption].
  - apply Q.le_min_r.
Qed.

(** Over the rationals the offset [m - w * ns], with [w] the world
    coordinate [(m - o) / sc] of the screen coordinate [m], is the
    solution of the anchoring equation: [m] has the world coordinate [w]
    under the new scale too.  In binary64 every operation rounds, and the
    equation holds up to that rounding only. *)
Lemma anchor_fixed (m o sc ns : Q) :
  ~ sc == 0 -> ~ ns == 0 ->
  (m - (m - (m - o) / sc * ns)) / ns == (m - o) / sc.
Proof. intros Hsc Hns. field. split; assumption. Qed.




(** ** Normalisation of drawings *)

Lemma Qmin_cases (a b : Q) : Qmin a b = a \/ Qmin a b = b.
Proof.
  unfold Qmin, GenericMinMax.gmin. destruct (a ?= b); auto.
Qed.

Lemma Qmax_cases (a b : Q) : Qmax a b = a \/ Qmax a b = b.
Proof.
  unfold Qmax, GenericMinMax.gmax. destruct (a ?= b); auto.
Qed.

Lemma min_list_lower (xs : list Q) (x0 : Q) :
  Js.min_list x0 xs <= x0
  /\ forall v, In v xs -> Js.min_list x0 xs <= v.
Proof.
  unfold Js.min_list. revert x0.
  induction xs as [|a xs IH]; intros x0; cbn [fold_left].
  - split; [apply Qle_refl | intros v []].
  - destruct (IH (Qmin x0 a)) as [H0 Hin]. split.
    + eapply Qle_trans; [exact H0 | apply Q.le_min_l].
    + intros v [<- | Hv]; [|now apply Hin].
      eapply Qle_trans; [exact H0 | apply Q.le_min_r].
Qed.

Lemma max_list_upper (xs : list Q) (x0 : Q) :
  x0 <= Js.max_list x0 xs
  /\ forall v, In v xs -> v <= Js.max_list x0 xs.
Proof.
  unfold Js.max_list. revert x0.
  induction xs as [|a xs IH]; intros x0; cbn [fold_left].
  - split; [apply Qle_refl | intros v []].
  - destruct (IH (Qmax x0 a)) as [H0 Hin]. split.
    + eapply Qle_trans; [apply Q.le_max_l | exact H0].
    + intros v [<- | Hv]; [|now apply Hin].
      eapply Qle_trans; [apply Q.le_max_r | exact H0].
Qed.

Lemma min_list_attained (xs : list Q) (x0 : Q) :
  In (Js.min_list x0 xs) (x0 :: xs).
Proof.
  unfold Js.min_list. revert x0.
  induction xs as [|a xs IH]; intros x0; cbn [fold_left].
  - now left.
  - destruct (IH (Qmin x0 a)) as [H | H].
    + rewrite <- H. destruct (Qmin_cases x0 a) as [-> | ->];
        [now left | right; now left].
    + right. now right.
Qed.

Lemma max_list_attained (xs : list Q) (x0 : Q) :
  In (Js.max_list x0 xs) (x0 :: xs).
Proof.
  unfold Js.max_list. revert x0.
  induction xs as [|a xs IH]; intros x0; cbn [fold_left].
  - now left.
  - destruct (IH (Qmax x0 a)) as [H | H].
    + rewrite <- H. destruct (Qmax_cases x0 a) as [-> | ->];
        [now left | right; now left].
    + right. now right.
Qed.

(** C5, counterexample.  The statement that the normalised width is the
    span of the points plus the padding on both sides fails on a stroke of
    one point: the span is 0 and the width is 20. *)
Lemma normalizeDrawing_width_counterexample :
  let el := exampleStroke "a" [mkPoint 10 10] in
  let span := 10 - 10 in
  width (normalizeDrawing el) = Some 20
  /\ ~ (exists w, width (normalizeDrawing el) = Some w /\ w == span + 2 * 5).
Proof.
  split; [reflexivity|].
  intros (w & Hw & E). vm_compute in Hw. injection Hw as <-. discriminate E.
Qed.

(** C5 (amended).  For an element with a non-empty point list,
    [normalizeDrawing] takes the tight bounding box of the points (every
    point lies in it and each side is attained), sets [x] and [y] to its
    lower corner minus 5, sets [width] and [height] to the larger of 20 and
    the span plus twice 5 (so to the span plus 10 when the span is at least
    10), rewrites each point as its offset from the lower corner plus 5 and
    keeps the other fields; on pointer-up of a stroke the last element of
    the store is replaced by its normalisation and committed.  For the
    points (10,10), (50,10), (50,50) the result has x = 5, y = 5,
    width = 50, height = 50 and first point (5,5). *)
Theorem normalizeDrawing_spec :
  forall (el : BoardElement) (p : Point) (ps : list Point),
    points el = Some (p :: ps) ->
    let pts := p :: ps in
    let minX := Js.min_list (px p) (map px ps) in
    let minY := Js.min_list (py p) (map py ps) in
    let maxX := Js.max_list (px p) (map px ps) in
    let maxY := Js.max_list (py p) (map py ps) in
    let n := normalizeDrawing el in
    (forall q, In q pts ->
               minX <= px q <= maxX /\ minY <= py q <= maxY)
    /\ In minX (map px pts) /\ In maxX (map px pts)
    /\ In minY (map py pts) /\ In maxY (map py pts)
    /\ x n = minX - 5 /\ y n = minY - 5
    /\ width n = Some (Qmax 20 (maxX - minX + 5 * 2))
    /\ height n = Some (Qmax 20 (maxY - minY + 5 * 2))
    /\ (10 <= maxX - minX ->
        Qmax 20 (maxX - minX + 5 * 2) == maxX - minX + 2 * 5)
    /\ (10 <= maxY - minY ->
        Qmax 20 (maxY - minY + 5 * 2) == maxY - minY + 2 * 5)
    /\ points n
       = Some (map (fun q => mkPoint (px q - minX + 5) (py q - minY + 5))
                 pts)
    /\ (id n = id el /\ type n = type el /\ zIndex n = zIndex el
        /\ content n = content el /\ color n = color el
        /\ fillColor n = fillColor el /\ strokeColor n = strokeColor el
        /\ textColor n = textColor el /\ fontSize n = fontSize el
        /\ strokeWidth n = strokeWidth el /\ rotation n = rotation el)
    /\ (forall s,
           isDrawing s = true ->
           last (map Some (elements s)) None = Some el ->
           exists s',
             handleMouseUp s = Some s'
             /\ elements s' = map_id (id el) (fun _ => n) (elements s)
             /\ history s'
                = firstn (historyStep s + 1) (history s) ++ [elements s'])
    /\ (pts = [mkPoint 10 10; mkPoint 50 10; mkPoint 50 50] ->
        x n = 5 /\ y n = 5 /\ width n = Some 50 /\ height n = Some 50
        /\ option_map (hd (mkPoint 0 0)) (points n) = Some (mkPoint 5 5)).
Proof.
  intros el p ps Hpts pts minX minY maxX maxY n.
  assert (Hn : n = mkElement (id el) (type el) (minX - 5) (minY - 5)
                     (Some (Qmax 20 (maxX - minX + 5 * 2)))
                     (Some (Qmax 20 (maxY - minY + 5 * 2)))
                     (content el) (color el) (fillColor el) (strokeColor el)
                     (textColor el) (fontSize el)
                     (Some (map (fun q => mkPoint (px q - minX + 5)
                                            (py q - minY + 5)) pts))
                     (strokeWidth el) (rotation el) (zIndex el)).
  { unfold n, normalizeDrawing. rewrite Hpts. reflexivity. }
  split.
  { intros q Hq.
    destruct (min_list_lower (map px ps) (px p)) as [Hx0 Hx].
    destruct (max_list_upper (map px ps) (px p)) as [HX0 HX].
    destruct (min_list_lower (map py ps) (py p)) as [Hy0 Hy].
    destruct (max_list_upper (map py ps) (py p)) as [HY0 HY].
    destruct Hq as [<- | Hq]; [now repeat split|].
    repeat split;
      [apply Hx | apply HX | apply Hy | apply HY]; now apply in_map. }
  split; [apply (min_list_attained (map px ps) (px p))|].
  split; [apply (max_list_attained (map px ps) (px p))|].
  split; [apply (min_list_attained (map py ps) (py p))|].
  split; [apply (max_list_attained (map py ps) (py p))|].
  rewrite Hn. cbn [x y width height points id type zIndex content color
                    fillColor strokeColor textColor fontSize strokeWidth
                    rotation].
  split; [reflexivity|]. split; [reflexivity|].
  split; [reflexivity|]. split; [reflexivity|].
  split.
  { intros H. rewrite Q.max_r; [ring | lra]. }
  split.
  { intros H. rewrite Q.max_r; [ring | lra]. }
  split; [reflexivity|].
  split; [repeat split; reflexivity|].
  split.
  { intros s Hd Hlast. unfold handleMouseUp.
    rewrite Hd, Hlast, Hpts. eexists. split; [reflexivity|].
    cbn [elements endGesture set_gesture history historyStep].
    rewrite commitElements_elements, commitElements_history.
    fold n. rewrite Hn.
    split; reflexivity. }
  intros E. unfold pts in E. injection E as -> ->.
  subst minX minY maxX maxY. repeat split; reflexivity.
Qed.

(** The stroke of the example, normalised. *)
Lemma normalizeDrawing_spec_witness :
  let el := exampleStroke "a" [mkPoint 10 10; mkPoint 50 10; mkPoint 50 50] in
  x (normalizeDrawing el) = 5 /\ y (normalizeDrawing el) = 5
  /\ width (normalizeDrawing el) = Some 50
  /\ height (normalizeDrawing el) = Some 50
  /\ option_map (hd (mkPoint 0 0)) (points (normalizeDrawing el))
     = Some (mkPoint 5 5).
Proof.
  intros el.
  apply (normalizeDrawing_spec el (mkPoint 10 10)
           [mkPoint 50 10; mkPoint 50 50] eq_refl).
  reflexivity.
Defined.

(** ** Resize *)

Lemma Js_ltb_true (a b : Q) : Js.ltb a b = true <-> a < b.
Proof.
  unfold Js.ltb. rewrite negb_true_iff, <- not_true_iff_false, Qle_bool_iff.
  split; [apply Qnot_le_lt | apply Qlt_not_le].
Qed.

Lemma Js_ltb_false (a b : Q) : Js.ltb a b = false <-> b <= a.
Proof.
  unfold Js.ltb. rewrite negb_false_iff. apply Qle_bool_iff.
Qed.







(** ** Alignment *)

Lemma growBounds_fold (l : list BoardElement) (a b c d : Q) :
  fold_left growBounds l
    (mkBounds (Js.Fin a) (Js.Fin b) (Js.Fin c) (Js.Fin d))
  = mkBounds (Js.Fin (Js.min_list a (map x l)))
      (Js.Fin (Js.max_list b (map rightEdge l)))
      (Js.Fin (Js.min_list c (map y l)))
      (Js.Fin (Js.max_list d (map bottomEdge l))).
Proof.
  revert a b c d. induction l as [|el l IH]; intros a b c d.
  - reflexivity.
  - cbn [fold_left map]. unfold growBounds at 2.
    cbn [minX maxX minY maxY Js.ext_min Js.ext_max]. rewrite IH.
    reflexivity.
Qed.

(** With two or more selected elements the bounds are those of the union
    of their boxes. *)
Lemma alignBounds_multi (s : AppState) (e1 e2 : BoardElement)
  (rest : list BoardElement) :
  alignBounds s (e1 :: e2 :: rest)
  = mkBounds (Js.Fin (Js.min_list (x e1) (map x (e2 :: rest))))
      (Js.Fin (Js.max_list (rightEdge e1) (map rightEdge (e2 :: rest))))
      (Js.Fin (Js.min_list (y e1) (map y (e2 :: rest))))
      (Js.Fin (Js.max_list (bottomEdge e1) (map bottomEdge (e2 :: rest)))).
Proof.
  unfold alignBounds.
  change (List.length (e1 :: e2 :: rest) =? 1)%nat with false. cbv iota.
  change (fold_left growBounds (e1 :: e2 :: rest) ?b)
    with (fold_left growBounds (e2 :: rest) (growBounds b e1)).
  unfold growBounds at 2.
  cbn [minX maxX minY maxY Js.ext_min Js.ext_max].
  apply growBounds_fold.
Qed.

Lemma selectedElements_nil (s : AppState) :
  selectedIds s = [] -> selectedElements s = [].
Proof.
  unfold selectedElements. intros ->.
  induction (elements s) as [|el l IH]; [reflexivity | exact IH].
Qed.

(** C7, counterexample.  After an alignment to the right the right edges
    of the selected elements are not always the maximum right edge of
    their union.  Two elements, [x = 0.1] with width 0.2 and [x = 0.7]
    with width 0.1, are selected: the maximum right edge is
    0.7999999999999999, the first element gets [x = 0.5999999999999999],
    and its right edge is then 0.7999999999999998. *)
Lemma align_right_edge_counterexample :
  let sel := [Double.mkExtent 0.1 0.2; Double.mkExtent 0.7 0.1]%float in
  let maxX := Double.boundsMaxX sel in
  exists el' rest,
    Double.alignRight sel = el' :: rest
    /\ maxX = 0.7999999999999999%float
    /\ Double.e_x el' = 0.5999999999999999%float
    /\ (Double.e_x el' + Double.or_zero (Double.e_width el'))%float
       = 0.7999999999999998%float
    /\ PrimFloat.eqb
         (Double.e_x el' + Double.or_zero (Double.e_width el'))%float maxX
       = false.
Proof. do 2 eexists. vm_compute. repeat split. Qed.

(** C7 (amended).  With more than one selected element in the store,
    [handleAlign] computes the union bounding box of the selected elements
    (every selected element lies inside it and each side is attained by
    one of them), repositions the selected elements from it and commits
    the result once.  An element that is not selected is unchanged; a
    selected element changes in [x] and [y] only: [right] sets [x] to
    [maxX - width] and keeps [y]; [left] sets [x] to [minX]; [center] sets
    [x] to [centerX - width / 2] with [centerX = (minX + maxX) / 2];
    [top], [bottom] and [middle] do the same on [y] and keep [x].  That
    the right edges are then equal to [maxX] is not stated: [x] plus the
    width is [maxX] up to rounding only. *)
Theorem handleAlign_multi :
  forall (s : AppState) (t : AlignType),
    (1 < List.length (selectedElements s))%nat ->
    exists (bminX bmaxX bminY bmaxY : Q) (s' : AppState),
      (forall el, In el (selectedElements s) ->
                  bminX <= x el /\ rightEdge el <= bmaxX
                  /\ bminY <= y el /\ bottomEdge el <= bmaxY)
      /\ In bminX (map x (selectedElements s))
      /\ In bmaxX (map rightEdge (selectedElements s))
      /\ In bminY (map y (selectedElements s))
      /\ In bmaxY (map bottomEdge (selectedElements s))
      /\ handleAlign s t = Some s'
      /\ history s' = firstn (historyStep s + 1) (history s) ++ [elements s']
      /\ forall k el,
           nth_error (elements s) k = Some el ->
           exists el',
             nth_error (elements s') k = Some el'
             /\ (Js.mem (id el) (selectedIds s) = false -> el' = el)
             /\ (Js.mem (id el) (selectedIds s) = true ->
                 el' = with_xy el (x el') (y el')
                 /\ (t = AlignRight ->
                     x el' = bmaxX - Js.or_else (width el) 0
                     /\ y el' = y el)
                 /\ (t = AlignLeft -> x el' = bminX /\ y el' = y el)
                 /\ (t = AlignCenter ->
                     x el' = (bminX + bmaxX) / 2 - Js.or_else (width el) 0 / 2
                     /\ y el' = y el)
                 /\ (t = AlignBottom ->
                     y el' = bmaxY - Js.or_else (height el) 0
                     /\ x el' = x el)
                 /\ (t = AlignTop -> y el' = bminY /\ x el' = x el)
                 /\ (t = AlignMiddle ->
                     y el'
                     = (bminY + bmaxY) / 2 - Js.or_else (height el) 0 / 2
                     /\ x el' = x el)).
Proof.
  intros s t Hlen.
  destruct (selectedElements s) as [|e1 [|e2 rest]] eqn:Hsel;
    [cbn in Hlen; lia | cbn in Hlen; lia | clear Hlen].
  exists (Js.min_list (x e1) (map x (e2 :: rest))),
    (Js.max_list (rightEdge e1) (map rightEdge (e2 :: rest))),
    (Js.min_list (y e1) (map y (e2 :: rest))),
    (Js.max_list (bottomEdge e1) (map bottomEdge (e2 :: rest))).
  set (a := Js.min_list (x e1) (map x (e2 :: rest))).
  set (b := Js.max_list (rightEdge e1) (map rightEdge (e2 :: rest))).
  set (c := Js.min_list (y e1) (map y (e2 :: rest))).
  set (d := Js.max_list (bottomEdge e1) (map bottomEdge (e2 :: rest))).
  eexists.
  split.
  { intros el Hel.
    destruct (min_list_lower (map x (e2 :: rest)) (x e1)) as [Ha0 Ha].
    destruct (max_list_upper (map rightEdge (e2 :: rest)) (rightEdge e1))
      as [Hb0 Hb].
    destruct (min_list_lower (map y (e2 :: rest)) (y e1)) as [Hc0 Hc].
    destruct (max_list_upper (map bottomEdge (e2 :: rest)) (bottomEdge e1))
      as [Hd0 Hd].
    destruct Hel as [<- | Hel]; [now repeat split|].
    repeat split;
      [apply Ha; now apply in_map | apply Hb; now apply in_map
      | apply Hc; now apply in_map | apply Hd; now apply in_map]. }
  split; [apply (min_list_attained (map x (e2 :: rest)) (x e1))|].
  split; [apply (max_list_attained (map rightEdge (e2 :: rest))
                   (rightEdge e1))|].
  split; [apply (min_list_attained (map y (e2 :: rest)) (y e1))|].
  split; [apply (max_list_attained (map bottomEdge (e2 :: rest))
                   (bottomEdge e1))|].
  assert (Hids : (List.length (selectedIds s) =? 0)%nat = false).
  { destruct (selectedIds s) eqn:E; [|reflexivity].
    rewrite (selectedElements_nil s E) in Hsel. discriminate. }
  split.
  { unfold handleAlign. rewrite Hids.
    change (filter (fun el => Js.mem (id el) (selectedIds s)) (elements s))
      with (selectedElements s).
    rewrite Hsel.
    change (List.length (e1 :: e2 :: rest) =? 0)%nat with false. cbv iota.
    rewrite alignBounds_multi. fold a b c d. reflexivity. }
  rewrite commitElements_history, commitElements_elements.
  split; [reflexivity|].
  intros k el Hk. rewrite nth_error_map, Hk. cbn [option_map].
  eexists. split; [reflexivity|]. unfold alignElement.
  destruct (Js.mem (id el) (selectedIds s)).
  2:{ cbn [negb]. split; [reflexivity | discriminate]. }
  cbn [negb]. split; [discriminate|]. intros _.
  split; [reflexivity|].
  cbn [x y width height with_xy].
  repeat split; subst t; reflexivity.
Qed.

(** The two selected boxes of the alignment example, aligned right. *)
Lemma handleAlign_multi_witness :
  let a := exampleBox "a" 0 0 50 50 1 in
  let b := exampleBox "b" 100 0 30 30 2 in
  exists s',
    handleAlign (boardWith [a; b] ["a"; "b"]%string) AlignRight = Some s'.
Proof.
  intros a b.
  destruct (handleAlign_multi (boardWith [a; b] ["a"; "b"]%string)
              AlignRight)
    as (? & ? & ? & ? & s' & _ & _ & _ & _ & _ & H & _);
    [vm_compute; lia|].
  exists s'. exact H.
Defined.

(** ** Duplicate *)



Lemma duplicatesFrom_ids (uuidv4 : nat -> string) (n : nat)
  (origs : list BoardElement) (k cnt : nat) :
  map id (duplicatesFrom uuidv4 n k cnt origs)
  = map uuidv4 (seq cnt (List.length origs)).
Proof.
  revert k cnt. induction origs as [|el rest IH]; intros k cnt;
    cbn [duplicatesFrom List.length seq map]; [reflexivity|].
  now rewrite IH.
Qed.

(** The [forEach] of [duplicate], in closed form. *)
Lemma duplicateStep_fold (uuidv4 : nat -> string)
  (els : list BoardElement) (n : nat) (tids : list string)
  (dups : list BoardElement) (cnt : nat) :
  fold_left (duplicateStep uuidv4 els n) tids (dups, cnt)
  = (dups ++ duplicatesFrom uuidv4 n (List.length dups) cnt
               (targetsFound els tids),
     (cnt + List.length (targetsFound els tids))%nat).
Proof.
  revert dups cnt. induction tids as [|tid tids IH]; intros dups cnt.
  - cbn. now rewrite app_nil_r, Nat.add_0_r.
  - cbn [fold_left targetsFound flat_map]. unfold duplicateStep at 2.
    fold (targetsFound els tids).
    destruct (find_id tid els) as [el|].
    + rewrite IH. rewrite length_app. cbn [List.length app duplicatesFrom].
      rewrite <- app_assoc. cbn [app].
      rewrite (Nat.add_comm (List.length dups) 1). cbn [Nat.add].
      f_equal. lia.
    + rewrite IH. reflexivity.
Qed.




Lemma unaryId_injective (i j : nat) : unaryId i = unaryId j -> i = j.
Proof.
  revert j. induction i as [|i IH]; intros [|j] H; cbn [unaryId] in H.
  - reflexivity.
  - injection H as H. destruct j; discriminate H.
  - injection H as H. destruct i; discriminate H.
  - injection H as H. f_equal. now apply IH.
Qed.


(** ** Drag-to-create *)



(** C1, at the failing input.  With the rectangle tool on the empty board,
    a pointer-down at (10, 10) followed by a pointer-up without a move
    leaves the zero-size rectangle in the store, still selected, and commits
    it: the history has one entry more and the cursor stands on it. *)
Theorem click_without_drag_kept :
  let s0 := handleSelectTool (initialState exampleRect) rect in
  let s1 := handleMouseDown unaryId s0 (leftButtonAt 10 10) in
  exists s2 el,
    handleMouseUp s1 = Some s2
    /\ elements s2 = [el]
    /\ width el = Some 0 /\ height el = Some 0
    /\ selectedIds s2 = [id el]
    /\ history s0 = [[]] /\ history s2 = [[]; [el]]
    /\ historyStep s2 = 1%nat.
Proof.
  intros s0 s1. do 2 eexists. split; [vm_compute; reflexivity|].
  repeat split.
Qed.

(** The same click when the pointer moves by 3 and 2 before it is released:
    the rectangle, 3 wide and 2 high, is dropped and nothing is
    committed. *)
Lemma small_drag_discarded :
  exists s',
    dragCreate (initialState exampleRect) rect 10 10 13 12 = Some s'
    /\ elements s' = [] /\ selectedIds s' = []
    /\ history s' = [[]] /\ historyStep s' = 0%nat.
Proof.
  eexists. split; [vm_compute; reflexivity|]. repeat split.
Qed.

(** ** The store invariant along a run *)

Local Open Scope nat_scope.

Lemma firstn_In (A : Type) (n : nat) (l : list A) (a : A) :
  In a (firstn n l) -> In a l.
Proof.
  intros H. rewrite <- (firstn_skipn n l). apply in_or_app. now left.
Qed.

Section StoreInvariant.

Variable uuidv4 : nat -> string.

Lemma issued_mono (c c' : nat) (ids : list string) :
  c <= c' -> issued uuidv4 c ids -> issued uuidv4 c' ids.
Proof.
  unfold issued. intros Hc H. eapply Forall_impl; [|exact H].
  intros i (k & Hk & E). exists k. split; [lia | exact E].
Qed.

Lemma issued_incl (c : nat) (ids ids' : list string) :
  incl ids' ids -> issued uuidv4 c ids -> issued uuidv4 c ids'.
Proof.
  unfold issued. rewrite !Forall_forall. intros Hincl H i Hi.
  apply H, Hincl, Hi.
Qed.

Lemma issued_snoc (c : nat) (ids : list string) :
  issued uuidv4 c ids -> issued uuidv4 (S c) (ids ++ [uuidv4 c]).
Proof.
  intros H. apply Forall_app. split.
  - apply issued_mono with c; [lia | exact H].
  - constructor; [|constructor]. exists c. split; [lia | reflexivity].
Qed.

Lemma issued_seq (c n : nat) (ids : list string) :
  issued uuidv4 c ids ->
  issued uuidv4 (c + n) (ids ++ map uuidv4 (seq c n)).
Proof.
  intros H. apply Forall_app. split.
  - apply issued_mono with c; [lia | exact H].
  - apply Forall_forall. intros i Hi. apply in_map_iff in Hi.
    destruct Hi as (k & <- & Hk). apply in_seq in Hk.
    exists k. split; [lia | reflexivity].
Qed.

(** The invariant reads four cells of the state only. *)
Lemma store_inv_tracked (s s' : AppState) :
  history s' = history s -> historyStep s' = historyStep s ->
  elements s' = elements s -> uuidCount s' = uuidCount s ->
  store_inv uuidv4 s -> store_inv uuidv4 s'.
Proof.
  unfold store_inv, history_wf. intros -> -> -> ->. exact (fun H => H).
Qed.

Lemma inv_setElements (s : AppState) (els : list BoardElement) :
  store_inv uuidv4 s -> issued uuidv4 (uuidCount s) (map id els) ->
  store_inv uuidv4 (setElements s els).
Proof.
  unfold store_inv, history_wf. intros (Hwf & _ & Hh) Hels.
  cbn [history historyStep elements uuidCount setElements]. auto.
Qed.

Lemma inv_set_uuidCount (s : AppState) (c : nat) :
  store_inv uuidv4 s -> uuidCount s <= c ->
  store_inv uuidv4 (set_uuidCount s c).
Proof.
  unfold store_inv, history_wf. intros (Hwf & He & Hh) Hc.
  cbn [history historyStep elements uuidCount set_uuidCount].
  split; [exact Hwf|]. split.
  - now apply issued_mono with (uuidCount s).
  - eapply Forall_impl; [|exact Hh]. intros snap.
    now apply issued_mono.
Qed.

Lemma inv_historyEffect (s : AppState) :
  store_inv uuidv4 s -> store_inv uuidv4 (historyEffect s).
Proof.
  intros H. unfold historyEffect.
  destruct (nth_error (history s) (historyStep s)) as [els|] eqn:E;
    [|exact H].
  apply inv_setElements; [exact H|].
  destruct H as (_ & _ & Hh). rewrite Forall_forall in Hh.
  apply Hh. eapply nth_error_In, E.
Qed.

Lemma inv_commitElements (s : AppState) (els : list BoardElement) :
  store_inv uuidv4 s -> issued uuidv4 (uuidCount s) (map id els) ->
  store_inv uuidv4 (commitElements s els).
Proof.
  intros (Hwf & He & Hh) Hels. unfold store_inv.
  rewrite commitElements_history, commitElements_elements,
    commitElements_uuidCount.
  split; [apply commitElements_wf|]. split; [exact Hels|].
  apply Forall_app. split.
  - rewrite Forall_forall in *. intros snap Hsnap.
    apply Hh. eapply firstn_In, Hsnap.
  - constructor; [exact Hels | constructor].
Qed.

Lemma inv_handleUndo (s : AppState) :
  store_inv uuidv4 s -> store_inv uuidv4 (handleUndo s).
Proof.
  intros H. unfold handleUndo.
  destruct (Nat.ltb_spec 0 (historyStep s)); [|exact H].
  apply inv_historyEffect.
  destruct H as (Hwf & He & Hh). unfold store_inv, history_wf in *.
  cbn [history historyStep elements uuidCount set_history].
  split; [lia | auto].
Qed.

Lemma inv_handleRedo (s : AppState) :
  store_inv uuidv4 s -> store_inv uuidv4 (handleRedo s).
Proof.
  intros H. unfold handleRedo.
  destruct (Z.ltb_spec (Z.of_nat (historyStep s))
              (Z.of_nat (List.length (history s)) - 1)); [|exact H].
  apply inv_historyEffect.
  destruct H as (Hwf & He & Hh). unfold store_inv, history_wf in *.
  cbn [history historyStep elements uuidCount set_history].
  split; [lia | auto].
Qed.

(** Maps that keep the id of every element keep the ids of the store. *)
Lemma map_keeps_ids (f : BoardElement -> BoardElement)
  (els : list BoardElement) :
  (forall el, id (f el) = id el) -> map id (map f els) = map id els.
Proof.
  intros Hf. rewrite map_map. apply map_ext. exact Hf.
Qed.

Lemma map_id_keeps_ids (i : string) (f : BoardElement -> BoardElement)
  (els : list BoardElement) :
  (forall el, id el = i -> id (f el) = i) ->
  map id (map_id i f els) = map id els.
Proof.
  intros Hf. unfold map_id. rewrite map_map. apply map_ext. intros el.
  destruct (String.eqb_spec (id el) i) as [E|E]; [|reflexivity].
  rewrite Hf by exact E. now rewrite E.
Qed.

Lemma filter_ids_incl (p : BoardElement -> bool) (els : list BoardElement) :
  incl (map id (filter p els)) (map id els).
Proof.
  intros i Hi. apply in_map_iff in Hi. destruct Hi as (el & <- & Hel).
  apply filter_In in Hel. apply in_map. tauto.
Qed.

Lemma insertByZ_In (a el : BoardElement) (l : list BoardElement) :
  In a (insertByZ el l) -> a = el \/ In a l.
Proof.
  induction l as [|h tl IH]; cbn [insertByZ].
  - intros [<- | []]. now left.
  - destruct (zIndex el <=? zIndex h)%Z.
    + intros [<- | H]; [now left | now right].
    + intros [<- | H]; [right; now left|].
      destruct (IH H) as [-> | H']; [now left | right; now right].
Qed.

Lemma sortByZ_ids_incl (els : list BoardElement) :
  incl (map id (sortByZ els)) (map id els).
Proof.
  intros i Hi. apply in_map_iff in Hi. destruct Hi as (a & <- & Ha).
  apply in_map. induction els as [|el els IH]; [destruct Ha|].
  cbn [sortByZ fold_right] in Ha. apply insertByZ_In in Ha.
  destruct Ha as [-> | Ha]; [now left | right; now apply IH].
Qed.

(** A handler that leaves the snapshots, the cursor and the identifier
    count alone and keeps the ids of the store. *)
Lemma inv_same_ids (s s' : AppState) :
  store_inv uuidv4 s ->
  history s' = history s -> historyStep s' = historyStep s ->
  uuidCount s' = uuidCount s ->
  incl (map id (elements s')) (map id (elements s)) ->
  store_inv uuidv4 s'.
Proof.
  unfold store_inv, history_wf. intros (Hwf & He & Hh) -> -> -> Hincl.
  split; [exact Hwf|]. split; [|exact Hh].
  eapply issued_incl; [exact Hincl | exact He].
Qed.

(** A handler that appends one element with the next identifier. *)
Lemma inv_append_new (s s' : AppState) :
  store_inv uuidv4 s ->
  history s' = history s -> historyStep s' = historyStep s ->
  uuidCount s' = S (uuidCount s) ->
  map id (elements s') = map id (elements s) ++ [uuidv4 (uuidCount s)] ->
  store_inv uuidv4 s'.
Proof.
  unfold store_inv, history_wf. intros (Hwf & He & Hh) -> -> -> ->.
  split; [exact Hwf|]. split; [now apply issued_snoc|].
  eapply Forall_impl; [|exact Hh]. intros snap.
  apply issued_mono. lia.
Qed.

(** Closes the goals on states that differ from [s] in untracked cells. *)
Ltac untracked H :=
  first [ exact H
        | refine (store_inv_tracked _ _ _ _ _ _ H); reflexivity ].

Lemma inv_handleMouseDown (s : AppState) (e : MouseEvent) :
  store_inv uuidv4 s -> store_inv uuidv4 (handleMouseDown uuidv4 s e).
Proof.
  intros H. unfold handleMouseDown.
  destruct (button e =? 2)%Z; [exact H|].
  destruct (contextMenuOpen s);
    (destruct (isResizing (resizeInfo s) || isRotating (rotateInfo s));
     [untracked H|]);
    (destruct (ToolType_eqb (activeTool s) select && onBackground e);
     [untracked H|]);
    (destruct (isDrawingMode s);
     [refine (inv_append_new _ _ H _ _ _ _);
      [reflexivity | reflexivity | reflexivity
      | cbn [elements setElements]; now rewrite map_app]|]);
    (destruct (negb (ToolType_eqb (activeTool s) select));
     [refine (inv_append_new _ _ H _ _ _ _);
      [reflexivity | reflexivity | reflexivity
      | cbn [elements setElements setSelectedIds]; now rewrite map_app]|]);
    destruct (onBackground e); untracked H.
Qed.

Lemma inv_handleMouseMove (sqrt : Q -> Q) (atan2deg : Q -> Q -> Q)
  (s s' : AppState) (e : MouseEvent) :
  store_inv uuidv4 s -> handleMouseMove sqrt atan2deg s e = Some s' ->
  store_inv uuidv4 s'.
Proof.
  intros H. unfold handleMouseMove.
  assert (Hmap : forall i f,
             (forall el, id el = i -> id (f el) = i) ->
             store_inv uuidv4 (setElements s (map_id i f (elements s)))).
  { intros i f Hf. refine (inv_same_ids _ _ H _ _ _ _); try reflexivity.
    cbn [elements setElements]. rewrite map_id_keeps_ids by exact Hf.
    apply incl_refl. }
  destruct (isPanning s).
  { intros E. injection E as <-. untracked H. }
  destruct (isRotating (rotateInfo s)), (selectedIds s) as [|sid [|? ?]];
    try (intros E; injection E as <-; apply Hmap; intros el E;
         exact E);
    (destruct (isResizing (resizeInfo s));
     try (intros E; injection E as <-; apply Hmap; intros el E;
          exact E));
    (destruct (creationStart s);
     try (intros E; injection E as <-; apply Hmap; intros el E;
          unfold createGeometry;
          destruct (ElementType_is (type el) line
                    || ElementType_is (type el) arrow); exact E));
    (destruct (isDrawing s);
     [destruct (last (map Some (elements s)) None) as [lastEl|];
      [|discriminate];
      destruct (points lastEl);
      intros E; injection E as <-;
      [apply Hmap; intros el E; exact E | exact H]|]);
    (destruct (isDragging (dragInfo s)
               && (0 <? List.length (initialPositions (dragInfo s))));
     intros E; injection E as <-; [|exact H]);
    (refine (inv_same_ids _ _ H _ _ _ _); try reflexivity;
     cbn [elements setElements];
     rewrite map_keeps_ids;
     [apply incl_refl
     | intros el;
       destruct (find _ (initialPositions (dragInfo s))); reflexivity]).
Qed.

Lemma normalizeDrawing_id (el : BoardElement) :
  id (normalizeDrawing el) = id el.
Proof.
  unfold normalizeDrawing. destruct (points el) as [[|p ps]|]; reflexivity.
Qed.

Lemma inv_handleMouseUp (s s' : AppState) :
  store_inv uuidv4 s -> handleMouseUp s = Some s' -> store_inv uuidv4 s'.
Proof.
  intros H. unfold handleMouseUp.
  assert (Hcommit : store_inv uuidv4
                      (endGesture (commitElements s (elements s)))).
  { refine (store_inv_tracked _ _ _ _ _ _
              (inv_commitElements _ _ H _)); try reflexivity.
    now destruct H as (_ & He & _). }
  destruct (isDrawing s).
  - destruct (last (map Some (elements s)) None) as [lastEl|];
      [|discriminate].
    destruct (points lastEl); intros E; injection E as <-; [|untracked H].
    refine (store_inv_tracked _ _ _ _ _ _
              (inv_commitElements _ _ H _)); try reflexivity.
    rewrite map_id_keeps_ids by (intros el E; now rewrite normalizeDrawing_id).
    now destruct H as (_ & He & _).
  - destruct (creationStart s), (selectedIds s) as [|sid [|? ?]];
      try (destruct (isDragging (dragInfo s) || isResizing (resizeInfo s)
                     || isRotating (rotateInfo s));
           intros E; injection E as <-; [exact Hcommit | untracked H]).
    destruct (isDegenerate (find_id sid (elements s)));
      intros E; injection E as <-; [|exact Hcommit].
    refine (inv_same_ids _ _ H _ _ _ _); try reflexivity.
    cbn [elements endGesture set_gesture setSelectedIds setElements].
    apply filter_ids_incl.
Qed.

Lemma inv_handleAlign (s s' : AppState) (t : AlignType) :
  store_inv uuidv4 s -> handleAlign s t = Some s' -> store_inv uuidv4 s'.
Proof.
  intros H. unfold handleAlign.
  destruct (List.length (selectedIds s) =? 0);
    [intros E; injection E as <-; exact H|].
  destruct (List.length (filter _ (elements s)) =? 0);
    [intros E; injection E as <-; exact H|].
  destruct (alignBounds s _) as [[|a|] [|b|] [|c|] [|d|]];
    try discriminate.
  intros E. injection E as <-. apply inv_commitElements; [exact H|].
  rewrite map_keeps_ids; [now destruct H as (_ & He & _)|].
  intros el. unfold alignElement.
  destruct (negb (Js.mem (id el) (selectedIds s))); reflexivity.
Qed.

Lemma closure_inv_mono (c c' : nat) (h : list (list BoardElement))
  (k : nat) :
  c <= c' -> closure_inv uuidv4 c h k -> closure_inv uuidv4 c' h k.
Proof.
  intros Hc [Hk Hh]. split; [exact Hk|].
  eapply Forall_impl; [|exact Hh]. intros snap. now apply issued_mono.
Qed.

(** The history and the cursor of a state that satisfies the invariant
    can be held by a callback. *)
Lemma store_inv_closure (s : AppState) :
  store_inv uuidv4 s ->
  closure_inv uuidv4 (uuidCount s) (history s) (historyStep s).
Proof. intros (Hwf & _ & Hh). split; assumption. Qed.

Lemma inv_handlePaste (s : AppState) (h : list (list BoardElement))
  (k : nat) (clip : option string) :
  store_inv uuidv4 s -> closure_inv uuidv4 (uuidCount s) h k ->
  store_inv uuidv4 (handlePaste uuidv4 s h k clip).
Proof.
  intros H Hc. unfold handlePaste. destruct clip as [txt|]; [|exact H].
  destruct (String.eqb txt ""); [exact H|].
  pose proof H as (_ & He & _).
  apply (closure_inv_mono _ (S (uuidCount s))) in Hc; [|lia].
  destruct Hc as [Hk Hh].
  apply inv_commitElements.
  - unfold store_inv, history_wf.
    cbn [history historyStep elements uuidCount set_history set_uuidCount].
    split; [exact Hk|]. split; [|exact Hh].
    apply issued_mono with (uuidCount s); [lia | exact He].
  - cbn [uuidCount set_history set_uuidCount]. rewrite map_app.
    now apply issued_snoc.
Qed.

Lemma inv_pasteListener (s : AppState) (els : list BoardElement)
  (txt : option string) :
  store_inv uuidv4 s -> store_inv uuidv4 (pasteListener uuidv4 s els txt).
Proof.
  intros H. unfold pasteListener.
  destruct (isCommandPaletteOpen s); [exact H|].
  destruct txt as [t|]; [|exact H].
  destruct (String.eqb t ""); [exact H|].
  refine (inv_append_new _ _ H _ _ _ _); try reflexivity.
  cbn [elements setElements]. now rewrite map_app.
Qed.

Lemma inv_handleContextMenuAction (s s' : AppState) (a : Action)
  (elementId clip : option string) :
  store_inv uuidv4 s ->
  (forall h k, a = APaste h k -> closure_inv uuidv4 (uuidCount s) h k) ->
  handleContextMenuAction uuidv4 s a elementId clip = Some s' ->
  store_inv uuidv4 s'.
Proof.
  intros H Hclo. pose proof H as (_ & He & _).
  unfold handleContextMenuAction. destruct a.
  - intros E. injection E as <-. apply inv_commitElements.
    + untracked H.
    + eapply issued_incl; [apply filter_ids_incl | exact He].
  - rewrite duplicateStep_fold. intros E. injection E as <-.
    apply inv_commitElements.
    + refine (store_inv_tracked _ _ _ _ _ _
                (inv_set_uuidCount _ _ H (Nat.le_add_r _ _)));
        reflexivity.
    + cbn [uuidCount setSelectedIds set_uuidCount app].
      rewrite map_app, duplicatesFrom_ids. now apply issued_seq.
  - intros E. injection E as <-. apply inv_commitElements; [exact H|].
    eapply issued_incl; [apply sortByZ_ids_incl|].
    rewrite map_keeps_ids; [exact He|].
    intros el. destruct (Js.mem (id el) _); reflexivity.
  - intros E. injection E as <-. apply inv_commitElements; [exact H|].
    eapply issued_incl; [apply sortByZ_ids_incl|].
    rewrite map_keeps_ids; [exact He|].
    intros el. destruct (Js.mem (id el) _); reflexivity.
  - intros E. injection E as <-. apply inv_handlePaste; [exact H|].
    now apply Hclo.
  - now apply inv_handleAlign.
  - intros E. injection E as <-. now apply inv_commitElements.
Qed.

Lemma inv_handleResizeStart (s : AppState) (e : MouseEvent) (d : string) :
  store_inv uuidv4 s -> store_inv uuidv4 (handleResizeStart s e d).
Proof.
  intros H. unfold handleResizeStart.
  destruct (selectedIds s) as [|sid [|? ?]]; try exact H.
  destruct (find_id sid (elements s)) as [el|]; [|exact H].
  destruct (Js.truthy (width el) && Js.truthy (height el)); untracked H.
Qed.

Lemma inv_dispatch (sqrt : Q -> Q) (atan2deg : Q -> Q -> Q)
  (s s' : AppState) (ev : Event) :
  store_inv uuidv4 s ->
  (forall h k, pasteClosure (Pointer ev) = Some (h, k) ->
               closure_inv uuidv4 (uuidCount s) h k) ->
  dispatch uuidv4 sqrt atan2deg s ev = Some s' ->
  store_inv uuidv4 s'.
Proof.
  intros H Hclo. destruct ev; cbn [dispatch];
    try (intros E; injection E as <-).
  - now apply inv_handleMouseDown.
  - now apply inv_handleMouseMove.
  - now apply inv_handleMouseUp.
  - unfold handleWheel. destruct (containerRect s); untracked H.
  - unfold handleSelectTool. destruct (_ && _); untracked H.
  - now apply inv_handleResizeStart.
  - intros E. eapply inv_handleContextMenuAction; [exact H| |exact E].
    intros h k ->. now apply Hclo.
  - now apply inv_handleAlign.
  - now apply inv_pasteListener.
  - refine (inv_same_ids _ _ H _ _ _ _); try reflexivity.
    cbn [elements handleContentChange setElements].
    rewrite map_id_keeps_ids by (intros el E; exact E). apply incl_refl.
  - now apply inv_handleUndo.
  - now apply inv_handleRedo.
Qed.

Lemma store_inv_ids_issued (s : AppState) :
  store_inv uuidv4 s -> ids_issued uuidv4 s.
Proof.
  intros (_ & He & _) el Hel. unfold issued in He.
  rewrite Forall_forall in He. apply He. now apply in_map.
Qed.

End StoreInvariant.

(** ** The scale along a run *)

Local Open Scope Q_scope.

Lemma historyEffect_viewTransform (s : AppState) :
  viewTransform (historyEffect s) = viewTransform s.
Proof. unfold historyEffect. now destruct (nth_error _ _). Qed.

Lemma commitElements_viewTransform (s : AppState)
  (c : list BoardElement) :
  viewTransform (commitElements s c) = viewTransform s.
Proof. unfold commitElements. now rewrite historyEffect_viewTransform. Qed.

(** Splits the goal along the tests of a handler and reads the view of the
    resulting state. *)
Ltac view_cases :=
  repeat match goal with
    | |- context [match ?c with _ => _ end] => destruct c
    end;
  try discriminate;
  try (intros E; injection E as <-);
  cbn [viewTransform endGesture set_gesture setSelectedIds setElements
       set_uuidCount setContextMenuOpen set_history scale];
  rewrite ?commitElements_viewTransform, ?historyEffect_viewTransform;
  try reflexivity.

Lemma handleAlign_scale (s s' : AppState) (t : AlignType) :
  handleAlign s t = Some s' ->
  scale (viewTransform s') = scale (viewTransform s).
Proof. unfold handleAlign. view_cases. Qed.

Lemma dispatch_scale (uuidv4 : nat -> string) (sqrt : Q -> Q)
  (atan2deg : Q -> Q -> Q) (s s' : AppState) (ev : Event) :
  dispatch uuidv4 sqrt atan2deg s ev = Some s' ->
  scale (viewTransform s') = scale (viewTransform s)
  \/ (1 # 10) <= scale (viewTransform s') <= 5.
Proof.
  destruct ev; cbn [dispatch]; intros E.
  - injection E as <-. left. unfold handleMouseDown. view_cases.
  - left. revert E. unfold handleMouseMove. view_cases.
  - left. revert E. unfold handleMouseUp. view_cases.
  - injection E as <-. unfold handleWheel.
    destruct (containerRect s); [right | now left].
    cbn [viewTransform setViewTransform scale].
    apply Qmin_Qmax_bounds. discriminate.
  - injection E as <-. left. unfold handleSelectTool. view_cases.
  - injection E as <-. left. unfold handleResizeStart. view_cases.
  - left. revert E. destruct a; cbn [handleContextMenuAction];
      try (now apply handleAlign_scale).
    + view_cases.
    + rewrite duplicateStep_fold. view_cases.
    + view_cases.
    + view_cases.
    + unfold handlePaste. view_cases.
    + view_cases.
  - left. exact (handleAlign_scale _ _ _ E).
  - injection E as <-. left. unfold pasteListener. view_cases.
  - injection E as <-. left. unfold handleContentChange. view_cases.
  - injection E as <-. left. unfold handleUndo. view_cases.
  - injection E as <-. left. unfold handleRedo. view_cases.
Qed.

(** The scale of every state of a run lies in [0.1, 5]: the divisions by
    the scale in the coordinate helpers are never by zero. *)
Lemma reachable_scale (uuidv4 : nat -> string) (sqrt : Q -> Q)
  (atan2deg : Q -> Q -> Q) (box : option DOMRect) (s : AppState) :
  reachable uuidv4 sqrt atan2deg box s ->
  (1 # 10) <= scale (viewTransform s) <= 5.
Proof.
  induction 1 as [|s s' ev _ IH Hstep].
  - cbn. split; discriminate.
  - destruct (dispatch_scale _ _ _ _ _ _ Hstep) as [E | Hb];
      [rewrite E; exact IH | exact Hb].
Qed.

(** * Properties of the rest of the component *)

(** ** The store invariant for all commands *)

Local Open Scope nat_scope.

(** Closes an invariant goal on a state that differs from [s] in cells the
    invariant does not read. *)
Ltac same_store H :=
  first [ exact H
        | refine (store_inv_tracked _ _ _ _ _ _ _ H); reflexivity ].

Lemma applyUpdates_id (u : Updates) (el : BoardElement) :
  u_id u = None -> id (applyUpdates u el) = id el.
Proof. intros E. unfold applyUpdates. cbn [id]. now rewrite E. Qed.

Lemma inv_handleElementUpdate (uuidv4 : nat -> string) (s : AppState)
  (i : option string) (u : Updates) :
  u_id u = None ->
  store_inv uuidv4 s -> store_inv uuidv4 (handleElementUpdate s i u).
Proof.
  intros Hu H. unfold handleElementUpdate.
  destruct i as [i'|]; [|exact H].
  destruct (String.eqb i' ""); [exact H|].
  apply inv_commitElements; [exact H|].
  rewrite map_id_keeps_ids.
  - now destruct H as (_ & He & _).
  - intros el E. now rewrite applyUpdates_id.
Qed.

Lemma inv_handleKeyDown (uuidv4 : nat -> string) (s : AppState)
  (e : KeyboardEvent) (a : bool) :
  store_inv uuidv4 s -> store_inv uuidv4 (handleKeyDown s e a).
Proof.
  intros H. unfold handleKeyDown.
  destruct ((ctrlKey e || metaKey e)
            && String.eqb (toLowerCase (key e)) "k"); [same_store H|].
  destruct (isCommandPaletteOpen s); [exact H|].
  destruct ((ctrlKey e || metaKey e) && String.eqb (key e) "z"
            && negb (key_shiftKey e)); [now apply inv_handleUndo|].
  destruct (((ctrlKey e || metaKey e) && String.eqb (key e) "y")
            || ((ctrlKey e || metaKey e) && key_shiftKey e
                && String.eqb (key e) "z")); [now apply inv_handleRedo|].
  destruct a; [exact H|].
  unfold keySwitch, handleSelectTool.
  repeat match goal with
    | |- context [if ?c then _ else _] => destruct c
    end; try same_store H.
  refine (store_inv_tracked _ _ _ _ _ _ _
            (inv_commitElements _ _ _ H _)); try reflexivity.
  eapply issued_incl; [apply filter_ids_incl|].
  now destruct H as (_ & He & _).
Qed.

Lemma inv_execute (uuidv4 : nat -> string) (sqrt : Q -> Q)
  (atan2deg : Q -> Q -> Q) (s s' : AppState) (c : Command) :
  store_inv uuidv4 s ->
  (forall h k, pasteClosure c = Some (h, k) ->
               closure_inv uuidv4 (uuidCount s) h k) ->
  execute uuidv4 sqrt atan2deg s c = Some s' ->
  store_inv uuidv4 s'.
Proof.
  intros H Hclo. pose proof H as (_ & He & _).
  destruct c; cbn [execute]; try (intros E; injection E as <-).
  - now apply inv_dispatch.
  - unfold handleElementSelect, handleContextMenu.
    repeat match goal with
      | |- context [if ?c then _ else _] => destruct c
      end; same_store H.
  - unfold handleContextMenu. destruct (isDrawingMode s); same_store H.
  - unfold handleRotateStart.
    destruct (selectedIds s) as [|sid [|? ?]]; try exact H.
    destruct (find_id sid (elements s)) as [el|]; [|exact H].
    destruct (Js.truthy (width el) && Js.truthy (height el)); same_store H.
  - apply inv_commitElements; [exact H|].
    rewrite map_keeps_ids; [exact He|].
    intros el. destruct (Js.mem (id el) (selectedIds s)); [|reflexivity].
    destruct (ElementType_is (type el) text); reflexivity.
  - unfold handleFontSizeChange.
    destruct (selectedElement s) as [el|]; [|exact H].
    destruct (negb (Js.truthy (fontSize el))); [exact H|].
    now apply inv_handleElementUpdate.
  - unfold handleTextColorChange.
    destruct (selectedElement s) as [el|]; [|exact H].
    now apply inv_handleElementUpdate.
  - unfold handleStrokeColorChange.
    destruct (selectedElement s) as [el|]; [|exact H].
    now apply inv_handleElementUpdate.
  - unfold handleFillColorChange.
    destruct (selectedElement s) as [el|]; [|exact H].
    now apply inv_handleElementUpdate.
  - unfold handleConfigChange. destruct forPen; same_store H.
  - unfold handleClearCanvas. destruct confirmed; [|exact H].
    refine (store_inv_tracked _ _ _ _ _ _ _
              (inv_commitElements _ _ _ H _)); try reflexivity.
    constructor.
  - unfold handleUploadImage. destruct dataUrl as [d|]; [|exact H].
    destruct (String.eqb d ""); [exact H|].
    refine (store_inv_tracked _ _ _ _ _ _ _
              (inv_commitElements _ _ _
                 (inv_set_uuidCount _ _ (S (uuidCount s)) H
                    (Nat.le_succ_diag_r _)) _)); try reflexivity.
    cbn [uuidCount set_uuidCount]. rewrite map_app.
    now apply issued_snoc.
  - now apply inv_handleKeyDown.
  - unfold handleZoomToFit.
    repeat match goal with
      | |- context [match ?c with _ => _ end] => destruct c
      end; try discriminate; intros E; injection E as <-; same_store H.
Qed.

(** ** Unique ids *)

Lemma uniq_tracked (s s' : AppState) :
  history s' = history s -> elements s' = elements s ->
  unique_ids s -> unique_ids s'.
Proof. unfold unique_ids. intros -> ->. exact (fun H => H). Qed.

Lemma uniq_setElements (s : AppState) (els : list BoardElement) :
  unique_ids s -> NoDup (map id els) -> unique_ids (setElements s els).
Proof. unfold unique_ids. intros (_ & Hh) Hels. split; assumption. Qed.

Lemma uniq_historyEffect (s : AppState) :
  unique_ids s -> unique_ids (historyEffect s).
Proof.
  intros H. unfold historyEffect.
  destruct (nth_error (history s) (historyStep s)) as [els|] eqn:E;
    [|exact H].
  apply uniq_setElements; [exact H|].
  destruct H as (_ & Hh). rewrite Forall_forall in Hh.
  apply Hh. eapply nth_error_In, E.
Qed.

Lemma uniq_commitElements (s : AppState) (els : list BoardElement) :
  unique_ids s -> NoDup (map id els) -> unique_ids (commitElements s els).
Proof.
  intros (_ & Hh) Hels. unfold unique_ids.
  rewrite commitElements_history, commitElements_elements.
  split; [exact Hels|]. apply Forall_app. split.
  - rewrite Forall_forall in *. intros snap Hsnap.
    apply Hh. eapply firstn_In, Hsnap.
  - constructor; [exact Hels | constructor].
Qed.

Lemma uniq_handleUndo (s : AppState) :
  unique_ids s -> unique_ids (handleUndo s).
Proof.
  intros H. unfold handleUndo.
  destruct (0 <? historyStep s); [|exact H].
  apply uniq_historyEffect. exact H.
Qed.

Lemma uniq_handleRedo (s : AppState) :
  unique_ids s -> unique_ids (handleRedo s).
Proof.
  intros H. unfold handleRedo.
  destruct (_ <? _)%Z; [|exact H].
  apply uniq_historyEffect. exact H.
Qed.

(** Removing elements from a store with unique ids keeps the ids unique. *)
Lemma filter_ids_NoDup (keep : BoardElement -> bool)
  (els : list BoardElement) :
  NoDup (map id els) -> NoDup (map id (filter keep els)).
Proof.
  intros Hnd. induction els as [|a els IH]; [constructor|].
  cbn [map] in Hnd. inversion Hnd as [|? ? Hnotin Hrest]; subst.
  cbn [filter]. destruct (keep a); [|now apply IH].
  cbn [map]. constructor; [|now apply IH].
  intros Hin. apply Hnotin. now apply (filter_ids_incl keep els).
Qed.

Lemma insertByZ_perm (el : BoardElement) (l : list BoardElement) :
  Permutation (insertByZ el l) (el :: l).
Proof.
  induction l as [|h tl IH]; cbn [insertByZ]; [reflexivity|].
  destruct (zIndex el <=? zIndex h)%Z; [reflexivity|].
  rewrite IH. apply perm_swap.
Qed.

Lemma sortByZ_perm (l : list BoardElement) : Permutation (sortByZ l) l.
Proof.
  induction l as [|el l IH]; [reflexivity|].
  cbn [sortByZ fold_right]. fold (sortByZ l).
  rewrite insertByZ_perm. now constructor.
Qed.

Lemma NoDup_fresh_ids (uuidv4 : nat -> string) (cnt n : nat)
  (ids : list string) :
  (forall i j, uuidv4 i = uuidv4 j -> i = j) ->
  issued uuidv4 cnt ids -> NoDup ids ->
  NoDup (ids ++ map uuidv4 (seq cnt n)).
Proof.
  intros Hinj Hiss Hnd. apply NoDup_app; [exact Hnd| |].
  - apply Injective_map_NoDup; [exact Hinj | apply seq_NoDup].
  - intros i Hi Hnew. unfold issued in Hiss. rewrite Forall_forall in Hiss.
    destruct (Hiss i Hi) as (k & Hk & ->).
    apply in_map_iff in Hnew. destruct Hnew as (m & E & Hm).
    apply in_seq in Hm. apply Hinj in E. lia.
Qed.

Section UniqueIds.

Variable uuidv4 : nat -> string.
Hypothesis uuidv4_injective : forall i j, uuidv4 i = uuidv4 j -> i = j.

Lemma uniq_elements (s s' : AppState) :
  history s' = history s -> NoDup (map id (elements s')) ->
  unique_ids s -> unique_ids s'.
Proof. unfold unique_ids. intros -> Hnd (_ & Hh). split; assumption. Qed.

Lemma NoDup_snoc_fresh (s : AppState) (el : BoardElement) :
  store_inv uuidv4 s -> unique_ids s -> id el = uuidv4 (uuidCount s) ->
  NoDup (map id (elements s ++ [el])).
Proof.
  intros (_ & He & _) (Hnd & _) E. rewrite map_app. cbn [map]. rewrite E.
  exact (NoDup_fresh_ids uuidv4 (uuidCount s) 1 _ uuidv4_injective He Hnd).
Qed.

Ltac same_ids H :=
  first [ exact H
        | refine (uniq_tracked _ _ _ _ H); reflexivity ].

Lemma uniq_handleMouseDown (s : AppState) (e : MouseEvent) :
  store_inv uuidv4 s -> unique_ids s ->
  unique_ids (handleMouseDown uuidv4 s e).
Proof.
  intros Hinv H. unfold handleMouseDown.
  destruct (button e =? 2)%Z; [exact H|].
  destruct (contextMenuOpen s);
    (destruct (isResizing (resizeInfo s) || isRotating (rotateInfo s));
     [same_ids H|]);
    (destruct (ToolType_eqb (activeTool s) select && onBackground e);
     [same_ids H|]);
    (destruct (isDrawingMode s);
     [refine (uniq_elements _ _ _ _ H);
      [reflexivity | now apply NoDup_snoc_fresh]|]);
    (destruct (negb (ToolType_eqb (activeTool s) select));
     [refine (uniq_elements _ _ _ _ H);
      [reflexivity | now apply NoDup_snoc_fresh]|]);
    destruct (onBackground e); same_ids H.
Qed.

Lemma uniq_handleMouseMove (sqrt : Q -> Q) (atan2deg : Q -> Q -> Q)
  (s s' : AppState) (e : MouseEvent) :
  unique_ids s -> handleMouseMove sqrt atan2deg s e = Some s' ->
  unique_ids s'.
Proof.
  intros H. unfold handleMouseMove.
  assert (Hmap : forall i f,
             (forall el, id el = i -> id (f el) = i) ->
             unique_ids (setElements s (map_id i f (elements s)))).
  { intros i f Hf. apply uniq_setElements; [exact H|].
    rewrite map_id_keeps_ids by exact Hf. now destruct H. }
  destruct (isPanning s).
  { intros E. injection E as <-. same_ids H. }
  destruct (isRotating (rotateInfo s)), (selectedIds s) as [|sid [|? ?]];
    try (intros E; injection E as <-; apply Hmap; intros el E;
         exact E);
    (destruct (isResizing (resizeInfo s));
     try (intros E; injection E as <-; apply Hmap; intros el E;
          exact E));
    (destruct (creationStart s);
     try (intros E; injection E as <-; apply Hmap; intros el E;
          unfold createGeometry;
          destruct (ElementType_is (type el) line
                    || ElementType_is (type el) arrow); exact E));
    (destruct (isDrawing s);
     [destruct (last (map Some (elements s)) None) as [lastEl|];
      [|discriminate];
      destruct (points lastEl);
      intros E; injection E as <-;
      [apply Hmap; intros el E; exact E | exact H]|]);
    (destruct (isDragging (dragInfo s)
               && (0 <? List.length (initialPositions (dragInfo s))));
     intros E; injection E as <-; [|exact H]);
    (apply uniq_setElements; [exact H|];
     rewrite map_keeps_ids;
     [now destruct H
     | intros el;
       destruct (find _ (initialPositions (dragInfo s))); reflexivity]).
Qed.

Lemma uniq_handleMouseUp (s s' : AppState) :
  unique_ids s -> handleMouseUp s = Some s' -> unique_ids s'.
Proof.
  intros H. pose proof H as (Hnd & _). unfold handleMouseUp.
  assert (Hcommit : unique_ids (endGesture (commitElements s (elements s)))).
  { refine (uniq_tracked _ _ _ _ (uniq_commitElements _ _ H Hnd));
      reflexivity. }
  destruct (isDrawing s).
  - destruct (last (map Some (elements s)) None) as [lastEl|];
      [|discriminate].
    destruct (points lastEl); intros E; injection E as <-; [|same_ids H].
    refine (uniq_tracked _ _ _ _ (uniq_commitElements _ _ H _));
      try reflexivity.
    rewrite map_id_keeps_ids
      by (intros el E; now rewrite normalizeDrawing_id).
    exact Hnd.
  - destruct (creationStart s), (selectedIds s) as [|sid [|? ?]];
      try (destruct (isDragging (dragInfo s) || isResizing (resizeInfo s)
                     || isRotating (rotateInfo s));
           intros E; injection E as <-; [exact Hcommit | same_ids H]).
    destruct (isDegenerate (find_id sid (elements s)));
      intros E; injection E as <-; [|exact Hcommit].
    refine (uniq_elements _ _ _ _ H); [reflexivity|].
    cbn [elements endGesture set_gesture setSelectedIds setElements].
    now apply filter_ids_NoDup.
Qed.

Lemma uniq_handleAlign (s s' : AppState) (t : AlignType) :
  unique_ids s -> handleAlign s t = Some s' -> unique_ids s'.
Proof.
  intros H. pose proof H as (Hnd & _). unfold handleAlign.
  destruct (List.length (selectedIds s) =? 0);
    [intros E; injection E as <-; exact H|].
  destruct (List.length (filter _ (elements s)) =? 0);
    [intros E; injection E as <-; exact H|].
  destruct (alignBounds s _) as [[|a|] [|b|] [|c|] [|d|]];
    try discriminate.
  intros E. injection E as <-. apply uniq_commitElements; [exact H|].
  rewrite map_keeps_ids; [exact Hnd|].
  intros el. unfold alignElement.
  destruct (negb (Js.mem (id el) (selectedIds s))); reflexivity.
Qed.

Lemma uniq_handlePaste (s : AppState) (h : list (list BoardElement))
  (k : nat) (clip : option string) :
  store_inv uuidv4 s -> unique_ids s ->
  Forall (fun snap => NoDup (map id snap)) h ->
  unique_ids (handlePaste uuidv4 s h k clip).
Proof.
  intros Hinv H Hh. unfold handlePaste. destruct clip as [txt|]; [|exact H].
  destruct (String.eqb txt ""); [exact H|].
  apply uniq_commitElements.
  - destruct H as [Hnd _]. split; [exact Hnd | exact Hh].
  - now apply NoDup_snoc_fresh.
Qed.

Lemma uniq_zmap (s : AppState) (targets : list string) (z : Z) :
  unique_ids s ->
  NoDup (map id (sortByZ
                   (map (fun el => if Js.mem (id el) targets
                                   then with_zIndex el z else el)
                      (elements s)))).
Proof.
  intros (Hnd & _).
  eapply Permutation_NoDup;
    [apply Permutation_map; symmetry; apply sortByZ_perm|].
  rewrite map_keeps_ids; [exact Hnd|].
  intros el. destruct (Js.mem (id el) targets); reflexivity.
Qed.

Lemma uniq_handleContextMenuAction (s s' : AppState) (a : Action)
  (elementId clip : option string) :
  store_inv uuidv4 s -> unique_ids s ->
  (forall h k, a = APaste h k ->
               Forall (fun snap => NoDup (map id snap)) h) ->
  handleContextMenuAction uuidv4 s a elementId clip = Some s' ->
  unique_ids s'.
Proof.
  intros Hinv H Hclo. pose proof H as (Hnd & _).
  pose proof Hinv as (_ & He & _).
  unfold handleContextMenuAction. destruct a.
  - intros E. injection E as <-. apply uniq_commitElements; [same_ids H|].
    now apply filter_ids_NoDup.
  - rewrite duplicateStep_fold. intros E. injection E as <-.
    apply uniq_commitElements; [same_ids H|].
    cbn [app]. rewrite map_app, duplicatesFrom_ids.
    now apply NoDup_fresh_ids.
  - intros E. injection E as <-. apply uniq_commitElements; [exact H|].
    now apply uniq_zmap.
  - intros E. injection E as <-. apply uniq_commitElements; [exact H|].
    now apply uniq_zmap.
  - intros E. injection E as <-. apply uniq_handlePaste; try assumption.
    now apply (Hclo closureHistory closureStep).
  - now apply uniq_handleAlign.
  - intros E. injection E as <-. now apply uniq_commitElements.
Qed.

Lemma uniq_dispatch (sqrt : Q -> Q) (atan2deg : Q -> Q -> Q)
  (s s' : AppState) (ev : Event) :
  store_inv uuidv4 s -> unique_ids s ->
  (forall h k, pasteClosure (Pointer ev) = Some (h, k) ->
               Forall (fun snap => NoDup (map id snap)) h) ->
  dispatch uuidv4 sqrt atan2deg s ev = Some s' -> unique_ids s'.
Proof.
  intros Hinv H Hclo. pose proof H as (Hnd & _).
  destruct ev; cbn [dispatch]; try (intros E; injection E as <-).
  - now apply uniq_handleMouseDown.
  - now apply uniq_handleMouseMove.
  - now apply uniq_handleMouseUp.
  - unfold handleWheel. destruct (containerRect s); same_ids H.
  - unfold handleSelectTool. destruct (_ && _); same_ids H.
  - unfold handleResizeStart.
    destruct (selectedIds s) as [|sid [|? ?]]; try exact H.
    destruct (find_id sid (elements s)) as [el|]; [|exact H].
    destruct (Js.truthy (width el) && Js.truthy (height el)); same_ids H.
  - intros E. eapply uniq_handleContextMenuAction; [exact Hinv|exact H| |exact E].
    intros h k ->. now apply (Hclo h k).
  - now apply uniq_handleAlign.
  - unfold pasteListener.
    destruct (isCommandPaletteOpen s); [exact H|].
    destruct txt as [t|]; [|exact H].
    destruct (String.eqb t ""); [exact H|].
    refine (uniq_elements _ _ _ _ H); [reflexivity|].
    now apply NoDup_snoc_fresh.
  - apply uniq_setElements; [exact H|].
    rewrite map_id_keeps_ids by (intros el E; exact E). exact Hnd.
  - now apply uniq_handleUndo.
  - now apply uniq_handleRedo.
Qed.

Lemma uniq_handleElementUpdate (s : AppState) (i : option string)
  (u : Updates) :
  u_id u = None -> unique_ids s -> unique_ids (handleElementUpdate s i u).
Proof.
  intros Hu H. unfold handleElementUpdate.
  destruct i as [i'|]; [|exact H].
  destruct (String.eqb i' ""); [exact H|].
  apply uniq_commitElements; [exact H|].
  rewrite map_id_keeps_ids; [now destruct H|].
  intros el E. now rewrite applyUpdates_id.
Qed.

Lemma uniq_handleKeyDown (s : AppState) (e : KeyboardEvent) (a : bool) :
  unique_ids s -> unique_ids (handleKeyDown s e a).
Proof.
  intros H. unfold handleKeyDown.
  destruct ((ctrlKey e || metaKey e)
            && String.eqb (toLowerCase (key e)) "k"); [same_ids H|].
  destruct (isCommandPaletteOpen s); [exact H|].
  destruct ((ctrlKey e || metaKey e) && String.eqb (key e) "z"
            && negb (key_shiftKey e)); [now apply uniq_handleUndo|].
  destruct (((ctrlKey e || metaKey e) && String.eqb (key e) "y")
            || ((ctrlKey e || metaKey e) && key_shiftKey e
                && String.eqb (key e) "z")); [now apply uniq_handleRedo|].
  destruct a; [exact H|].
  unfold keySwitch, handleSelectTool.
  repeat match goal with
    | |- context [if ?c then _ else _] => destruct c
    end; try same_ids H.
  refine (uniq_tracked _ _ _ _ (uniq_commitElements _ _ H _));
    try reflexivity.
  apply filter_ids_NoDup. now destruct H.
Qed.

Lemma uniq_execute (sqrt : Q -> Q) (atan2deg : Q -> Q -> Q)
  (s s' : AppState) (c : Command) :
  store_inv uuidv4 s -> unique_ids s ->
  (forall h k, pasteClosure c = Some (h, k) ->
               Forall (fun snap => NoDup (map id snap)) h) ->
  execute uuidv4 sqrt atan2deg s c = Some s' -> unique_ids s'.
Proof.
  intros Hinv H Hclo. pose proof H as (Hnd & _).
  destruct c; cbn [execute]; try (intros E; injection E as <-).
  - now apply uniq_dispatch.
  - unfold handleElementSelect, handleContextMenu.
    repeat match goal with
      | |- context [if ?c then _ else _] => destruct c
      end; same_ids H.
  - unfold handleContextMenu. destruct (isDrawingMode s); same_ids H.
  - unfold handleRotateStart.
    destruct (selectedIds s) as [|sid [|? ?]]; try exact H.
    destruct (find_id sid (elements s)) as [el|]; [|exact H].
    destruct (Js.truthy (width el) && Js.truthy (height el)); same_ids H.
  - apply uniq_commitElements; [exact H|].
    rewrite map_keeps_ids; [exact Hnd|].
    intros el. destruct (Js.mem (id el) (selectedIds s)); [|reflexivity].
    destruct (ElementType_is (type el) text); reflexivity.
  - unfold handleFontSizeChange.
    destruct (selectedElement s) as [el|]; [|exact H].
    destruct (negb (Js.truthy (fontSize el))); [exact H|].
    now apply uniq_handleElementUpdate.
  - unfold handleTextColorChange.
    destruct (selectedElement s) as [el|]; [|exact H].
    now apply uniq_handleElementUpdate.
  - unfold handleStrokeColorChange.
    destruct (selectedElement s) as [el|]; [|exact H].
    now apply uniq_handleElementUpdate.
  - unfold handleFillColorChange.
    destruct (selectedElement s) as [el|]; [|exact H].
    now apply uniq_handleElementUpdate.
  - unfold handleConfigChange. destruct forPen; same_ids H.
  - unfold handleClearCanvas. destruct confirmed; [|exact H].
    refine (uniq_tracked _ _ _ _ (uniq_commitElements _ _ H _));
      try reflexivity.
    constructor.
  - unfold handleUploadImage. destruct dataUrl as [d|]; [|exact H].
    destruct (String.eqb d ""); [exact H|].
    refine (uniq_tracked _ _ _ _ (uniq_commitElements _ _ _ _));
      [reflexivity | reflexivity | same_ids H |].
    now apply NoDup_snoc_fresh.
  - now apply uniq_handleKeyDown.
  - unfold handleZoomToFit.
    repeat match goal with
      | |- context [match ?c with _ => _ end] => destruct c
      end; try discriminate; intros E; injection E as <-; same_ids H.
Qed.

End UniqueIds.

(** ** The identifier counter along a run *)

Ltac count_cases :=
  repeat match goal with
    | |- context [match ?c with _ => _ end] => destruct c
    end;
  try discriminate;
  try (intros E; injection E as <-);
  cbn [uuidCount endGesture set_gesture setSelectedIds setElements
       set_uuidCount setContextMenuOpen set_history setViewTransform
       setActiveTool setIsCommandPaletteOpen setToolConfigs];
  rewrite ?commitElements_uuidCount, ?historyEffect_uuidCount;
  cbn [uuidCount endGesture set_gesture setSelectedIds setElements
       set_uuidCount setContextMenuOpen set_history setViewTransform
       setActiveTool setIsCommandPaletteOpen setToolConfigs];
  try lia.

Lemma handleAlign_uuidCount (s s' : AppState) (t : AlignType) :
  handleAlign s t = Some s' -> uuidCount s <= uuidCount s'.
Proof. unfold handleAlign. count_cases. Qed.

Lemma handleElementUpdate_uuidCount (s : AppState) (i : option string)
  (u : Updates) :
  uuidCount s <= uuidCount (handleElementUpdate s i u).
Proof. unfold handleElementUpdate. count_cases. Qed.

(** No handler takes an identifier back. *)
Lemma dispatch_uuidCount (uuidv4 : nat -> string) (sqrt : Q -> Q)
  (atan2deg : Q -> Q -> Q) (s s' : AppState) (ev : Event) :
  dispatch uuidv4 sqrt atan2deg s ev = Some s' ->
  uuidCount s <= uuidCount s'.
Proof.
  destruct ev; cbn [dispatch]; intros E.
  - injection E as <-. unfold handleMouseDown. count_cases.
  - revert E. unfold handleMouseMove. count_cases.
  - revert E. unfold handleMouseUp. count_cases.
  - injection E as <-. unfold handleWheel. count_cases.
  - injection E as <-. unfold handleSelectTool. count_cases.
  - injection E as <-. unfold handleResizeStart. count_cases.
  - revert E. destruct a; cbn [handleContextMenuAction];
      try (now apply handleAlign_uuidCount).
    + count_cases.
    + rewrite duplicateStep_fold. count_cases.
    + count_cases.
    + count_cases.
    + unfold handlePaste. count_cases.
    + count_cases.
  - exact (handleAlign_uuidCount _ _ _ E).
  - injection E as <-. unfold pasteListener. count_cases.
  - injection E as <-. unfold handleContentChange. count_cases.
  - injection E as <-. unfold handleUndo. count_cases.
  - injection E as <-. unfold handleRedo. count_cases.
Qed.

Lemma execute_uuidCount (uuidv4 : nat -> string) (sqrt : Q -> Q)
  (atan2deg : Q -> Q -> Q) (s s' : AppState) (c : Command) :
  execute uuidv4 sqrt atan2deg s c = Some s' ->
  uuidCount s <= uuidCount s'.
Proof.
  destruct c; cbn [execute]; intros E.
  - exact (dispatch_uuidCount _ _ _ _ _ _ E).
  - injection E as <-. unfold handleElementSelect, handleContextMenu.
    count_cases.
  - injection E as <-. unfold handleContextMenu. count_cases.
  - injection E as <-. unfold handleRotateStart. count_cases.
  - injection E as <-. unfold handleColorChange. count_cases.
  - injection E as <-. unfold handleFontSizeChange.
    destruct (selectedElement s); [|lia].
    destruct (negb _); [lia | apply handleElementUpdate_uuidCount].
  - injection E as <-. unfold handleTextColorChange.
    destruct (selectedElement s);
      [apply handleElementUpdate_uuidCount | lia].
  - injection E as <-. unfold handleStrokeColorChange.
    destruct (selectedElement s);
      [apply handleElementUpdate_uuidCount | lia].
  - injection E as <-. unfold handleFillColorChange.
    destruct (selectedElement s);
      [apply handleElementUpdate_uuidCount | lia].
  - injection E as <-. unfold handleConfigChange. count_cases.
  - injection E as <-. unfold handleClearCanvas. count_cases.
  - injection E as <-. unfold handleUploadImage. count_cases.
  - injection E as <-. unfold handleKeyDown, keySwitch, handleSelectTool,
      handleUndo, handleRedo. count_cases.
  - revert E. unfold handleZoomToFit. count_cases.
Qed.

(** ** The view along a run *)

Local Open Scope Q_scope.

Lemma historyEffect_containerRect (s : AppState) :
  containerRect (historyEffect s) = containerRect s.
Proof. unfold historyEffect. now destruct (nth_error _ _). Qed.

Lemma commitElements_containerRect (s : AppState)
  (c : list BoardElement) :
  containerRect (commitElements s c) = containerRect s.
Proof. unfold commitElements. now rewrite historyEffect_containerRect. Qed.

(** Splits the goal along the tests of a handler and reads the container
    and the scale of the resulting state. *)
Ltac frame_cases :=
  repeat match goal with
    | |- context [match ?c with _ => _ end] => destruct c eqn:?
    end;
  try discriminate;
  try (intros E; injection E as <-);
  cbn [containerRect viewTransform scale endGesture set_gesture
       setSelectedIds setElements set_uuidCount setContextMenuOpen
       set_history setViewTransform setActiveTool setIsCommandPaletteOpen
       setToolConfigs];
  rewrite ?commitElements_containerRect, ?historyEffect_containerRect,
    ?commitElements_viewTransform, ?historyEffect_viewTransform;
  cbn [containerRect viewTransform scale endGesture set_gesture
       setSelectedIds setElements set_uuidCount setContextMenuOpen
       set_history setViewTransform setActiveTool setIsCommandPaletteOpen
       setToolConfigs];
  try reflexivity; try assumption;
  try (split; [reflexivity || assumption | reflexivity]).

Lemma handleAlign_containerRect (s s' : AppState) (t : AlignType) :
  handleAlign s t = Some s' -> containerRect s' = containerRect s.
Proof. unfold handleAlign. frame_cases. Qed.

Lemma handleElementUpdate_frame (s : AppState) (i : option string)
  (u : Updates) :
  containerRect (handleElementUpdate s i u) = containerRect s
  /\ scale (viewTransform (handleElementUpdate s i u))
     = scale (viewTransform s).
Proof. unfold handleElementUpdate. frame_cases. Qed.

(** No handler replaces the container. *)
Lemma dispatch_containerRect (uuidv4 : nat -> string) (sqrt : Q -> Q)
  (atan2deg : Q -> Q -> Q) (s s' : AppState) (ev : Event) :
  dispatch uuidv4 sqrt atan2deg s ev = Some s' ->
  containerRect s' = containerRect s.
Proof.
  destruct ev; cbn [dispatch]; intros E.
  - injection E as <-. unfold handleMouseDown. frame_cases.
  - revert E. unfold handleMouseMove. frame_cases.
  - revert E. unfold handleMouseUp. frame_cases.
  - injection E as <-. unfold handleWheel.
    now destruct (containerRect s) eqn:Hc.
  - injection E as <-. unfold handleSelectTool. frame_cases.
  - injection E as <-. unfold handleResizeStart. frame_cases.
  - revert E. destruct a; cbn [handleContextMenuAction];
      try (now apply handleAlign_containerRect).
    + frame_cases.
    + rewrite duplicateStep_fold. frame_cases.
    + frame_cases.
    + frame_cases.
    + unfold handlePaste. frame_cases.
    + frame_cases.
  - exact (handleAlign_containerRect _ _ _ E).
  - injection E as <-. unfold pasteListener. frame_cases.
  - injection E as <-. unfold handleContentChange. frame_cases.
  - injection E as <-. unfold handleUndo. frame_cases.
  - injection E as <-. unfold handleRedo. frame_cases.
Qed.

Lemma Qdiv_nonzero (a b : Q) : 0 < a -> ~ b == 0 -> ~ a / b == 0.
Proof.
  intros Ha Hb E.
  assert (H : a == 0).
  { rewrite <- (Qmult_div_r a b Hb). rewrite E. ring. }
  rewrite H in Ha. discriminate Ha.
Qed.

(** A quotient of a positive number is a number or [Infinity]. *)
Lemma Js_div_pos (a b : Q) :
  0 < a ->
  (b == 0 /\ Js.div a b = Some Js.PosInf)
  \/ (~ b == 0 /\ Js.div a b = Some (Js.Fin (a / b))).
Proof.
  intros Ha. unfold Js.div. destruct (Qeq_bool b 0) eqn:Eb.
  - left. apply Qeq_bool_iff in Eb. split; [exact Eb|].
    replace (Qeq_bool a 0) with false.
    2:{ symmetry. apply not_true_is_false. intros F.
        apply Qeq_bool_iff in F. lra. }
    replace (Qle_bool 0 a) with true; [reflexivity|].
    symmetry. apply Qle_bool_iff. lra.
  - right. split; [|reflexivity]. intros F.
    apply Qeq_bool_iff in F. congruence.
Qed.

Lemma Qmin_nonzero (a b : Q) : ~ a == 0 -> ~ b == 0 -> ~ Qmin a b == 0.
Proof. intros Ha Hb. now destruct (Qmin_cases a b) as [-> | ->]. Qed.

(** In a container with an extent, zoom to fit sets a scale that is not
    zero: it is 1.5 or the quotient of an extent of the container. *)
Lemma handleZoomToFit_frame (s s' : AppState) :
  hasExtent (containerRect s) -> ~ scale (viewTransform s) == 0 ->
  handleZoomToFit s = Some s' ->
  containerRect s' = containerRect s /\ ~ scale (viewTransform s') == 0.
Proof.
  intros Hbox Hsc. unfold handleZoomToFit.
  destruct (_ =? _)%nat.
  { intros E. injection E as <-. split; [reflexivity|].
    cbn [viewTransform setViewTransform scale]. discriminate. }
  destruct (fold_left _ _ _) as [e1 e2 e3 e4].
  destruct e1 as [|a|], e2 as [|b|], e3 as [|c|], e4 as [|d|];
    try discriminate.
  destruct (containerRect s) as [box|] eqn:Hc.
  2:{ intros E. injection E as <-. now rewrite Hc. }
  destruct Hbox as [Hw Hh].
  assert (H15 : ~ (3 # 2) == 0) by discriminate.
  destruct (Js_div_pos (rect_width box) (b - a + 100 * 2) Hw)
    as [[Ew ->] | [Ew ->]];
    destruct (Js_div_pos (rect_height box) (d - c + 100 * 2) Hh)
      as [[Eh ->] | [Eh ->]];
    cbn [Js.ext_min2 Js.ext_min]; intros E; injection E as <-;
    (split; [exact Hc|]); cbn [viewTransform setViewTransform scale];
    repeat apply Qmin_nonzero; try exact H15;
    apply Qdiv_nonzero; assumption.
Qed.

(** A command keeps the container, and in a container with an extent it
    keeps the scale away from zero. *)
Lemma execute_frame (uuidv4 : nat -> string) (sqrt : Q -> Q)
  (atan2deg : Q -> Q -> Q) (s s' : AppState) (c : Command) :
  hasExtent (containerRect s) -> ~ scale (viewTransform s) == 0 ->
  execute uuidv4 sqrt atan2deg s c = Some s' ->
  containerRect s' = containerRect s /\ ~ scale (viewTransform s') == 0.
Proof.
  intros Hbox Hsc.
  assert (Hkeep : forall t : AppState,
             containerRect t = containerRect s
             /\ scale (viewTransform t) = scale (viewTransform s) ->
             containerRect t = containerRect s
             /\ ~ scale (viewTransform t) == 0).
  { intros t [Hc Hs]. split; [exact Hc | now rewrite Hs]. }
  destruct c; cbn [execute]; intros E.
  - split; [exact (dispatch_containerRect _ _ _ _ _ _ E)|].
    destruct (dispatch_scale _ _ _ _ _ _ E) as [-> | [Hlo _]];
      [exact Hsc|].
    intros F. rewrite F in Hlo. lra.
  - injection E as <-. apply Hkeep.
    unfold handleElementSelect, handleContextMenu. frame_cases.
  - injection E as <-. apply Hkeep. unfold handleContextMenu. frame_cases.
  - injection E as <-. apply Hkeep. unfold handleRotateStart. frame_cases.
  - injection E as <-. apply Hkeep. unfold handleColorChange. frame_cases.
  - injection E as <-. apply Hkeep. unfold handleFontSizeChange.
    destruct (selectedElement s); [|now split].
    destruct (negb _); [now split | apply handleElementUpdate_frame].
  - injection E as <-. apply Hkeep. unfold handleTextColorChange.
    destruct (selectedElement s);
      [apply handleElementUpdate_frame | now split].
  - injection E as <-. apply Hkeep. unfold handleStrokeColorChange.
    destruct (selectedElement s);
      [apply handleElementUpdate_frame | now split].
  - injection E as <-. apply Hkeep. unfold handleFillColorChange.
    destruct (selectedElement s);
      [apply handleElementUpdate_frame | now split].
  - injection E as <-. apply Hkeep. unfold handleConfigChange. frame_cases.
  - injection E as <-. apply Hkeep. unfold handleClearCanvas. frame_cases.
  - injection E as <-. apply Hkeep. unfold handleUploadImage. frame_cases.
  - injection E as <-. apply Hkeep.
    unfold handleKeyDown, keySwitch, handleSelectTool, handleUndo,
      handleRedo. frame_cases.
  - exact (handleZoomToFit_frame s s' Hbox Hsc E).
Qed.

(** Over the rational reading the scale is not zero in any state of a run
    in a container that has an extent, so that no handler of such a run
    divides by zero. *)
Lemma runCommands_frame (uuidv4 : nat -> string) (sqrt : Q -> Q)
  (atan2deg : Q -> Q -> Q) (cs : list Command) :
  forall (s s' : AppState),
    hasExtent (containerRect s) -> ~ scale (viewTransform s) == 0 ->
    runCommands uuidv4 sqrt atan2deg s cs = Some s' ->
    containerRect s' = containerRect s /\ ~ scale (viewTransform s') == 0.
Proof.
  induction cs as [|c cs IH]; intros s s' Hbox Hsc; cbn [runCommands].
  - intros E. injection E as <-. now split.
  - destruct (execute uuidv4 sqrt atan2deg s c) as [s1|] eqn:E1;
      [|discriminate].
    destruct (execute_frame _ _ _ _ _ _ Hbox Hsc E1) as [Hc1 Hs1].
    intros E. destruct (IH s1 s') as [Hc Hs]; try assumption.
    + now rewrite Hc1.
    + split; [now rewrite Hc, Hc1 | exact Hs].
Qed.

(** ** The invariants along a run *)

Local Open Scope nat_scope.

(** A callback created in a render of the run holds a history that the
    invariants accept. *)
Lemma captured_closure (uuidv4 : nat -> string) (past : list AppState)
  (s : AppState) (c : Command) (h : list (list BoardElement)) (k : nat) :
  Forall (fun t => store_inv uuidv4 t /\ unique_ids t
                   /\ uuidCount t <= uuidCount s) (s :: past) ->
  capturedIn past s c -> pasteClosure c = Some (h, k) ->
  closure_inv uuidv4 (uuidCount s) h k
  /\ Forall (fun snap => NoDup (map id snap)) h.
Proof.
  intros Hall Hcap Hc. unfold capturedIn in Hcap. rewrite Hc in Hcap.
  destruct Hcap as (t & Hin & -> & ->).
  rewrite Forall_forall in Hall. destruct (Hall t Hin) as (Hi & Hu & Hle).
  split.
  - apply closure_inv_mono with (uuidCount t); [exact Hle|].
    now apply store_inv_closure.
  - now destruct Hu.
Qed.

Lemma runCommands_inv (uuidv4 : nat -> string) (sqrt : Q -> Q)
  (atan2deg : Q -> Q -> Q) (cs : list Command) :
  (forall i j, uuidv4 i = uuidv4 j -> i = j) ->
  forall (past : list AppState) (s s' : AppState),
    Forall (fun t => store_inv uuidv4 t /\ unique_ids t
                     /\ uuidCount t <= uuidCount s) (s :: past) ->
    closuresCaptured uuidv4 sqrt atan2deg past s cs ->
    runCommands uuidv4 sqrt atan2deg s cs = Some s' ->
    store_inv uuidv4 s' /\ unique_ids s'.
Proof.
  intros Hinj. induction cs as [|c cs IH]; intros past s s' Hall Hcap;
    cbn [runCommands].
  - intros E. injection E as <-.
    apply Forall_inv in Hall. tauto.
  - cbn [closuresCaptured] in Hcap. destruct Hcap as [Hc Hrest].
    destruct (execute uuidv4 sqrt atan2deg s c) as [s1|] eqn:E1;
      [|discriminate].
    pose proof (Forall_inv Hall) as (H0 & U0 & _).
    assert (H1 : store_inv uuidv4 s1).
    { eapply inv_execute; [exact H0| |exact E1].
      intros h k Hhk.
      now destruct (captured_closure _ _ _ _ _ _ Hall Hc Hhk). }
    assert (U1 : unique_ids s1).
    { eapply (uniq_execute uuidv4 Hinj); [exact H0|exact U0| |exact E1].
      intros h k Hhk.
      now destruct (captured_closure _ _ _ _ _ _ Hall Hc Hhk). }
    pose proof (execute_uuidCount _ _ _ _ _ _ E1) as Hle.
    apply (IH (s :: past) s1 s'); [|exact Hrest].
    constructor; [split; [exact H1 | split; [exact U1 | lia]]|].
    eapply Forall_impl; [|exact Hall].
    intros t (Hi & Hu & Ht). split; [exact Hi | split; [exact Hu | lia]].
Qed.

(** X1.  With a collision-free [uuidv4], along every run of commands from
    the initial state in which every memoised callback holds the history
    of a render of that run: the cursor of the history points at a
    snapshot; every id of the store and of every snapshot was handed out
    by [uuidv4]; and no two elements of the store, or of one snapshot,
    share an id.  This holds also after a paste whose callback holds an
    older history than the current one.  The container, when mounted, has
    a positive width and height: zoom to fit in a container without
    extent sets the scale to zero, and the quotients by the scale are
    then not numbers ([runCommands_frame] shows that the scale is not zero
    otherwise). *)
Theorem runs_keep_ids_unique :
  forall (uuidv4 : nat -> string) (sqrt : Q -> Q) (atan2deg : Q -> Q -> Q)
         (box : option DOMRect) (cs : list Command) (s : AppState),
    (forall i j, uuidv4 i = uuidv4 j -> i = j) ->
    hasExtent box ->
    closuresCaptured uuidv4 sqrt atan2deg [] (initialState box) cs ->
    runCommands uuidv4 sqrt atan2deg (initialState box) cs = Some s ->
    store_inv uuidv4 s /\ unique_ids s.
Proof.
  intros uuidv4 sqrt atan2deg box cs s Hinj _ Hcap Hrun.
  apply (runCommands_inv uuidv4 sqrt atan2deg cs Hinj []
           (initialState box) s); [|exact Hcap|exact Hrun].
  constructor; [|constructor].
  unfold store_inv, unique_ids, history_wf, issued. cbn.
  repeat constructor.
Qed.

(** A rectangle is drawn; the paste from the context menu runs with the
    callback of the last pointer move, which holds the history of before
    the pointer-up; the board is then duplicated, undone and zoomed. *)
Lemma runs_keep_ids_unique_witness :
  exists s,
    runCommands unaryId (fun q => q) (fun _ _ => 0%Q)
      (initialState exampleRect)
      [Pointer (SelectTool rect);
       Pointer (MouseDown (leftButtonAt 10 10));
       Pointer (MouseMove (leftButtonAt 60 60));
       Pointer MouseUp;
       Pointer (ContextMenuAction (APaste [[]] 0) None
                  (Some "note"%string));
       Pointer (ContextMenuAction ADuplicate (Some (unaryId 0)) None);
       KeyDown (mkKeyboardEvent "z" true false false) false;
       ZoomToFit]
    = Some s
    /\ store_inv unaryId s /\ unique_ids s.
Proof.
  eexists. split; [vm_compute; reflexivity|].
  apply (runs_keep_ids_unique unaryId (fun q => q) (fun _ _ => 0%Q)
           exampleRect
           [Pointer (SelectTool rect);
            Pointer (MouseDown (leftButtonAt 10 10));
            Pointer (MouseMove (leftButtonAt 60 60));
            Pointer MouseUp;
            Pointer (ContextMenuAction (APaste [[]] 0) None
                       (Some "note"%string));
            Pointer (ContextMenuAction ADuplicate (Some (unaryId 0)) None);
            KeyDown (mkKeyboardEvent "z" true false false) false;
            ZoomToFit]).
  - exact unaryId_injective.
  - split; reflexivity.
  - vm_compute.
    repeat (split; [exact I|]).
    split; [|repeat split].
    exists (initialState exampleRect).
    split; [|split; reflexivity].
    do 4 right. left. reflexivity.
  - vm_compute. reflexivity.
Defined.

(** ** Commits, undo and redo from any board *)

(** A state that shares its snapshots and cursor with a synced state [s]
    and is then committed: undo shows the store of [s], redo the committed
    collection. *)
Lemma commit_undo_redo (s s' : AppState) (c : list BoardElement) :
  history_wf s -> synced s ->
  history s' = history s -> historyStep s' = historyStep s ->
  forall s1,
    history s1 = history (commitElements s' c) ->
    historyStep s1 = historyStep (commitElements s' c) ->
    elements (handleUndo s1) = elements s
    /\ elements (handleRedo (handleUndo s1)) = c.
Proof.
  unfold history_wf, synced. intros Hwf Hsync Hh Hs s1 H1 S1.
  rewrite commitElements_step, commitElements_history, Hh, Hs in S1.
  rewrite commitElements_history, Hh, Hs in H1.
  assert (Hlen : List.length (firstn (historyStep s + 1) (history s))
                 = historyStep s + 1)
    by (rewrite length_firstn; lia).
  rewrite length_app, Hlen in S1. cbn [List.length] in S1.
  assert (S1' : historyStep s1 = historyStep s + 1) by lia.
  assert (Hundo : elements (handleUndo s1) = elements s).
  { assert (Hwf1 : history_wf s1)
      by (unfold history_wf; rewrite H1, S1', length_app, Hlen;
          cbn [List.length]; lia).
    rewrite handleUndo_elements by (assumption || lia).
    rewrite H1, S1'. replace (historyStep s + 1 - 1) with (historyStep s)
      by lia.
    rewrite app_nth1 by lia.
    apply nth_error_nth. rewrite nth_error_firstn.
    destruct (Nat.ltb_spec (historyStep s) (historyStep s + 1)); [|lia].
    exact Hsync. }
  split; [exact Hundo|].
  rewrite handleRedo_elements.
  - rewrite handleUndo_history, handleUndo_step, H1, S1'.
    replace (historyStep s + 1 - 1 + 1) with (historyStep s + 1) by lia.
    rewrite app_nth2 by lia. rewrite Hlen, Nat.sub_diag. reflexivity.
  - rewrite handleUndo_history, handleUndo_step, H1, S1', length_app, Hlen.
    cbn [List.length]. lia.
Qed.

(** An undo followed by a redo from a state that shares its snapshots and
    cursor with a synced state shows the store of that state. *)
Lemma undo_redo_resets (s s1 : AppState) :
  history_wf s -> synced s -> 0 < historyStep s ->
  history s1 = history s -> historyStep s1 = historyStep s ->
  elements (handleRedo (handleUndo s1)) = elements s.
Proof.
  unfold history_wf, synced. intros Hwf Hsync Hpos H1 S1.
  rewrite handleRedo_elements;
    rewrite handleUndo_history, handleUndo_step, H1, S1; [|lia].
  replace (historyStep s - 1 + 1) with (historyStep s) by lia.
  now apply nth_error_nth.
Qed.

(** X2.  Clearing the canvas does nothing when the confirmation is
    declined.  When it is accepted the store and the selection are empty
    and one snapshot, the empty board, is pushed after the cursor; on a
    board that showed the snapshot under the cursor, undo brings the whole
    board back and redo clears it again. *)
Theorem handleClearCanvas_undoable :
  forall s : AppState,
    history_wf s -> synced s ->
    handleClearCanvas s false = s
    /\ elements (handleClearCanvas s true) = []
    /\ selectedIds (handleClearCanvas s true) = []
    /\ history (handleClearCanvas s true)
       = firstn (historyStep s + 1) (history s) ++ [[]]
    /\ elements (handleUndo (handleClearCanvas s true)) = elements s
    /\ elements (handleRedo (handleUndo (handleClearCanvas s true))) = [].
Proof.
  intros s Hwf Hsync. unfold handleClearCanvas.
  cbn [elements selectedIds history setSelectedIds].
  rewrite commitElements_elements, commitElements_history.
  repeat (split; [reflexivity|]).
  apply (commit_undo_redo s s [] Hwf Hsync eq_refl eq_refl); reflexivity.
Qed.

Lemma handleClearCanvas_undoable_witness :
  let a := exampleBox "a" 0 0 50 50 1 in
  let b := exampleBox "b" 100 0 30 30 2 in
  let s := boardWith [a; b] ["a"%string] in
  elements (handleClearCanvas s true) = []
  /\ elements (handleUndo (handleClearCanvas s true)) = [a; b].
Proof.
  intros a b s.
  destruct (handleClearCanvas_undoable s) as (_ & H1 & _ & _ & H2 & _);
    [vm_compute; lia | reflexivity |].
  split; [exact H1 | exact H2].
Defined.

(** X3.  A change of the store that is not committed does not survive the
    history: on a board that showed the snapshot under a positive cursor,
    a text edit ([handleContentChange]) or a paste through the window
    listener, followed by undo and then redo, leaves the store as it was
    before the change. *)
Theorem uncommitted_change_lost :
  forall (uuidv4 : nat -> string) (s : AppState) (i newContent : string)
         (closureElements : list BoardElement) (txt : option string),
    history_wf s -> synced s -> 0 < historyStep s ->
    elements (handleRedo (handleUndo (handleContentChange s i newContent)))
    = elements s
    /\ elements (handleRedo
                   (handleUndo (pasteListener uuidv4 s closureElements txt)))
       = elements s.
Proof.
  intros uuidv4 s i newContent closureElements txt Hwf Hsync Hpos. split.
  - now apply undo_redo_resets.
  - apply undo_redo_resets; try assumption;
      unfold pasteListener;
      destruct (isCommandPaletteOpen s), txt as [t|];
      try reflexivity; destruct (String.eqb t ""); reflexivity.
Qed.

Lemma uncommitted_change_lost_witness :
  let a := exampleBox "a" 0 0 50 50 1 in
  let s := boardWith [with_content a "old"] [] in
  content (hd a (elements (handleContentChange s "a" "new"))) = Some "new"%string
  /\ elements (handleRedo (handleUndo (handleContentChange s "a" "new")))
     = [with_content a "old"].
Proof.
  intros a s. split; [reflexivity|].
  apply (uncommitted_change_lost unaryId s "a" "new" [] None);
    [vm_compute; lia | reflexivity | vm_compute; lia].
Defined.

(** ** Keyboard *)

Lemma Js_mem_In (i : string) (ids : list string) :
  Js.mem i ids = true <-> In i ids.
Proof.
  unfold Js.mem. rewrite existsb_exists. split.
  - intros (j & Hj & E). apply String.eqb_eq in E. now subst.
  - intros H. exists i. split; [exact H | apply String.eqb_refl].
Qed.

(** X4.  With the palette closed, no text input focused and no modifier,
    the Delete and Backspace keys do nothing when nothing is selected, not
    even a commit.  Otherwise they remove from the store exactly the
    elements whose id is selected, keep the others in their order, clear
    the selection and push one snapshot; on a board that showed the
    snapshot under the cursor, undo brings the removed elements back. *)
Theorem keyboard_delete :
  forall (s : AppState) (k : string) (shift : bool),
    k = "Delete"%string \/ k = "Backspace"%string ->
    isCommandPaletteOpen s = false ->
    let s' := handleKeyDown s (mkKeyboardEvent k false false shift) false in
    (selectedIds s = [] -> s' = s)
    /\ (selectedIds s <> [] ->
        elements s'
        = filter (fun el => negb (Js.mem (id el) (selectedIds s)))
            (elements s)
        /\ (forall el, In el (elements s') <->
                       In el (elements s) /\ ~ In (id el) (selectedIds s))
        /\ selectedIds s' = []
        /\ history s'
           = firstn (historyStep s + 1) (history s) ++ [elements s']
        /\ (history_wf s -> synced s ->
            elements (handleUndo s') = elements s)).
Proof.
  intros s k shift Hk Hopen s'.
  assert (Hs' : s' = keySwitch s "delete" \/ s' = keySwitch s "backspace").
  { unfold s', handleKeyDown.
    cbn [ctrlKey metaKey key key_shiftKey orb andb].
    rewrite Hopen. destruct Hk as [-> | ->]; [left | right]; reflexivity. }
  assert (Hsw : s' = if (0 <? List.length (selectedIds s))
                     then setSelectedIds
                            (commitElements s
                               (filter (fun el =>
                                          negb (Js.mem (id el)
                                                  (selectedIds s)))
                                  (elements s))) []
                     else s)
    by (destruct Hs' as [-> | ->]; reflexivity).
  clearbody s'. subst s'. split.
  - intros ->. reflexivity.
  - intros Hne. destruct (selectedIds s) as [|i0 ids] eqn:Hsel;
      [contradiction|].
    cbn [List.length Nat.ltb Nat.leb elements selectedIds history
         setSelectedIds].
    rewrite commitElements_elements, commitElements_history.
    split; [reflexivity|]. split.
    { intros el. rewrite filter_In, negb_true_iff, <- not_true_iff_false,
        Js_mem_In. reflexivity. }
    split; [reflexivity|]. split; [reflexivity|].
    intros Hwf Hsync.
    match goal with
    | |- elements (handleUndo (setSelectedIds (commitElements _ ?c) _)) = _ =>
        destruct (commit_undo_redo s s c Hwf Hsync eq_refl eq_refl
                    (setSelectedIds (commitElements s c) [])
                    eq_refl eq_refl) as [H _]; exact H
    end.
Qed.

Lemma keyboard_delete_witness :
  let a := exampleBox "a" 0 0 50 50 1 in
  let b := exampleBox "b" 100 0 30 30 2 in
  let s := boardWith [a; b] ["a"%string] in
  let s' := handleKeyDown s (mkKeyboardEvent "Delete" false false false)
              false in
  elements s' = [b] /\ elements (handleUndo s') = [a; b].
Proof.
  intros a b s s'.
  destruct (keyboard_delete s "Delete" false) as [_ H];
    [now left | reflexivity |].
  destruct H as (H1 & _ & _ & _ & H2); [discriminate|].
  split; [exact H1 | apply H2; [vm_compute; lia | reflexivity]].
Defined.



(** ** Selection *)

Lemma clickSelection_toggle (selected : list string) (i j : string) :
  (In i (clickSelection selected true i) <-> ~ In i selected)
  /\ (j <> i ->
      (In j (clickSelection selected true i) <-> In j selected)).
Proof.
  unfold clickSelection. destruct (Js.mem i selected) eqn:E.
  - apply Js_mem_In in E. split.
    + rewrite filter_In, negb_true_iff, String.eqb_refl. split.
      * intros [_ F]. discriminate F.
      * intros N. contradiction.
    + intros Hj. rewrite filter_In, negb_true_iff.
      split; [tauto|]. intros H. split; [exact H|].
      now apply String.eqb_neq.
  - assert (N : ~ In i selected)
      by (rewrite <- Js_mem_In, E; discriminate).
    split.
    + rewrite in_app_iff. cbn [In]. tauto.
    + intros Hj. rewrite in_app_iff. cbn [In]. split; [|tauto].
      intros [H | [H | []]]; [exact H | congruence].
Qed.

(** X6.  A left click on a board item with the select tool never touches
    the store or the history.  Without shift it keeps the selection when
    the item is already selected and otherwise selects the item alone; with
    shift it toggles the item and keeps every other id.  It starts a drag
    that records the position of every selected element of the store.  In a
    drawing mode the click does nothing at all. *)
Theorem handleElementSelect_rules :
  forall (s : AppState) (e : MouseEvent) (i : string),
    (isDrawingMode s = true -> handleElementSelect s e i = s)
    /\ (button e <> 2%Z -> activeTool s = select ->
        let s' := handleElementSelect s e i in
        history s' = history s /\ historyStep s' = historyStep s
        /\ elements s' = elements s
        /\ (shiftKey e = false -> In i (selectedIds s) ->
            selectedIds s' = selectedIds s)
        /\ (shiftKey e = false -> ~ In i (selectedIds s) ->
            selectedIds s' = [i])
        /\ (shiftKey e = true ->
            (In i (selectedIds s') <-> ~ In i (selectedIds s))
            /\ forall j, j <> i ->
                         (In j (selectedIds s') <-> In j (selectedIds s)))
        /\ isDragging (dragInfo s') = true
        /\ initialPositions (dragInfo s')
           = map (fun el => mkInitialPosition (id el) (x el) (y el))
               (filter (fun el => Js.mem (id el) (selectedIds s'))
                  (elements s))).
Proof.
  intros s e i. split.
  - intros Hd. unfold handleElementSelect, handleContextMenu. rewrite Hd.
    cbn [negb]. now destruct (button e =? 2)%Z.
  - intros Hb Htool s'. unfold s', handleElementSelect.
    destruct (Z.eqb_spec (button e) 2); [contradiction|].
    unfold isDrawingMode. rewrite Htool.
    cbn [ToolType_eqb orb history historyStep elements selectedIds dragInfo
         isDragging initialPositions setSelectedIds set_gesture].
    repeat (split; [reflexivity|]).
    split.
    { intros Hs Hin. unfold clickSelection. rewrite Hs.
      apply Js_mem_In in Hin. now rewrite Hin. }
    split.
    { intros Hs Hnin. unfold clickSelection. rewrite Hs.
      destruct (Js.mem i (selectedIds s)) eqn:E; [|reflexivity].
      apply Js_mem_In in E. contradiction. }
    split.
    { intros Hs. rewrite Hs. split.
      - apply (clickSelection_toggle (selectedIds s) i i).
      - intros j. apply clickSelection_toggle. }
    split; reflexivity.
Qed.

Lemma handleElementSelect_rules_witness :
  let a := exampleBox "a" 0 0 50 50 1 in
  let b := exampleBox "b" 100 0 30 30 2 in
  let s := boardWith [a; b] ["a"%string] in
  selectedIds (handleElementSelect s (leftButtonAt 110 10) "b")
  = ["b"%string].
Proof.
  intros a b s.
  destruct (handleElementSelect_rules s (leftButtonAt 110 10) "b")
    as [_ H].
  destruct H as (_ & _ & _ & _ & H & _); [discriminate | reflexivity |].
  apply H; [reflexivity|].
  intros [E | []]. discriminate E.
Defined.

(** ** Dragging *)

Local Open Scope Q_scope.

Lemma find_initialPosition_none (sel : list string)
  (els : list BoardElement) (i : string) :
  ~ In i (map id els) ->
  find (fun p => String.eqb (ip_id p) i)
    (map (fun e => mkInitialPosition (id e) (x e) (y e))
       (filter (fun e => Js.mem (id e) sel) els))
  = None.
Proof.
  induction els as [|a els IH]; intros Hnotin; [reflexivity|].
  cbn [map In] in Hnotin. cbn [filter].
  destruct (Js.mem (id a) sel); [|apply IH; tauto].
  cbn [map find ip_id].
  destruct (String.eqb_spec (id a) i); [tauto | apply IH; tauto].
Qed.

(** In a store with unique ids the position recorded for an element at the
    start of a drag is its own. *)
Lemma find_initialPosition (sel : list string) (els : list BoardElement)
  (el : BoardElement) :
  NoDup (map id els) -> In el els ->
  find (fun p => String.eqb (ip_id p) (id el))
    (map (fun e => mkInitialPosition (id e) (x e) (y e))
       (filter (fun e => Js.mem (id e) sel) els))
  = if Js.mem (id el) sel
    then Some (mkInitialPosition (id el) (x el) (y el)) else None.
Proof.
  induction els as [|a els IH]; intros Hnd Hin; [destruct Hin|].
  cbn [map] in Hnd. inversion Hnd as [|? ? Hnotin Hnd']; subst.
  cbn [filter]. destruct Hin as [-> | Hin].
  - destruct (Js.mem (id el) sel) eqn:E.
    + cbn [map find ip_id]. now rewrite String.eqb_refl.
    + now apply find_initialPosition_none.
  - assert (Hne : id a <> id el).
    { intros E. apply Hnotin. rewrite E. now apply in_map. }
    destruct (Js.mem (id a) sel).
    + cbn [map find ip_id].
      destruct (String.eqb_spec (id a) (id el)); [contradiction|].
      now apply IH.
    + now apply IH.
Qed.

(** X7.  A drag of the selection.  On a board with unique ids and no
    gesture in progress, a left click on an item with the select tool
    followed by a pointer move displaces every selected element by the
    vector from the world point of the click to the world point of the
    move, and leaves the other elements, the order of the store and the
    history untouched; the pointer-up that follows pushes exactly one
    snapshot, the moved store. *)
Theorem drag_moves_selection :
  forall (sqrt : Q -> Q) (atan2deg : Q -> Q -> Q) (s : AppState)
         (e0 e1 : MouseEvent) (i : string),
    NoDup (map id (elements s)) ->
    activeTool s = select -> button e0 <> 2%Z ->
    isPanning s = false -> isDrawing s = false -> creationStart s = None ->
    isResizing (resizeInfo s) = false -> isRotating (rotateInfo s) = false ->
    let s1 := handleElementSelect s e0 i in
    filter (fun el => Js.mem (id el) (selectedIds s1)) (elements s) <> [] ->
    let dx := px (getMousePos s e1) - px (getMousePos s e0) in
    let dy := py (getMousePos s e1) - py (getMousePos s e0) in
    exists s2 s3,
      handleMouseMove sqrt atan2deg s1 e1 = Some s2
      /\ elements s2
         = map (fun el => if Js.mem (id el) (selectedIds s1)
                          then with_xy el (x el + dx) (y el + dy) else el)
             (elements s)
      /\ history s2 = history s /\ historyStep s2 = historyStep s
      /\ handleMouseUp s2 = Some s3
      /\ elements s3 = elements s2
      /\ history s3 = firstn (historyStep s + 1) (history s) ++ [elements s2]
      /\ isDragging (dragInfo s3) = false.
Proof.
  intros sqrt atan2deg s e0 e1 i Hnd Htool Hb Hpan Hdraw Hcre Hres Hrot s1
    Hsel dx dy.
  assert (Hs1 : s1 = setSelectedIds
                       (set_gesture s (isPanning s) (panStart s)
                          (creationStart s)
                          (mkDragInfo true (px (getMousePos s e0))
                             (py (getMousePos s e0))
                             (map (fun el => mkInitialPosition (id el)
                                               (x el) (y el))
                                (filter (fun el =>
                                           Js.mem (id el)
                                             (clickSelection (selectedIds s)
                                                (shiftKey e0) i))
                                   (elements s))))
                          (resizeInfo s) (rotateInfo s) (isDrawing s))
                       (clickSelection (selectedIds s) (shiftKey e0) i)).
  { unfold s1, handleElementSelect.
    destruct (Z.eqb_spec (button e0) 2); [contradiction|].
    unfold isDrawingMode. rewrite Htool. reflexivity. }
  assert (Hsel1 : selectedIds s1
                  = clickSelection (selectedIds s) (shiftKey e0) i)
    by now rewrite Hs1.
  rewrite Hsel1 in *. clearbody s1. subst s1.
  set (sel := clickSelection (selectedIds s) (shiftKey e0) i) in *.
  set (els := filter (fun el => Js.mem (id el) sel) (elements s)) in *.
  assert (Hmove :
    handleMouseMove sqrt atan2deg
      (setSelectedIds
         (set_gesture s (isPanning s) (panStart s) (creationStart s)
            (mkDragInfo true (px (getMousePos s e0)) (py (getMousePos s e0))
               (map (fun el => mkInitialPosition (id el) (x el) (y el)) els))
            (resizeInfo s) (rotateInfo s) (isDrawing s)) sel) e1
    = Some (setElements
              (setSelectedIds
                 (set_gesture s (isPanning s) (panStart s) (creationStart s)
                    (mkDragInfo true (px (getMousePos s e0))
                       (py (getMousePos s e0))
                       (map (fun el => mkInitialPosition (id el) (x el)
                                         (y el)) els))
                    (resizeInfo s) (rotateInfo s) (isDrawing s)) sel)
              (map (fun el => if Js.mem (id el) sel
                              then with_xy el (x el + dx) (y el + dy)
                              else el)
                 (elements s)))).
  { unfold handleMouseMove.
    cbn [isPanning rotateInfo resizeInfo creationStart isDrawing dragInfo
         isDragging initialPositions selectedIds elements setSelectedIds
         set_gesture drag_startX drag_startY].
    rewrite Hpan, Hrot, Hres, Hcre, Hdraw.
    destruct els as [|el0 els'] eqn:Eels; [contradiction|].
    rewrite <- Eels.
    replace (0 <? List.length
                    (map (fun el => mkInitialPosition (id el) (x el) (y el))
                       els))%nat with true
      by (rewrite Eels; reflexivity).
    cbn [andb]. f_equal. f_equal. apply map_ext_in. intros el Hel.
    unfold els. rewrite (find_initialPosition sel _ el Hnd Hel).
    destruct (Js.mem (id el) sel); reflexivity. }
  eexists. eexists. split; [exact Hmove|].
  cbn [elements history historyStep setElements setSelectedIds set_gesture].
  split; [reflexivity|]. split; [reflexivity|]. split; [reflexivity|].
  unfold handleMouseUp.
  cbn [isDrawing creationStart dragInfo isDragging setElements
       setSelectedIds set_gesture orb].
  rewrite Hdraw, Hcre. split; [reflexivity|].
  cbn [elements history isDragging dragInfo endGesture set_gesture].
  rewrite commitElements_elements, commitElements_history.
  repeat split.
Qed.

Lemma drag_moves_selection_witness :
  let a := exampleBox "a" 0 0 50 50 1 in
  let b := exampleBox "b" 100 0 30 30 2 in
  let s := boardWith [a; b] [] in
  let s1 := handleElementSelect s (leftButtonAt 10 10) "a" in
  exists s2,
    handleMouseMove (fun q => q) (fun _ _ => 0) s1 (leftButtonAt 40 30)
    = Some s2
    /\ map x (elements s2) = [0 + (40 - 10); 100]
    /\ map y (elements s2) = [0 + (30 - 10); 0].
Proof.
  intros a b s s1.
  destruct (drag_moves_selection (fun q => q) (fun _ _ => 0) s
              (leftButtonAt 10 10) (leftButtonAt 40 30) "a")
    as (s2 & s3 & Hmove & Hels & _);
    try reflexivity; try discriminate.
  - cbn. repeat constructor; cbn; intuition discriminate.
  - exists s2. split; [exact Hmove|]. rewrite Hels. split; reflexivity.
Defined.

(** ** Pointer moves do not accumulate *)

Lemma map_id_twice (i : string) (f g : BoardElement -> BoardElement)
  (els : list BoardElement) :
  (forall el, id (f el) = id el) ->
  (forall el, g (f el) = g el) ->
  map_id i g (map_id i f els) = map_id i g els.
Proof.
  intros Hf Hg. unfold map_id. rewrite map_map. apply map_ext. intros el.
  destruct (String.eqb (id el) i) eqn:E.
  - now rewrite Hf, E, Hg.
  - now rewrite E.
Qed.

Lemma createGeometry_twice (sqrt : Q -> Q) (atan2deg : Q -> Q -> Q)
  (start c1 c2 : Point) (sh1 sh2 : bool) (el : BoardElement) :
  createGeometry sqrt atan2deg start c2 sh2
    (createGeometry sqrt atan2deg start c1 sh1 el)
  = createGeometry sqrt atan2deg start c2 sh2 el.
Proof.
  unfold createGeometry.
  destruct (ElementType_is (type el) line || ElementType_is (type el) arrow)
    eqn:E; cbn [type with_rotation with_size with_xy]; rewrite E;
    reflexivity.
Qed.

Lemma createGeometry_id (sqrt : Q -> Q) (atan2deg : Q -> Q -> Q)
  (start c : Point) (sh : bool) (el : BoardElement) :
  id (createGeometry sqrt atan2deg start c sh el) = id el.
Proof.
  unfold createGeometry.
  destruct (ElementType_is (type el) line || ElementType_is (type el) arrow);
    reflexivity.
Qed.

Lemma setElements_twice (s : AppState) (a b : list BoardElement) :
  setElements (setElements s a) b = setElements s b.
Proof. reflexivity. Qed.

(** Takes the first move of two and unfolds the second one on its result. *)
Ltac second_move :=
  intros E; injection E as <-;
  unfold handleMouseMove, getMousePos;
  cbn [isPanning rotateInfo resizeInfo creationStart isDrawing dragInfo
       selectedIds elements setElements containerRect viewTransform].

(** X8.  Outside panning and freehand drawing, a pointer move overwrites
    what the previous move of the same gesture wrote: after any move, the
    next move gives the state it would have given without the first.  The
    result of a drag, a resize, a rotation or a drag-to-create therefore
    depends on the last pointer position only, not on the path or on the
    number of move events. *)
Theorem move_overwrites_previous_move :
  forall (sqrt : Q -> Q) (atan2deg : Q -> Q -> Q) (s s1 : AppState)
         (e1 e2 : MouseEvent),
    isPanning s = false -> isDrawing s = false ->
    handleMouseMove sqrt atan2deg s e1 = Some s1 ->
    handleMouseMove sqrt atan2deg s1 e2
    = handleMouseMove sqrt atan2deg s e2.
Proof.
  intros sqrt atan2deg s s1 e1 e2 Hpan Hdraw.
  unfold handleMouseMove at 1. rewrite Hpan, Hdraw.
  destruct (isRotating (rotateInfo s)) eqn:Hrot,
    (selectedIds s) as [|sid [|? ?]] eqn:Hsel.
  all: try (second_move; rewrite ?Hpan, ?Hrot, ?Hsel;
            rewrite map_id_twice by (intros; reflexivity);
            reflexivity).
  all: destruct (isResizing (resizeInfo s)) eqn:Hres.
  all: try (second_move; rewrite ?Hpan, ?Hrot, ?Hres, ?Hsel;
            rewrite map_id_twice by (intros; reflexivity);
            reflexivity).
  all: destruct (creationStart s) as [start|] eqn:Hcre.
  all: try (second_move; rewrite ?Hpan, ?Hrot, ?Hres, ?Hcre, ?Hsel;
            rewrite map_id_twice
              by (intros; first [apply createGeometry_id
                                | apply createGeometry_twice]);
            reflexivity).
  all: destruct (isDragging (dragInfo s)
                 && (0 <? List.length (initialPositions (dragInfo s)))%nat)
         eqn:Hdrag.
  all: second_move;
    rewrite ?Hpan, ?Hrot, ?Hres, ?Hcre, ?Hsel, ?Hdraw, ?Hdrag.
  all: try reflexivity.
  all: rewrite setElements_twice; f_equal; f_equal; rewrite map_map;
    apply map_ext; intros el;
    destruct (find (fun p => String.eqb (ip_id p) (id el))
                (initialPositions (dragInfo s))) as [p|] eqn:F;
    cbn [id with_xy]; rewrite F; reflexivity.
Qed.

(** Two moves of a resize by the [w] handle. *)
Lemma move_overwrites_previous_move_witness :
  let s0 := boardWith [exampleBox "a" 0 0 100 100 1] ["a"%string] in
  let s := handleResizeStart s0 (leftButtonAt 0 50) "w" in
  exists s1,
    handleMouseMove (fun q => q) (fun _ _ => 0) s (leftButtonAt 200 50)
    = Some s1
    /\ handleMouseMove (fun q => q) (fun _ _ => 0) s1 (leftButtonAt 30 50)
       = handleMouseMove (fun q => q) (fun _ _ => 0) s (leftButtonAt 30 50).
Proof.
  intros s0 s. eexists. split; [reflexivity|].
  apply (move_overwrites_previous_move (fun q => q) (fun _ _ => 0) s _
           (leftButtonAt 200 50) (leftButtonAt 30 50));
    reflexivity.
Defined.

(** ** Panning *)

(** X9.  Panning.  With the select tool, a left pointer-down on the
    background clears the selection and starts a pan; every move then
    adds to the offsets of the view the displacement of the pointer on
    the screen since the previous pointer event, and keeps the scale, the
    store and the history; the pointer-up ends the pan without a
    commit. *)
Theorem pan_adds_displacement :
  forall (uuidv4 : nat -> string) (sqrt : Q -> Q) (atan2deg : Q -> Q -> Q)
         (s : AppState) (e0 e1 e2 : MouseEvent),
    button e0 <> 2%Z -> activeTool s = select -> onBackground e0 = true ->
    isResizing (resizeInfo s) = false -> isRotating (rotateInfo s) = false ->
    isDrawing s = false -> creationStart s = None ->
    isDragging (dragInfo s) = false ->
    let s1 := handleMouseDown uuidv4 s e0 in
    exists s2 s3 s4,
      selectedIds s1 = []
      /\ viewTransform s1 = viewTransform s
      /\ handleMouseMove sqrt atan2deg s1 e1 = Some s2
      /\ handleMouseMove sqrt atan2deg s2 e2 = Some s3
      /\ handleMouseUp s3 = Some s4
      /\ elements s4 = elements s /\ history s4 = history s
      /\ historyStep s4 = historyStep s /\ isPanning s4 = false
      /\ viewTransform s4 = viewTransform s3
      /\ scale (viewTransform s2) = scale (viewTransform s)
      /\ scale (viewTransform s3) = scale (viewTransform s)
      /\ vt_x (viewTransform s2)
         = vt_x (viewTransform s) + (clientX e1 - clientX e0)
      /\ vt_y (viewTransform s2)
         = vt_y (viewTransform s) + (clientY e1 - clientY e0)
      /\ vt_x (viewTransform s3)
         = vt_x (viewTransform s2) + (clientX e2 - clientX e1)
      /\ vt_y (viewTransform s3)
         = vt_y (viewTransform s2) + (clientY e2 - clientY e1).
Proof.
  intros uuidv4 sqrt atan2deg s e0 e1 e2 Hb Htool Hbg Hres Hrot Hdraw Hcre
    Hdrag s1.
  assert (Hs1 : s1 = setSelectedIds
                       (set_gesture
                          (if contextMenuOpen s
                           then setContextMenuOpen s false else s)
                          true (mkPoint (clientX e0) (clientY e0))
                          (creationStart s) (dragInfo s) (resizeInfo s)
                          (rotateInfo s) (isDrawing s)) []).
  { unfold s1, handleMouseDown.
    destruct (Z.eqb_spec (button e0) 2); [contradiction|].
    rewrite Hres, Hrot, Htool, Hbg. cbn [orb andb ToolType_eqb].
    now destruct (contextMenuOpen s). }
  clearbody s1. subst s1.
  do 3 eexists. split; [reflexivity|].
  split; [now destruct (contextMenuOpen s)|].
  split; [unfold handleMouseMove; reflexivity|].
  split; [unfold handleMouseMove; reflexivity|].
  split.
  { unfold handleMouseUp.
    cbn [isDrawing creationStart selectedIds dragInfo resizeInfo rotateInfo
         setViewTransform set_gesture setSelectedIds].
    rewrite Hdraw, Hcre, Hdrag, Hres, Hrot. reflexivity. }
  destruct (contextMenuOpen s);
    cbn [elements history historyStep isPanning viewTransform scale vt_x
         vt_y px py endGesture set_gesture setViewTransform setSelectedIds
         setContextMenuOpen panStart];
    repeat split.
Qed.

Lemma pan_adds_displacement_witness :
  let s := initialState exampleRect in
  exists s2,
    handleMouseMove (fun q => q) (fun _ _ => 0)
      (handleMouseDown unaryId s (leftButtonAt 100 100)) (leftButtonAt 130 90)
    = Some s2
    /\ vt_x (viewTransform s2) == 30 /\ vt_y (viewTransform s2) == -10.
Proof.
  intros s.
  destruct (pan_adds_displacement unaryId (fun q => q) (fun _ _ => 0) s
              (leftButtonAt 100 100) (leftButtonAt 130 90)
              (leftButtonAt 130 90))
    as (s2 & s3 & s4 & _ & _ & Hmove & _ & _ & _ & _ & _ & _ & _ & _ & _
        & Hx & Hy & _);
    try reflexivity; try discriminate.
  exists s2. split; [exact Hmove|].
  rewrite Hx, Hy. split; reflexivity.
Defined.

(** ** Rotation *)

Lemma Js_round_near (q : Q) :
  q - (1 # 2) < Js.round q /\ Js.round q <= q + (1 # 2).
Proof.
  unfold Js.round. split.
  - pose proof (Qlt_floor (q + (1 # 2))) as H.
    rewrite inject_Z_plus in H. change (inject_Z 1) with 1 in H. lra.
  - apply Qfloor_le.
Qed.

(** X10.  Rotation of the single selected element.  After the rotation
    handle was grabbed, the pivot is the centre of the element's box, and a
    pointer move sets the rotation of the elements with the selected id to
    the angle of the pointer about the pivot plus 90 and changes nothing
    else.  With shift held the rotation is instead a whole multiple of 15
    that lies within 7.5 of that angle: above it by at most 7.5, below it
    by less than 7.5. *)
Theorem rotate_snaps_to_15 :
  forall (sqrt : Q -> Q) (atan2deg : Q -> Q -> Q) (s0 : AppState)
         (e0 e1 : MouseEvent) (sid : string) (target : BoardElement),
    isPanning s0 = false ->
    selectedIds s0 = [sid] ->
    find_id sid (elements s0) = Some target ->
    Js.truthy (width target) = true -> Js.truthy (height target) = true ->
    let s := handleRotateStart s0 e0 in
    let pivotX := x target + Js.or_else (width target) 0 / 2 in
    let pivotY := y target + Js.or_else (height target) 0 / 2 in
    let raw := atan2deg (py (getMousePos s0 e1) - pivotY)
                 (px (getMousePos s0 e1) - pivotX) + 90 in
    exists s' r,
      handleMouseMove sqrt atan2deg s e1 = Some s'
      /\ history s' = history s0
      /\ elements s'
         = map_id sid (fun el => with_rotation el r) (elements s0)
      /\ (shiftKey e1 = false -> r = raw)
      /\ (shiftKey e1 = true ->
          (exists n : Z, r = inject_Z n * 15)
          /\ raw - (15 # 2) < r /\ r <= raw + (15 # 2)).
Proof.
  intros sqrt atan2deg s0 e0 e1 sid target Hpan Hsel Hfind Hw Hh s pivotX
    pivotY raw.
  assert (Hs : s = set_gesture s0 (isPanning s0) (panStart s0)
                     (creationStart s0) (dragInfo s0) (resizeInfo s0)
                     (mkRotateInfo true (px (getMousePos s0 e0))
                        (py (getMousePos s0 e0))
                        (Js.or_else (rotation target) 0) pivotX pivotY)
                     (isDrawing s0)).
  { unfold s, handleRotateStart. rewrite Hsel, Hfind, Hw, Hh. reflexivity. }
  clearbody s. subst s.
  exists (setElements
            (set_gesture s0 (isPanning s0) (panStart s0) (creationStart s0)
               (dragInfo s0) (resizeInfo s0)
               (mkRotateInfo true (px (getMousePos s0 e0))
                  (py (getMousePos s0 e0))
                  (Js.or_else (rotation target) 0) pivotX pivotY)
               (isDrawing s0))
            (map_id sid
               (fun el =>
                  with_rotation el
                    (if shiftKey e1 then Js.round (raw / 15) * 15 else raw))
               (elements s0))),
    (if shiftKey e1 then Js.round (raw / 15) * 15 else raw).
  split.
  { unfold handleMouseMove.
    cbn [isPanning rotateInfo isRotating selectedIds set_gesture].
    rewrite Hpan, Hsel. reflexivity. }
  split; [reflexivity|]. split; [reflexivity|].
  split; [intros ->; reflexivity|].
  intros ->. split; [eexists; reflexivity|].
  destruct (Js_round_near (raw / 15)) as [Hlo Hhi].
  assert (E : raw / 15 * 15 == raw) by (field; discriminate).
  split; lra.
Qed.

Lemma rotate_snaps_to_15_witness :
  let a := exampleBox "a" 0 0 100 100 1 in
  let s0 := boardWith [a] ["a"%string] in
  let s := handleRotateStart s0 (leftButtonAt 50 (-30)) in
  exists s' r,
    handleMouseMove (fun q => q) (fun _ _ => -43) s
      (mkMouseEvent 80 10 0 true false)
    = Some s'
    /\ elements s' = [with_rotation a r] /\ r == 45.
Proof.
  intros a s0 s.
  destruct (rotate_snaps_to_15 (fun q => q) (fun _ _ => -43) s0
              (leftButtonAt 50 (-30)) (mkMouseEvent 80 10 0 true false)
              "a" a)
    as (s' & r & Hmove & _ & Hels & _ & Hsnap);
    try reflexivity.
  exists s', r. split; [exact Hmove|]. split; [exact Hels|].
  destruct (Hsnap eq_refl) as ((n & Hn) & Hlo & Hhi).
  cbv zeta in Hlo, Hhi.
  assert (Hn1 : (2 < n)%Z).
  { apply Z.lt_nge. intros Hle. rewrite Hn in Hlo.
    assert (inject_Z n <= 2) by (rewrite Zle_Qle in Hle; exact Hle). lra. }
  assert (Hn2 : (n < 4)%Z).
  { apply Z.lt_nge. intros Hle. rewrite Hn in Hhi.
    assert (4 <= inject_Z n) by (rewrite Zle_Qle in Hle; exact Hle). lra. }
  assert (n = 3%Z) by lia. subst n. rewrite Hn. reflexivity.
Defined.

(** ** Drag-to-create geometry *)

(** X11.  A move of a drag-to-create gesture gives the element being
    created its geometry from the anchor of the gesture and the pointer.
    A shape other than a line or an arrow starts at the smaller of the two
    coordinates on each axis, and its extents are never negative: without
    shift they are the absolute differences of the coordinates, with shift
    both are the larger of the two.  A line or an arrow is 20 high and as
    wide as the distance from anchor to pointer, but at least 20; its [x]
    is the mean of the two [x] coordinates less half that width, its [y]
    the mean of the two [y] coordinates less 10, and its rotation the
    angle of the drag. *)
Theorem create_move_geometry :
  forall (sqrt : Q -> Q) (atan2deg : Q -> Q -> Q) (s : AppState)
         (e : MouseEvent) (start : Point) (sid : string),
    isPanning s = false ->
    isRotating (rotateInfo s) = false -> isResizing (resizeInfo s) = false ->
    creationStart s = Some start -> selectedIds s = [sid] ->
    let cur := getMousePos s e in
    exists s',
      handleMouseMove sqrt atan2deg s e = Some s'
      /\ history s' = history s
      /\ forall k el,
           nth_error (elements s) k = Some el -> id el = sid ->
           exists el' w h,
             nth_error (elements s') k = Some el'
             /\ width el' = Some w /\ height el' = Some h
             /\ 0 <= w /\ 0 <= h
             /\ (ElementType_is (type el) line
                 || ElementType_is (type el) arrow = false ->
                 x el' = Qmin (px start) (px cur)
                 /\ y el' = Qmin (py start) (py cur)
                 /\ x el' <= px start /\ x el' <= px cur
                 /\ y el' <= py start /\ y el' <= py cur
                 /\ (shiftKey e = false ->
                     w = Qabs (px cur - px start)
                     /\ h = Qabs (py cur - py start))
                 /\ (shiftKey e = true ->
                     w = h /\ Qabs (px cur - px start) <= w
                     /\ Qabs (py cur - py start) <= w
                     /\ (w = Qabs (px cur - px start)
                         \/ w = Qabs (py cur - py start))))
             /\ (ElementType_is (type el) line
                 || ElementType_is (type el) arrow = true ->
                 h = 20 /\ 20 <= w
                 /\ w = Qmax 20
                          (sqrt ((px cur - px start) * (px cur - px start)
                                 + (py cur - py start) * (py cur - py start)))
                 /\ x el' = (px start + px cur) / 2 - w / 2
                 /\ y el' = (py start + py cur) / 2 - h / 2
                 /\ rotation el'
                    = Some (atan2deg (py cur - py start)
                              (px cur - px start))).
Proof.
  intros sqrt atan2deg s e start sid Hpan Hrot Hres Hcre Hsel cur.
  eexists. split.
  { unfold handleMouseMove. rewrite Hpan, Hrot, Hres, Hcre, Hsel.
    reflexivity. }
  cbn [history elements setElements]. split; [reflexivity|].
  intros k el Hk Hid. unfold map_id. rewrite nth_error_map, Hk.
  cbn [option_map]. rewrite Hid, String.eqb_refl. fold cur.
  unfold createGeometry.
  destruct (ElementType_is (type el) line || ElementType_is (type el) arrow).
  - do 3 eexists. split; [reflexivity|].
    cbn [width height x y rotation with_rotation with_size with_xy].
    split; [reflexivity|]. split; [reflexivity|].
    assert (H20 : 20 <= Qmax 20 (sqrt ((px cur - px start)
                                       * (px cur - px start)
                                       + (py cur - py start)
                                         * (py cur - py start))))
      by apply Q.le_max_l.
    split; [lra|]. split; [discriminate|].
    split; [discriminate|]. intros _.
    split; [reflexivity|]. split; [exact H20|].
    repeat split.
  - do 3 eexists. split; [reflexivity|].
    cbn [width height x y rotation with_rotation with_size with_xy].
    split; [reflexivity|]. split; [reflexivity|].
    pose proof (Qabs_nonneg (px cur - px start)) as Hax.
    pose proof (Qabs_nonneg (py cur - py start)) as Hay.
    pose proof (Q.le_max_l (Qabs (px cur - px start))
                  (Qabs (py cur - py start))) as Hml.
    pose proof (Q.le_max_r (Qabs (px cur - px start))
                  (Qabs (py cur - py start))) as Hmr.
    split; [destruct (shiftKey e); lra|].
    split; [destruct (shiftKey e); lra|].
    split; [|discriminate]. intros _.
    split; [reflexivity|]. split; [reflexivity|].
    split; [apply Q.le_min_l|]. split; [apply Q.le_min_r|].
    split; [apply Q.le_min_l|]. split; [apply Q.le_min_r|]. split.
    + intros ->. split; reflexivity.
    + intros ->. split; [reflexivity|]. split; [exact Hml|].
      split; [exact Hmr|]. apply Qmax_cases.
Qed.

Lemma create_move_geometry_witness :
  let s0 := handleSelectTool (initialState exampleRect) rect in
  let s := handleMouseDown unaryId s0 (leftButtonAt 60 80) in
  exists s' el',
    handleMouseMove (fun q => q) (fun _ _ => 0) s (leftButtonAt 10 20)
    = Some s'
    /\ nth_error (elements s') 0 = Some el'
    /\ x el' == 10 /\ y el' == 20.
Proof.
  intros s0 s.
  destruct (create_move_geometry (fun q => q) (fun _ _ => 0) s
              (leftButtonAt 10 20) (mkPoint (60 / 1) (80 / 1)) (unaryId 0))
    as (s' & Hmove & _ & Hgeo); try reflexivity.
  destruct (Hgeo 0%nat (newShape unaryId s0 (getMousePos s0
                                               (leftButtonAt 60 80)))
              eq_refl eq_refl)
    as (el' & w & h & Hnth & _ & _ & _ & _ & Hshape & _).
  exists s', el'. split; [exact Hmove|]. split; [exact Hnth|].
  destruct (Hshape eq_refl) as (Hx & Hy & _).
  rewrite Hx, Hy. split; reflexivity.
Defined.

(** ** Z-order *)

Local Open Scope Z_scope.

Lemma zmax0_upper (zs : list Z) : forall z, In z zs -> z <= Js.zmax0 zs.
Proof.
  unfold Js.zmax0.
  assert (H : forall (l : list Z) (a : Z),
             a <= fold_left Z.max l a
             /\ forall z, In z l -> z <= fold_left Z.max l a).
  { induction l as [|b l IH]; intros a; cbn [fold_left].
    - split; [lia | intros z []].
    - destruct (IH (Z.max a b)) as [H0 Hin]. split; [lia|].
      intros z [<- | Hz]; [lia | now apply Hin]. }
  intros z Hz. now apply (H zs 0).
Qed.

Lemma zmin0_lower (zs : list Z) : forall z, In z zs -> Js.zmin0 zs <= z.
Proof.
  unfold Js.zmin0.
  assert (H : forall (l : list Z) (a : Z),
             fold_left Z.min l a <= a
             /\ forall z, In z l -> fold_left Z.min l a <= z).
  { induction l as [|b l IH]; intros a; cbn [fold_left].
    - split; [lia | intros z []].
    - destruct (IH (Z.min a b)) as [H0 Hin]. split; [lia|].
      intros z [<- | Hz]; [lia | now apply Hin]. }
  intros z Hz. now apply (H zs 0).
Qed.

Lemma zmax0_nonneg (zs : list Z) : 0 <= Js.zmax0 zs.
Proof.
  unfold Js.zmax0.
  assert (H : forall (l : list Z) (a : Z), a <= fold_left Z.max l a).
  { induction l as [|b l IH]; intros a; cbn [fold_left]; [lia|].
    specialize (IH (Z.max a b)). lia. }
  apply H.
Qed.

Lemma zmin0_nonpos (zs : list Z) : Js.zmin0 zs <= 0.
Proof.
  unfold Js.zmin0.
  assert (H : forall (l : list Z) (a : Z), fold_left Z.min l a <= a).
  { induction l as [|b l IH]; intros a; cbn [fold_left]; [lia|].
    specialize (IH (Z.min a b)). lia. }
  apply H.
Qed.

Lemma sortByZ_In (a : BoardElement) (l : list BoardElement) :
  In a (sortByZ l) <-> In a l.
Proof.
  split; intros H.
  - eapply Permutation_in; [apply sortByZ_perm | exact H].
  - eapply Permutation_in; [symmetry; apply sortByZ_perm | exact H].
Qed.

(** An element not above the tail [back] is inserted in the head. *)
Lemma insertByZ_in_front (a : BoardElement) (front back : list BoardElement) :
  (forall b, In b back -> zIndex a <= zIndex b) ->
  insertByZ a (front ++ back) = insertByZ a front ++ back.
Proof.
  intros Hback. induction front as [|u front IH].
  - destruct back as [|b back]; [reflexivity|].
    cbn [app insertByZ].
    destruct (Z.leb_spec (zIndex a) (zIndex b)); [reflexivity|].
    specialize (Hback b (or_introl eq_refl)). lia.
  - cbn [app insertByZ]. destruct (zIndex a <=? zIndex u); [reflexivity|].
    now rewrite IH.
Qed.

(** An element above the head [front] and not above the tail [back] is
    inserted between them. *)
Lemma insertByZ_between (a : BoardElement) (front back : list BoardElement) :
  (forall u, In u front -> zIndex u < zIndex a) ->
  (forall b, In b back -> zIndex a <= zIndex b) ->
  insertByZ a (front ++ back) = front ++ a :: back.
Proof.
  intros Hfront Hback. induction front as [|u front IH].
  - rewrite (insertByZ_in_front a [] back Hback). reflexivity.
  - cbn [app insertByZ].
    destruct (Z.leb_spec (zIndex a) (zIndex u)) as [Hle|_].
    + specialize (Hfront u (or_introl eq_refl)). lia.
    + rewrite IH; [reflexivity|]. intros v Hv. apply Hfront. now right.
Qed.

(** An element above the head [front] is inserted in the tail. *)
Lemma insertByZ_in_back (a : BoardElement) (front back : list BoardElement) :
  (forall u, In u front -> zIndex u < zIndex a) ->
  insertByZ a (front ++ back) = front ++ insertByZ a back.
Proof.
  intros Hfront. induction front as [|u front IH]; [reflexivity|].
  cbn [app insertByZ].
  destruct (Z.leb_spec (zIndex a) (zIndex u)) as [Hle|_].
  - specialize (Hfront u (or_introl eq_refl)). lia.
  - rewrite IH; [reflexivity|]. intros v Hv. apply Hfront. now right.
Qed.

Lemma insertByZ_sorted (a : BoardElement) (l : list BoardElement) :
  Sorted (fun u v => zIndex u <= zIndex v) l ->
  Sorted (fun u v => zIndex u <= zIndex v) (insertByZ a l).
Proof.
  induction l as [|h tl IH]; intros Hs; cbn [insertByZ].
  - repeat constructor.
  - destruct (Z.leb_spec (zIndex a) (zIndex h)) as [Hle|Hgt].
    + constructor; [exact Hs | constructor; exact Hle].
    + inversion Hs as [|? ? Htl Hhd]; subst.
      constructor; [now apply IH|].
      destruct tl as [|t tl]; cbn [insertByZ].
      * constructor. lia.
      * destruct (zIndex a <=? zIndex t); constructor;
          [lia | inversion Hhd; assumption].
Qed.

Lemma sortByZ_sorted (l : list BoardElement) :
  Sorted (fun u v => zIndex u <= zIndex v) (sortByZ l).
Proof.
  induction l as [|a l IH]; [constructor|].
  cbn [sortByZ fold_right]. now apply insertByZ_sorted.
Qed.

(** Raising the chosen elements above a bound of the store and sorting
    moves them behind the others, in their order. *)
Lemma sort_raised (chosen : BoardElement -> bool) (top : Z)
  (l : list BoardElement) :
  (forall el, In el l -> zIndex el <= top) ->
  sortByZ (map (fun el => if chosen el then with_zIndex el (top + 1)
                          else el) l)
  = sortByZ (filter (fun el => negb (chosen el)) l)
    ++ map (fun el => with_zIndex el (top + 1)) (filter chosen l).
Proof.
  induction l as [|a l IH]; intros Hb; [reflexivity|].
  cbn [map sortByZ fold_right filter].
  fold (sortByZ (map (fun el => if chosen el then with_zIndex el (top + 1)
                                else el) l)).
  rewrite IH by (intros el Hel; apply Hb; now right).
  assert (Hraised : forall b,
             In b (map (fun el => with_zIndex el (top + 1))
                     (filter chosen l)) -> zIndex b = top + 1).
  { intros b Hin. apply in_map_iff in Hin. now destruct Hin as (c & <- & _). }
  assert (Hkept : forall u,
             In u (sortByZ (filter (fun el => negb (chosen el)) l)) ->
             zIndex u <= top).
  { intros u Hu. apply sortByZ_In, filter_In in Hu. apply Hb. now right. }
  destruct (chosen a); cbn [negb map].
  - apply insertByZ_between.
    + intros u Hu. cbn [zIndex with_zIndex]. specialize (Hkept u Hu). lia.
    + intros b Hbk. cbn [zIndex with_zIndex]. rewrite (Hraised b Hbk). lia.
  - cbn [sortByZ fold_right].
    fold (sortByZ (filter (fun el => negb (chosen el)) l)).
    apply insertByZ_in_front. intros b Hbk. rewrite (Hraised b Hbk).
    specialize (Hb a (or_introl eq_refl)). lia.
Qed.

(** Lowering the chosen elements below a bound of the store and sorting
    moves them before the others, in their order. *)
Lemma sort_lowered (chosen : BoardElement -> bool) (bottom : Z)
  (l : list BoardElement) :
  (forall el, In el l -> bottom <= zIndex el) ->
  sortByZ (map (fun el => if chosen el then with_zIndex el (bottom - 1)
                          else el) l)
  = map (fun el => with_zIndex el (bottom - 1)) (filter chosen l)
    ++ sortByZ (filter (fun el => negb (chosen el)) l).
Proof.
  induction l as [|a l IH]; intros Hb; [reflexivity|].
  cbn [map sortByZ fold_right filter].
  fold (sortByZ (map (fun el => if chosen el then with_zIndex el (bottom - 1)
                                else el) l)).
  rewrite IH by (intros el Hel; apply Hb; now right).
  assert (Hlowered : forall b,
             In b (map (fun el => with_zIndex el (bottom - 1))
                     (filter chosen l)) -> zIndex b = bottom - 1).
  { intros b Hin. apply in_map_iff in Hin. now destruct Hin as (c & <- & _). }
  destruct (chosen a); cbn [negb map].
  - destruct (map (fun el => with_zIndex el (bottom - 1)) (filter chosen l))
      as [|b rest] eqn:E.
    + cbn [app].
      rewrite <- (app_nil_l (sortByZ (filter _ l))).
      rewrite (insertByZ_between _ [] _); [reflexivity | intros u [] |].
      intros u Hu. cbn [zIndex with_zIndex].
      apply sortByZ_In, filter_In in Hu.
      assert (bottom <= zIndex u) by (apply Hb; now right). lia.
    + cbn [app insertByZ zIndex with_zIndex].
      rewrite (Hlowered b (or_introl eq_refl)).
      destruct (Z.leb_spec (bottom - 1) (bottom - 1)); [reflexivity | lia].
  - cbn [sortByZ fold_right].
    fold (sortByZ (filter (fun el => negb (chosen el)) l)).
    apply insertByZ_in_back. intros u Hu. rewrite (Hlowered u Hu).
    specialize (Hb a (or_introl eq_refl)). lia.
Qed.

(** X12.  Bring to front and send to back.  [front] gives every targeted
    element the [zIndex] one above the largest [zIndex] of the store (or 1
    when none is positive) and re-sorts the store by [zIndex]: the
    untargeted elements come first, unchanged and sorted stably, then the
    targeted ones in their former order, each strictly above every
    untargeted element.  [back] is the mirror image with one below the
    smallest [zIndex] (or -1 when none is negative).  Both keep the ids,
    leave the selection alone and push exactly one snapshot. *)
Theorem front_back_order :
  forall (uuidv4 : nat -> string) (s : AppState)
         (elementId clip : option string),
    let targeted := fun el => Js.mem (id el) (targetIdsOf s elementId) in
    let others := filter (fun el => negb (targeted el)) (elements s) in
    let maxZ := Js.zmax0 (map zIndex (elements s)) in
    let minZ := Js.zmin0 (map zIndex (elements s)) in
    exists sf sb,
      handleContextMenuAction uuidv4 s AFront elementId clip = Some sf
      /\ handleContextMenuAction uuidv4 s ABack elementId clip = Some sb
      /\ elements sf
         = sortByZ others
           ++ map (fun el => with_zIndex el (maxZ + 1))
                (filter targeted (elements s))
      /\ elements sb
         = map (fun el => with_zIndex el (minZ - 1))
             (filter targeted (elements s))
           ++ sortByZ others
      /\ Sorted (fun u v => zIndex u <= zIndex v) (elements sf)
      /\ Sorted (fun u v => zIndex u <= zIndex v) (elements sb)
      /\ Sorted (fun u v => zIndex u <= zIndex v) (sortByZ others)
      /\ Permutation (sortByZ others) others
      /\ (forall u, In u others -> minZ - 1 < zIndex u < maxZ + 1)
      /\ 0 < maxZ + 1 /\ minZ - 1 < 0
      /\ Permutation (map id (elements sf)) (map id (elements s))
      /\ Permutation (map id (elements sb)) (map id (elements s))
      /\ selectedIds sf = selectedIds s /\ selectedIds sb = selectedIds s
      /\ history sf = firstn (historyStep s + 1) (history s) ++ [elements sf]
      /\ history sb = firstn (historyStep s + 1) (history s) ++ [elements sb].
Proof.
  intros uuidv4 s elementId clip targeted others maxZ minZ.
  do 2 eexists. split; [reflexivity|]. split; [reflexivity|].
  rewrite !commitElements_elements, !commitElements_history,
    !commitElements_selectedIds.
  fold maxZ minZ.
  assert (Hmax : forall el, In el (elements s) -> zIndex el <= maxZ).
  { intros el Hel. apply zmax0_upper. now apply in_map. }
  assert (Hmin : forall el, In el (elements s) -> minZ <= zIndex el).
  { intros el Hel. apply zmin0_lower. now apply in_map. }
  split; [exact (sort_raised targeted maxZ (elements s) Hmax)|].
  split; [exact (sort_lowered targeted minZ (elements s) Hmin)|].
  split; [apply sortByZ_sorted|]. split; [apply sortByZ_sorted|].
  split; [apply sortByZ_sorted|]. split; [apply sortByZ_perm|].
  split.
  { intros u Hu. apply filter_In in Hu. destruct Hu as [Hu _].
    specialize (Hmax u Hu). specialize (Hmin u Hu). lia. }
  assert (H0max : 0 <= maxZ) by apply zmax0_nonneg.
  assert (H0min : minZ <= 0) by apply zmin0_nonpos.
  split; [lia|]. split; [lia|].
  assert (Hids : forall z,
             Permutation
               (map id (sortByZ
                          (map (fun el => if targeted el
                                          then with_zIndex el z else el)
                             (elements s))))
               (map id (elements s))).
  { intros z. etransitivity; [apply Permutation_map, sortByZ_perm|].
    rewrite map_keeps_ids; [reflexivity|].
    intros el. destruct (targeted el); reflexivity. }
  split; [apply Hids|]. split; [apply Hids|].
  repeat split.
Qed.

(** ** Context menu *)

Local Open Scope nat_scope.

(** X13.  The context menu and its actions agree on their targets.  In a
    drawing mode a right click opens nothing.  Otherwise the menu opens;
    it lists the clicked element alone, and selects it, when that element
    was not selected, and lists the current selection when the click was on
    a selected element or on the background; the store and the history are
    untouched.  An action then chosen in the menu, which the menu sends
    with the first listed id, is applied by [handleContextMenuAction] to
    exactly the listed ids. *)
Theorem context_menu_targets :
  forall (s : AppState) (elementId : option string),
    (isDrawingMode s = true -> handleContextMenu s elementId = s)
    /\ (isDrawingMode s = false ->
        let s' := handleContextMenu s elementId in
        let menuIds := contextMenuSelection s elementId in
        contextMenuOpen s' = true
        /\ selectedIds s' = menuIds
        /\ elements s' = elements s /\ history s' = history s
        /\ historyStep s' = historyStep s
        /\ targetIdsOf s' (menuActionElementId menuIds) = menuIds
        /\ (forall e, elementId = Some e -> e <> ""%string ->
                      ~ In e (selectedIds s) -> menuIds = [e])
        /\ (forall e, elementId = Some e -> In e (selectedIds s) ->
                      menuIds = selectedIds s)
        /\ (elementId = None -> menuIds = selectedIds s)).
Proof.
  intros s elementId. unfold handleContextMenu. split.
  - intros ->. reflexivity.
  - intros ->.
    cbn [contextMenuOpen selectedIds elements history historyStep
         setContextMenuOpen setSelectedIds].
    repeat (split; [reflexivity|]).
    split.
    { unfold targetIdsOf, menuActionElementId.
      cbn [selectedIds setContextMenuOpen setSelectedIds].
      destruct (contextMenuSelection s elementId) as [|m rest];
        [reflexivity|].
      cbn [hd_error]. destruct (String.eqb m ""); [reflexivity|].
      replace (Js.mem m (m :: rest)) with true
        by (symmetry; apply Js_mem_In; now left).
      reflexivity. }
    unfold contextMenuSelection. split.
    { intros e -> Hne Hnin. apply String.eqb_neq in Hne. rewrite Hne.
      destruct (Js.mem e (selectedIds s)) eqn:E; [|reflexivity].
      apply Js_mem_In in E. contradiction. }
    split.
    { intros e -> Hin. apply Js_mem_In in Hin. rewrite Hin.
      now rewrite andb_false_r. }
    intros ->. reflexivity.
Qed.

Lemma context_menu_targets_witness :
  let a := exampleBox "a" 0 0 50 50 1 in
  let b := exampleBox "b" 100 0 30 30 2 in
  let s := boardWith [a; b] ["a"%string] in
  selectedIds (handleContextMenu s (Some "b"%string)) = ["b"%string]
  /\ targetIdsOf (handleContextMenu s (Some "b"%string))
       (menuActionElementId (contextMenuSelection s (Some "b"%string)))
     = ["b"%string].
Proof.
  intros a b s.
  destruct (context_menu_targets s (Some "b"%string)) as [_ H].
  destruct (H eq_refl) as (_ & Hsel & _ & _ & _ & Htarget & Hnew & _).
  assert (E : contextMenuSelection s (Some "b"%string) = ["b"%string]).
  { apply (Hnew "b"%string eq_refl); [discriminate|].
    intros [F | []]. discriminate F. }
  rewrite Hsel, Htarget. split; exact E.
Defined.

(** ** Alignment of a single element *)

Local Open Scope Q_scope.

Lemma filter_singleton_mem (sel : list string) (els : list BoardElement)
  (one : BoardElement) :
  filter (fun el => Js.mem (id el) sel) els = [one] ->
  forall el, In el els -> Js.mem (id el) sel = true -> el = one.
Proof.
  intros Hf el Hel Hmem.
  assert (Hin : In el (filter (fun e => Js.mem (id e) sel) els))
    by (apply filter_In; split; assumption).
  rewrite Hf in Hin. destruct Hin as [E | []]. now symmetry.
Qed.

(** X14.  Alignment with nothing or one element selected.  When no
    element of the store is selected [handleAlign] returns the state as it
    is, without a commit.  When exactly one element of the store is
    selected, the container is mounted and the scale is not zero, the
    element is aligned to the rectangle of the world that the container
    shows: it starts at [(-x / scale, -y / scale)] of the view and is
    [width / scale] wide and [height / scale] high.  [left] sets the [x]
    of the element to the start of that rectangle, [right] to its end less
    the width of the element, [center] to the mean of start and end less
    half the width ([top], [bottom] and [middle] likewise on [y]); the
    other coordinate, every other field and every other element are
    unchanged, and one snapshot is pushed. *)
Theorem handleAlign_single_viewport :
  forall (s : AppState) (t : AlignType),
    (selectedElements s = [] -> handleAlign s t = Some s)
    /\ forall (one : BoardElement) (box : DOMRect),
         selectedElements s = [one] ->
         containerRect s = Some box ->
         ~ scale (viewTransform s) == 0 ->
         let vt := viewTransform s in
         let viewX := - vt_x vt / scale vt in
         let viewY := - vt_y vt / scale vt in
         let viewW := rect_width box / scale vt in
         let viewH := rect_height box / scale vt in
         exists s' one',
           handleAlign s t = Some s'
           /\ history s'
              = firstn (historyStep s + 1) (history s) ++ [elements s']
           /\ elements s'
              = map (fun el => if Js.mem (id el) (selectedIds s)
                               then one' else el) (elements s)
           /\ one' = with_xy one (x one') (y one')
           /\ (t = AlignLeft -> x one' = viewX /\ y one' = y one)
           /\ (t = AlignRight ->
               x one' = viewX + viewW - Js.or_else (width one) 0
               /\ y one' = y one)
           /\ (t = AlignCenter ->
               x one'
               = (viewX + (viewX + viewW)) / 2 - Js.or_else (width one) 0 / 2
               /\ y one' = y one)
           /\ (t = AlignTop -> y one' = viewY /\ x one' = x one)
           /\ (t = AlignBottom ->
               y one' = viewY + viewH - Js.or_else (height one) 0
               /\ x one' = x one)
           /\ (t = AlignMiddle ->
               y one'
               = (viewY + (viewY + viewH)) / 2
                 - Js.or_else (height one) 0 / 2
               /\ x one' = x one).
Proof.
  intros s t. split.
  - intros Hnone. unfold handleAlign.
    destruct (List.length (selectedIds s) =? 0)%nat; [reflexivity|].
    change (filter (fun el => Js.mem (id el) (selectedIds s)) (elements s))
      with (selectedElements s).
    now rewrite Hnone.
  - intros one box Hone Hbox Hsc vt viewX viewY viewW viewH.
    assert (Hids : (List.length (selectedIds s) =? 0)%nat = false).
    { destruct (selectedIds s) eqn:E; [|reflexivity].
      rewrite (selectedElements_nil s E) in Hone. discriminate. }
    exists (commitElements s
              (map (alignElement t viewX (viewX + viewW) viewY
                      (viewY + viewH) (selectedIds s)) (elements s))),
      (alignElement t viewX (viewX + viewW) viewY (viewY + viewH)
         (selectedIds s) one).
    assert (Hmem : Js.mem (id one) (selectedIds s) = true).
    { assert (Hin : In one (selectedElements s)) by (rewrite Hone; now left).
      unfold selectedElements in Hin. apply filter_In in Hin. tauto. }
    split.
    { unfold handleAlign. rewrite Hids.
      change (filter (fun el => Js.mem (id el) (selectedIds s)) (elements s))
        with (selectedElements s).
      rewrite Hone. change (List.length [one] =? 0)%nat with false.
      cbv iota. unfold alignBounds.
      change (List.length [one] =? 1)%nat with true. cbv iota.
      rewrite Hbox. reflexivity. }
    rewrite commitElements_history, commitElements_elements.
    split; [reflexivity|]. split.
    { apply map_ext_in. intros el Hel.
      destruct (Js.mem (id el) (selectedIds s)) eqn:E.
      - now rewrite (filter_singleton_mem _ _ _ Hone el Hel E).
      - unfold alignElement. now rewrite E. }
    unfold alignElement. rewrite Hmem. cbn [negb].
    split; [reflexivity|].
    cbn [x y px py width height with_xy].
    repeat split; subst t; reflexivity.
Qed.

Lemma handleAlign_single_viewport_witness :
  let a := exampleBox "a" 10 10 100 50 1 in
  let s := boardWith [a] ["a"%string] in
  exists s' one',
    handleAlign s AlignCenter = Some s'
    /\ elements s' = [one'] /\ x one' == 350.
Proof.
  intros a s.
  destruct (handleAlign_single_viewport s AlignCenter) as [_ H].
  destruct (H a (mkDOMRect 0 0 800 600))
    as (s' & one' & Hrun & _ & Hels & _ & _ & _ & Hc & _);
    [reflexivity | reflexivity | discriminate |].
  exists s', one'. split; [exact Hrun|]. split; [exact Hels|].
  destruct (Hc eq_refl) as [Hx _]. rewrite Hx. reflexivity.
Defined.

(** ** Zoom to fit *)

Local Open Scope Q_scope.

(** The bounds [handleZoomToFit] folds over a non-empty store. *)
Lemma zoomBounds (e1 : BoardElement) (rest : list BoardElement) :
  fold_left growBounds (e1 :: rest)
    (mkBounds Js.PosInf Js.NegInf Js.PosInf Js.NegInf)
  = mkBounds (Js.Fin (Js.min_list (x e1) (map x rest)))
      (Js.Fin (Js.max_list (rightEdge e1) (map rightEdge rest)))
      (Js.Fin (Js.min_list (y e1) (map y rest)))
      (Js.Fin (Js.max_list (bottomEdge e1) (map bottomEdge rest))).
Proof.
  change (fold_left growBounds (e1 :: rest) ?b)
    with (fold_left growBounds rest (growBounds b e1)).
  unfold growBounds at 2.
  cbn [minX maxX minY maxY Js.ext_min Js.ext_max].
  apply growBounds_fold.
Qed.

(** X15.  Zoom to fit.  On an empty board the view is reset to the
    identity; without a container nothing changes.  On a board with
    elements, in a mounted container of positive size, only the view is
    set.  With [w] and [h] the extents of the union of the boxes plus 200
    (the union is the smallest box that holds every element, each side
    attained), the scale is the least of [contW / w], [contH / h] and 1.5,
    where a quotient by a zero extent counts as infinite; so the scale is
    at most 1.5, at most each of the two quotients whose extent is not
    zero, and equal to one of the three when neither extent is zero.  The offsets are
    [(contW - w * scale) / 2 - (minX - 100) * scale] and the same on
    [y]. *)
Theorem handleZoomToFit_view :
  forall (s : AppState),
    (elements s = [] ->
     handleZoomToFit s = Some (setViewTransform s (mkViewTransform 0 0 1)))
    /\ (elements s <> [] -> containerRect s = None ->
        handleZoomToFit s = Some s)
    /\ forall (box : DOMRect) (e1 : BoardElement) (rest : list BoardElement),
         elements s = e1 :: rest ->
         containerRect s = Some box ->
         0 < rect_width box -> 0 < rect_height box ->
         let lox := Js.min_list (x e1) (map x rest) in
         let hix := Js.max_list (rightEdge e1) (map rightEdge rest) in
         let loy := Js.min_list (y e1) (map y rest) in
         let hiy := Js.max_list (bottomEdge e1) (map bottomEdge rest) in
         let w := hix - lox + 100 * 2 in
         let h := hiy - loy + 100 * 2 in
         exists s' sc qw qh,
           handleZoomToFit s = Some s'
           /\ elements s' = elements s /\ history s' = history s
           /\ historyStep s' = historyStep s
           /\ selectedIds s' = selectedIds s
           /\ viewTransform s'
              = mkViewTransform
                  ((rect_width box - w * sc) / 2 - (lox - 100) * sc)
                  ((rect_height box - h * sc) / 2 - (loy - 100) * sc)
                  sc
           /\ Js.div (rect_width box) w = Some qw
           /\ Js.div (rect_height box) h = Some qh
           /\ Js.ext_min (Js.ext_min2 qw qh) (3 # 2) = Js.Fin sc
           /\ sc <= 3 # 2
           /\ (~ w == 0 -> sc <= rect_width box / w)
           /\ (~ h == 0 -> sc <= rect_height box / h)
           /\ (~ w == 0 -> ~ h == 0 ->
               sc = (3 # 2) \/ sc = rect_width box / w
               \/ sc = rect_height box / h)
           /\ (forall el, In el (elements s) ->
                          lox <= x el /\ rightEdge el <= hix
                          /\ loy <= y el /\ bottomEdge el <= hiy)
           /\ In lox (map x (elements s))
           /\ In hix (map rightEdge (elements s))
           /\ In loy (map y (elements s))
           /\ In hiy (map bottomEdge (elements s)).
Proof.
  intros s. split; [|split].
  { intros E. unfold handleZoomToFit. now rewrite E. }
  { intros Hne Hbox. unfold handleZoomToFit.
    destruct (elements s) as [|e1 rest] eqn:Hels; [contradiction|].
    change (List.length (e1 :: rest) =? 0)%nat with false. cbv iota.
    rewrite zoomBounds, Hbox. reflexivity. }
  intros box e1 rest Hels Hbox Hcw Hch lox hix loy hiy w h.
  assert (Hrun : forall qw qh sc,
             Js.div (rect_width box) w = Some qw ->
             Js.div (rect_height box) h = Some qh ->
             Js.ext_min (Js.ext_min2 qw qh) (3 # 2) = Js.Fin sc ->
             handleZoomToFit s
             = Some (setViewTransform s
                       (mkViewTransform
                          ((rect_width box - w * sc) / 2 - (lox - 100) * sc)
                          ((rect_height box - h * sc) / 2
                           - (loy - 100) * sc)
                          sc))).
  { intros qw qh sc Hqw Hqh Hsc. unfold handleZoomToFit. rewrite Hels.
    change (List.length (e1 :: rest) =? 0)%nat with false. cbv iota.
    rewrite zoomBounds. fold lox hix loy hiy. cbv zeta. rewrite Hbox.
    fold w h. rewrite Hqw, Hqh, Hsc. reflexivity. }
  assert (Hbounds :
            (forall el, In el (e1 :: rest) ->
                        lox <= x el /\ rightEdge el <= hix
                        /\ loy <= y el /\ bottomEdge el <= hiy)
            /\ In lox (map x (e1 :: rest))
            /\ In hix (map rightEdge (e1 :: rest))
            /\ In loy (map y (e1 :: rest))
            /\ In hiy (map bottomEdge (e1 :: rest))).
  { split.
    - intros el Hel.
      destruct (min_list_lower (map x rest) (x e1)) as [Ha0 Ha].
      destruct (max_list_upper (map rightEdge rest) (rightEdge e1))
        as [Hb0 Hb].
      destruct (min_list_lower (map y rest) (y e1)) as [Hc0 Hc].
      destruct (max_list_upper (map bottomEdge rest) (bottomEdge e1))
        as [Hd0 Hd].
      destruct Hel as [<- | Hel]; [now repeat split|].
      repeat split;
        [apply Ha; now apply in_map | apply Hb; now apply in_map
        | apply Hc; now apply in_map | apply Hd; now apply in_map].
    - split; [apply (min_list_attained (map x rest) (x e1))|].
      split; [apply (max_list_attained (map rightEdge rest) (rightEdge e1))|].
      split; [apply (min_list_attained (map y rest) (y e1))|].
      apply (max_list_attained (map bottomEdge rest) (bottomEdge e1)). }
  rewrite Hels.
  destruct (Js_div_pos (rect_width box) w Hcw) as [[Ew Hqw] | [Ew Hqw]];
    destruct (Js_div_pos (rect_height box) h Hch) as [[Eh Hqh] | [Eh Hqh]];
    [ pose (sc := 3 # 2)
    | pose (sc := Qmin (rect_height box / h) (3 # 2))
    | pose (sc := Qmin (rect_width box / w) (3 # 2))
    | pose (sc := Qmin (Qmin (rect_width box / w) (rect_height box / h))
                    (3 # 2)) ];
    eexists; exists sc; eexists; eexists;
    (split; [apply (Hrun _ _ sc Hqw Hqh); reflexivity|]);
    subst sc;
    cbn [elements history historyStep selectedIds viewTransform
         setViewTransform Js.ext_min Js.ext_min2];
    (split; [exact Hels|]);
    repeat (split; [reflexivity|]);
    (split; [exact Hqw|]); (split; [exact Hqh|]);
    (split; [reflexivity|]).
  - split; [apply Qle_refl|].
    split; [intros N; contradiction|].
    split; [intros N; contradiction|].
    split; [intros N; contradiction | exact Hbounds].
  - split; [apply Q.le_min_r|].
    split; [intros N; contradiction|].
    split; [intros _; apply Q.le_min_l|].
    split; [intros N; contradiction | exact Hbounds].
  - split; [apply Q.le_min_r|].
    split; [intros _; apply Q.le_min_l|].
    split; [intros N; contradiction|].
    split; [intros _ N; contradiction | exact Hbounds].
  - split; [apply Q.le_min_r|].
    split; [intros _; eapply Qle_trans;
            [apply Q.le_min_l | apply Q.le_min_l]|].
    split; [intros _; eapply Qle_trans;
            [apply Q.le_min_l | apply Q.le_min_r]|].
    split; [|exact Hbounds].
    intros _ _.
    destruct (Qmin_cases (Qmin (rect_width box / w) (rect_height box / h))
                (3 # 2)) as [E | E]; rewrite E; [|now left].
    right.
    destruct (Qmin_cases (rect_width box / w) (rect_height box / h))
      as [E' | E']; rewrite E'; [now left | now right].
Qed.

Lemma handleZoomToFit_view_witness :
  let a := exampleBox "a" 0 0 100 100 1 in
  let b := exampleBox "b" 1000 500 200 100 2 in
  exists s',
    handleZoomToFit (boardWith [a; b] []) = Some s'
    /\ scale (viewTransform s') == 4 # 7
    /\ vt_x (viewTransform s') == 400 / 7.
Proof.
  intros a b.
  destruct (handleZoomToFit_view (boardWith [a; b] [])) as (_ & _ & H).
  destruct (H (mkDOMRect 0 0 800 600) a [b])
    as (s' & sc & qw & qh & Hrun & _ & _ & _ & _ & Hview & Hqw & Hqh & Hsc
        & _);
    [reflexivity | reflexivity | reflexivity | reflexivity |].
  exists s'. split; [exact Hrun|].
  vm_compute in Hqw, Hqh. injection Hqw as <-. injection Hqh as <-.
  vm_compute in Hsc. injection Hsc as <-.
  rewrite Hview. split; reflexivity.
Defined.

(** ** Elements placed at the centre of the view *)

Local Open Scope Q_scope.





(** ** Appearance *)

(** X18.  The colour picker.  [handleColorChange] recolours exactly the
    selected elements: a selected [text] element gets the colour as
    [color] and keeps every other field; any other selected element gets
    it as [color] and as [fillColor] and keeps every other field; an
    element that is not selected is unchanged.  Order, ids and selection
    are kept.  One snapshot is pushed in every case, also when nothing is
    selected and the store is therefore unchanged. *)
Theorem handleColorChange_selected :
  forall (s : AppState) (c : string),
    let s' := handleColorChange s c in
    history s' = firstn (historyStep s + 1) (history s) ++ [elements s']
    /\ selectedIds s' = selectedIds s
    /\ map id (elements s') = map id (elements s)
    /\ (selectedIds s = [] -> elements s' = elements s)
    /\ forall k el,
         nth_error (elements s) k = Some el ->
         exists el',
           nth_error (elements s') k = Some el'
           /\ (Js.mem (id el) (selectedIds s) = false -> el' = el)
           /\ (Js.mem (id el) (selectedIds s) = true ->
               ElementType_is (type el) text = true ->
               el' = mkElement (id el) (type el) (x el) (y el) (width el)
                       (height el) (content el) (Some c) (fillColor el)
                       (strokeColor el) (textColor el) (fontSize el)
                       (points el) (strokeWidth el) (rotation el)
                       (zIndex el))
           /\ (Js.mem (id el) (selectedIds s) = true ->
               ElementType_is (type el) text = false ->
               el' = mkElement (id el) (type el) (x el) (y el) (width el)
                       (height el) (content el) (Some c) (Some c)
                       (strokeColor el) (textColor el) (fontSize el)
                       (points el) (strokeWidth el) (rotation el)
                       (zIndex el)).
Proof.
  intros s c s'. unfold s', handleColorChange.
  rewrite commitElements_history, commitElements_elements,
    commitElements_selectedIds.
  split; [reflexivity|]. split; [reflexivity|]. split.
  { rewrite map_map. apply map_ext. intros el.
    destruct (Js.mem (id el) (selectedIds s)); [|reflexivity].
    destruct (ElementType_is (type el) text); reflexivity. }
  split.
  { intros ->. rewrite <- (List.map_id (elements s)) at 2.
    apply map_ext. reflexivity. }
  intros k el Hk. rewrite nth_error_map, Hk. cbn [option_map].
  eexists. split; [reflexivity|].
  destruct (Js.mem (id el) (selectedIds s));
    destruct (ElementType_is (type el) text);
    repeat split; intros; try discriminate; try reflexivity;
    destruct el; reflexivity.
Qed.

(** X19.  The font size buttons of the toolbar.  They do nothing unless
    exactly one element of the store is selected and it has a non-zero
    [fontSize].  Otherwise the elements with the id of the selected one
    get the old size plus the step, clamped to the range from 12 to 128,
    as [fontSize] and keep every other field, and one snapshot is
    pushed. *)
Theorem handleFontSizeChange_clamped :
  forall (s : AppState) (delta : Q),
    (selectedElement s = None -> handleFontSizeChange s delta = s)
    /\ (forall el, selectedElement s = Some el ->
                   Js.truthy (fontSize el) = false ->
                   handleFontSizeChange s delta = s)
    /\ forall el f,
         selectedElement s = Some el ->
         fontSize el = Some f -> ~ f == 0 -> id el <> ""%string ->
         let s' := handleFontSizeChange s delta in
         exists n,
           12 <= n /\ n <= 128
           /\ (12 <= f + delta -> f + delta <= 128 -> n == f + delta)
           /\ (f + delta <= 12 -> n == 12)
           /\ (128 <= f + delta -> n == 128)
           /\ elements s'
              = map_id (id el)
                  (fun e =>
                     mkElement (id e) (type e) (x e) (y e) (width e)
                       (height e) (content e) (color e) (fillColor e)
                       (strokeColor e) (textColor e) (Some n) (points e)
                       (strokeWidth e) (rotation e) (zIndex e))
                  (elements s)
           /\ history s'
              = firstn (historyStep s + 1) (history s) ++ [elements s']
           /\ selectedIds s' = selectedIds s.
Proof.
  intros s delta. unfold handleFontSizeChange. split.
  { intros ->. reflexivity. }
  split.
  { intros el -> ->. reflexivity. }
  intros el f -> Hf Hnz Hid.
  assert (Ez : Qeq_bool f 0 = false).
  { apply not_true_is_false. intros F. apply Qeq_bool_iff in F.
    contradiction. }
  cbv zeta. rewrite Hf. cbn [Js.truthy Js.or_else]. rewrite Ez.
  cbn [negb]. unfold handleElementUpdate.
  destruct (String.eqb_spec (id el) ""); [contradiction|].
  rewrite commitElements_history, commitElements_elements,
    commitElements_selectedIds.
  exists (Qmax 12 (Qmin 128 (f + delta))).
  split; [apply Q.le_max_l|].
  split.
  { apply Q.max_lub; [discriminate | apply Q.le_min_l]. }
  split.
  { intros H1 H2. rewrite Q.min_r by exact H2. now rewrite Q.max_r. }
  split.
  { intros H1. rewrite Q.max_l; [reflexivity|].
    eapply Qle_trans; [apply Q.le_min_r | exact H1]. }
  split.
  { intros H1. rewrite Q.min_l by exact H1. now rewrite Q.max_r. }
  split; [|split; reflexivity].
  unfold map_id. apply map_ext. intros e.
  destruct (String.eqb (id e) (id el)); reflexivity.
Qed.

Lemma handleFontSizeChange_clamped_witness :
  let a := exampleBox "a" 0 0 50 50 1 in
  let s := boardWith [a] ["a"%string] in
  exists n,
    n == 128
    /\ option_map fontSize (nth_error
                              (elements (handleFontSizeChange s 200)) 0)
       = Some (Some n).
Proof.
  intros a s.
  destruct (handleFontSizeChange_clamped s 200) as (_ & _ & H).
  destruct (H a 18) as (n & _ & _ & _ & _ & Hhi & Hels & _);
    [reflexivity | reflexivity | discriminate | discriminate |].
  exists n. split; [apply Hhi; discriminate|].
  rewrite Hels. reflexivity.
Defined.

(** ** A freehand stroke from pointer-down to pointer-up *)

Lemma map_id_last_fresh (base : list BoardElement) (el : BoardElement)
  (f : BoardElement -> BoardElement) :
  ~ In (id el) (map id base) ->
  map_id (id el) f (base ++ [el]) = base ++ [f el].
Proof.
  intros Hfresh. unfold map_id. rewrite map_app. cbn [map].
  rewrite String.eqb_refl. f_equal.
  rewrite <- (List.map_id base) at 2. apply map_ext_in. intros a Ha.
  destruct (String.eqb_spec (id a) (id el)) as [E | E]; [|reflexivity].
  exfalso. apply Hfresh. rewrite <- E. now apply in_map.
Qed.

Lemma last_Some_snoc (base : list BoardElement) (el : BoardElement) :
  last (map Some (base ++ [el])) None = Some el.
Proof. rewrite map_app. cbn [map]. apply last_last. Qed.

(** One captured point: the stroke, which is the last element, gets the
    world position of the pointer appended. *)
Lemma draw_move (sqrt : Q -> Q) (atan2deg : Q -> Q -> Q) (s : AppState)
  (base : list BoardElement) (el : BoardElement) (pts : list Point)
  (e : MouseEvent) :
  isPanning s = false ->
  isRotating (rotateInfo s) = false -> isResizing (resizeInfo s) = false ->
  creationStart s = None -> isDrawing s = true ->
  elements s = base ++ [el] -> ~ In (id el) (map id base) ->
  points el = Some pts ->
  exists el',
    handleMouseMove sqrt atan2deg s e
    = Some (setElements s (base ++ [el']))
    /\ id el' = id el /\ type el' = type el /\ zIndex el' = zIndex el
    /\ points el' = Some (pts ++ [getMousePos s e]).
Proof.
  intros Hpan Hrot Hres Hcre Hdraw Hels Hfresh Hpts.
  eexists. split.
  { unfold handleMouseMove.
    rewrite Hpan, Hrot, Hres, Hcre, Hdraw, Hels, last_Some_snoc, Hpts.
    rewrite map_id_last_fresh by exact Hfresh. reflexivity. }
  repeat split; reflexivity.
Qed.

Lemma draw_moves (uuidv4 : nat -> string) (sqrt : Q -> Q)
  (atan2deg : Q -> Q -> Q) (moves : list MouseEvent) :
  forall (s : AppState) (base : list BoardElement) (el : BoardElement)
         (pts : list Point) (rest : list Command),
    isPanning s = false ->
    isRotating (rotateInfo s) = false -> isResizing (resizeInfo s) = false ->
    creationStart s = None -> isDrawing s = true ->
    elements s = base ++ [el] -> ~ In (id el) (map id base) ->
    points el = Some pts ->
    exists el',
      runCommands uuidv4 sqrt atan2deg s
        (map (fun e => Pointer (MouseMove e)) moves ++ rest)
      = runCommands uuidv4 sqrt atan2deg (setElements s (base ++ [el']))
          rest
      /\ id el' = id el /\ type el' = type el /\ zIndex el' = zIndex el
      /\ points el' = Some (pts ++ map (getMousePos s) moves).
Proof.
  induction moves as [|e moves IH];
    intros s base el pts rest Hpan Hrot Hres Hcre Hdraw Hels Hfresh Hpts.
  - exists el. cbn [map app]. rewrite app_nil_r, <- Hels.
    split; [destruct s; reflexivity|]. repeat split; try reflexivity.
    exact Hpts.
  - destruct (draw_move sqrt atan2deg s base el pts e Hpan Hrot Hres Hcre
                Hdraw Hels Hfresh Hpts)
      as (el1 & Hmove & Hid1 & Hty1 & Hz1 & Hpts1).
    destruct (IH (setElements s (base ++ [el1])) base el1
                (pts ++ [getMousePos s e]) rest Hpan Hrot Hres Hcre Hdraw
                eq_refl)
      as (el2 & Hrun & Hid2 & Hty2 & Hz2 & Hpts2);
      [now rewrite Hid1 | exact Hpts1 |].
    exists el2. split.
    { cbn [map app runCommands execute dispatch]. rewrite Hmove.
      exact Hrun. }
    rewrite Hid2, Hty2, Hz2. repeat split; try assumption.
    rewrite Hpts2, <- app_assoc. reflexivity.
Qed.

Lemma normalizeDrawing_stroke (el : BoardElement) (p : Point)
  (ps : list Point) :
  points el = Some (p :: ps) ->
  let n := normalizeDrawing el in
  let loX := Js.min_list (px p) (map px ps) in
  let loY := Js.min_list (py p) (map py ps) in
  let hiX := Js.max_list (px p) (map px ps) in
  let hiY := Js.max_list (py p) (map py ps) in
  id n = id el /\ type n = type el /\ zIndex n = zIndex el
  /\ x n = loX - 5 /\ y n = loY - 5
  /\ width n = Some (Qmax 20 (hiX - loX + 5 * 2))
  /\ height n = Some (Qmax 20 (hiY - loY + 5 * 2))
  /\ points n
     = Some (map (fun v => mkPoint (px v - loX + 5) (py v - loY + 5))
               (p :: ps))
  /\ Forall (fun v => loX <= px v /\ px v <= hiX
                      /\ loY <= py v /\ py v <= hiY) (p :: ps).
Proof.
  intros Hpts n loX loY hiX hiY. unfold n, normalizeDrawing. rewrite Hpts.
  cbn [width height points id type zIndex x y].
  repeat (split; [reflexivity|]).
  apply Forall_forall. intros q Hq.
  destruct (min_list_lower (map px ps) (px p)) as [Hx0 Hx].
  destruct (max_list_upper (map px ps) (px p)) as [HX0 HX].
  destruct (min_list_lower (map py ps) (py p)) as [Hy0 Hy].
  destruct (max_list_upper (map py ps) (py p)) as [HY0 HY].
  destruct Hq as [<- | Hq]; [now repeat split|].
  repeat split; [apply Hx | apply HX | apply Hy | apply HY]; now apply in_map.
Qed.

(** X20.  A freehand stroke from pointer-down to pointer-up.  With a
    drawing tool active, no gesture in progress, a non-zero scale and an
    unused next identifier, a left pointer-down, any number of pointer
    moves and the pointer-up append exactly one element to the store and
    push exactly one snapshot.  The element has the next identifier and the
    type of the tool.  Its geometry is computed from the world positions of
    the pointer events, in the order of the events: with [loX], [hiX],
    [loY] and [hiY] the least and greatest coordinates among them, which
    bound every position, the element is at [(loX - 5, loY - 5)], is
    [max 20 (hiX - loX + 5 * 2)] wide and [max 20 (hiY - loY + 5 * 2)]
    high, hence at least 20 each way, and holds for each event the point
    [(px - loX + 5, py - loY + 5)], whose coordinates are at least 5. *)
Theorem stroke_gesture_normalized :
  forall (uuidv4 : nat -> string) (sqrt : Q -> Q) (atan2deg : Q -> Q -> Q)
         (s : AppState) (e0 : MouseEvent) (moves : list MouseEvent),
    isDrawingMode s = true ->
    button e0 <> 2%Z ->
    isPanning s = false ->
    isRotating (rotateInfo s) = false -> isResizing (resizeInfo s) = false ->
    creationStart s = None ->
    ~ scale (viewTransform s) == 0 ->
    ~ In (uuidv4 (uuidCount s)) (map id (elements s)) ->
    let world := map (getMousePos s) (e0 :: moves) in
    let p0 := getMousePos s e0 in
    let later := map (getMousePos s) moves in
    let loX := Js.min_list (px p0) (map px later) in
    let loY := Js.min_list (py p0) (map py later) in
    let hiX := Js.max_list (px p0) (map px later) in
    let hiY := Js.max_list (py p0) (map py later) in
    let w := Qmax 20 (hiX - loX + 5 * 2) in
    let h := Qmax 20 (hiY - loY + 5 * 2) in
    exists sf el,
      runCommands uuidv4 sqrt atan2deg s
        (Pointer (MouseDown e0)
         :: map (fun e => Pointer (MouseMove e)) moves
            ++ [Pointer MouseUp])
      = Some sf
      /\ elements sf = elements s ++ [el]
      /\ history sf
         = firstn (historyStep s + 1) (history s) ++ [elements sf]
      /\ isDrawing sf = false
      /\ id el = uuidv4 (uuidCount s)
      /\ type el = Tool (activeTool s)
      /\ x el = loX - 5 /\ y el = loY - 5
      /\ width el = Some w /\ height el = Some h
      /\ 20 <= w /\ 20 <= h
      /\ points el
         = Some (map (fun v => mkPoint (px v - loX + 5) (py v - loY + 5))
                   world)
      /\ Forall (fun v => loX <= px v /\ px v <= hiX
                          /\ loY <= py v /\ py v <= hiY
                          /\ 5 <= px v - loX + 5 /\ 5 <= py v - loY + 5)
           world.
Proof.
  intros uuidv4 sqrt atan2deg s e0 moves Hmode Hbtn Hpan Hrot Hres Hcre
    Hscale Hfresh world p0 later loX loY hiX hiY w h.
  set (s1 := handleMouseDown uuidv4 s e0).
  set (el0 := newDrawing uuidv4 s (getMousePos s e0)).
  assert (Hsel : ToolType_eqb (activeTool s) select = false).
  { unfold isDrawingMode in Hmode. destruct (activeTool s);
      try reflexivity; discriminate Hmode. }
  assert (Hs1 : elements s1 = elements s ++ [el0]
                /\ isPanning s1 = false
                /\ isRotating (rotateInfo s1) = false
                /\ isResizing (resizeInfo s1) = false
                /\ creationStart s1 = None /\ isDrawing s1 = true
                /\ history s1 = history s /\ historyStep s1 = historyStep s
                /\ forall e, getMousePos s1 e = getMousePos s e).
  { unfold s1, handleMouseDown.
    apply Z.eqb_neq in Hbtn. rewrite Hbtn, Hres, Hrot, Hsel, Hmode.
    cbn [orb andb]. destruct (contextMenuOpen s);
      cbn; repeat split; assumption. }
  destruct Hs1 as (Hels1 & Hpan1 & Hrot1 & Hres1 & Hcre1 & Hdraw1 & Hh1
                   & Hst1 & Hpos1).
  destruct (draw_moves uuidv4 sqrt atan2deg moves s1 (elements s) el0
              [getMousePos s e0] [Pointer MouseUp]
              Hpan1 Hrot1 Hres1 Hcre1 Hdraw1 Hels1 Hfresh eq_refl)
    as (el1 & Hrun & Hid1 & Hty1 & Hz1 & Hpts1).
  rewrite (map_ext _ _ Hpos1) in Hpts1.
  change ([getMousePos s e0] ++ map (getMousePos s) moves)
    with (p0 :: later) in Hpts1.
  destruct (normalizeDrawing_stroke el1 p0 later Hpts1)
    as (Hidn & Htyn & _ & Hx & Hy & Hw & Hh & Hloc & Hall).
  exists (endGesture
            (commitElements (setElements s1 (elements s ++ [el1]))
               (elements s ++ [normalizeDrawing el1]))),
    (normalizeDrawing el1).
  split.
  { cbn [runCommands execute dispatch]. fold s1. rewrite Hrun.
    cbn [runCommands execute dispatch]. unfold handleMouseUp.
    cbn [isDrawing elements setElements]. rewrite Hdraw1.
    rewrite last_Some_snoc, Hpts1.
    rewrite map_id_last_fresh by (rewrite Hid1; exact Hfresh).
    reflexivity. }
  split.
  { cbn [elements endGesture set_gesture].
    now rewrite commitElements_elements. }
  split.
  { cbn [history elements endGesture set_gesture].
    rewrite commitElements_history, commitElements_elements.
    cbn [history historyStep setElements]. now rewrite Hh1, Hst1. }
  split; [reflexivity|].
  split; [now rewrite Hidn, Hid1|].
  split; [now rewrite Htyn, Hty1|].
  split; [exact Hx|]. split; [exact Hy|].
  split; [exact Hw|]. split; [exact Hh|].
  split; [apply Q.le_max_l|]. split; [apply Q.le_max_l|].
  split; [exact Hloc|].
  change world with (p0 :: later).
  eapply Forall_impl; [|exact Hall].
  intros v (A & B & C & D). fold loX loY hiX hiY in A, B, C, D.
  repeat split; try assumption; lra.
Qed.

Lemma stroke_gesture_normalized_witness :
  let s := handleSelectTool (initialState exampleRect) pen in
  exists sf el,
    runCommands unaryId (fun q => q) (fun _ _ => 0) s
      [Pointer (MouseDown (leftButtonAt 10 10));
       Pointer (MouseMove (leftButtonAt 50 10));
       Pointer (MouseMove (leftButtonAt 50 50));
       Pointer MouseUp]
    = Some sf
    /\ elements sf = [el] /\ type el = Tool pen
    /\ x el == 5 /\ y el == 5
    /\ width el = Some (Qmax 20 (50 - 10 + 5 * 2)).
Proof.
  intros s.
  destruct (stroke_gesture_normalized unaryId (fun q => q) (fun _ _ => 0) s
              (leftButtonAt 10 10) [leftButtonAt 50 10; leftButtonAt 50 50])
    as (sf & el & Hrun & Hels & _ & _ & _ & Hty & Hx & Hy & Hw & _);
    [reflexivity | discriminate | reflexivity | reflexivity | reflexivity
    | reflexivity | discriminate | intros [] |].
  exists sf, el. split; [exact Hrun|]. split; [exact Hels|].
  split; [exact Hty|]. rewrite Hx, Hy.
  split; [reflexivity|]. split; [reflexivity|].
  rewrite Hw. vm_compute. reflexivity.
Defined.

(** ** The command palette *)

Local Open Scope Z_scope.

Lemma palette_down_steps {A : Type} (cmds : list A)
  (st : CommandPalette.State) (i : Z) (k : nat) :
  let n := Z.of_nat (List.length cmds) in
  CommandPalette.selectedIndex st = Some i -> 0 <= i < n ->
  Nat.iter k (fun t => fst (CommandPalette.handleKeyDown cmds t
                              CommandPalette.ArrowDown)) st
  = CommandPalette.mkState (CommandPalette.query st)
      (Some ((i + Z.of_nat k) mod n)) (CommandPalette.isOpen st).
Proof.
  intros n Hidx Hrange. induction k as [|k IH].
  - cbn [Nat.iter Z.of_nat]. rewrite Z.add_0_r, Z.mod_small by exact Hrange.
    destruct st. cbn in Hidx |- *. now rewrite Hidx.
  - rewrite Nat.iter_succ, IH.
    unfold CommandPalette.handleKeyDown, CommandPalette.remainder.
    cbn [fst CommandPalette.query CommandPalette.selectedIndex
         CommandPalette.isOpen option_map].
    fold n. replace (n =? 0) with false by (symmetry; apply Z.eqb_neq; lia).
    rewrite Z.rem_mod_nonneg;
      [| pose proof (Z.mod_pos_bound (i + Z.of_nat k) n); lia | lia].
    rewrite Zplus_mod_idemp_l. do 3 f_equal. lia.
Qed.

(** X21.  Arrow keys in the command palette.  With at least one command
    matching and the highlighted index inside the list, [ArrowDown] moves
    the highlight to the next command and from the last to the first,
    [ArrowUp] to the previous one and from the first to the last; the two
    undo each other, and as many [ArrowDown] as there are matches bring
    the highlight back.  The index stays inside the list.  [Enter] runs
    the highlighted command and closes the palette; typing moves the
    highlight to the first match.  With no command matching, an arrow key
    turns the index into [NaN] and [Enter] runs nothing and leaves the
    palette open. *)
Theorem palette_navigation :
  forall (A : Type) (cmds : list A) (st : CommandPalette.State),
    let n := Z.of_nat (List.length cmds) in
    let press := fun t k => fst (CommandPalette.handleKeyDown cmds t k) in
    (forall i, cmds <> [] ->
               CommandPalette.selectedIndex st = Some i -> 0 <= i < n ->
       CommandPalette.selectedIndex (press st CommandPalette.ArrowDown)
       = Some (if i + 1 =? n then 0 else i + 1)
       /\ CommandPalette.selectedIndex (press st CommandPalette.ArrowUp)
          = Some (if i =? 0 then n - 1 else i - 1)
       /\ press (press st CommandPalette.ArrowDown) CommandPalette.ArrowUp
          = st
       /\ press (press st CommandPalette.ArrowUp) CommandPalette.ArrowDown
          = st
       /\ Nat.iter (List.length cmds)
            (fun t => press t CommandPalette.ArrowDown) st = st
       /\ exists c,
            nth_error cmds (Z.to_nat i) = Some c
            /\ CommandPalette.handleKeyDown cmds st CommandPalette.Enter
               = (CommandPalette.onClose st, Some c))
    /\ (forall value,
           CommandPalette.handleKeyDown cmds
             (CommandPalette.handleQueryChange st value)
             CommandPalette.Enter
           = match cmds with
             | c :: _ =>
                 (CommandPalette.onClose
                    (CommandPalette.handleQueryChange st value), Some c)
             | [] => (CommandPalette.handleQueryChange st value, None)
             end)
    /\ (cmds = [] ->
        CommandPalette.selectedIndex (press st CommandPalette.ArrowDown)
        = None
        /\ CommandPalette.selectedIndex (press st CommandPalette.ArrowUp)
           = None
        /\ CommandPalette.handleKeyDown cmds st CommandPalette.Enter
           = (st, None)).
Proof.
  intros A cmds st n press. split; [|split].
  - intros i Hne Hidx Hrange.
    assert (Hn0 : (n =? 0) = false) by (apply Z.eqb_neq; lia).
    assert (Hdown : press st CommandPalette.ArrowDown
                    = CommandPalette.mkState (CommandPalette.query st)
                        (Some (if i + 1 =? n then 0 else i + 1))
                        (CommandPalette.isOpen st)).
    { unfold press, CommandPalette.handleKeyDown, CommandPalette.remainder.
      cbn [fst]. rewrite Hidx. cbn [option_map]. fold n. rewrite Hn0.
      do 2 f_equal. destruct (Z.eqb_spec (i + 1) n) as [E | E].
      - rewrite E. apply Z.rem_same. lia.
      - apply Z.rem_small. lia. }
    assert (Hup : press st CommandPalette.ArrowUp
                  = CommandPalette.mkState (CommandPalette.query st)
                      (Some (if i =? 0 then n - 1 else i - 1))
                      (CommandPalette.isOpen st)).
    { unfold press, CommandPalette.handleKeyDown, CommandPalette.remainder.
      cbn [fst]. rewrite Hidx. cbn [option_map]. fold n. rewrite Hn0.
      do 2 f_equal. destruct (Z.eqb_spec i 0) as [E | E].
      - subst i. replace (0 - 1 + n) with (n - 1) by lia.
        apply Z.rem_small. lia.
      - rewrite Z.rem_mod_nonneg by lia.
        replace (i - 1 + n) with (i - 1 + 1 * n) by lia.
        rewrite Z.mod_add by lia. apply Z.mod_small. lia. }
    split; [now rewrite Hdown|]. split; [now rewrite Hup|].
    split.
    { rewrite Hdown.
      unfold press, CommandPalette.handleKeyDown, CommandPalette.remainder.
      cbn [fst CommandPalette.query CommandPalette.selectedIndex
           CommandPalette.isOpen option_map].
      fold n. rewrite Hn0. destruct st as [q idx o]. cbn in Hidx |- *.
      subst idx. do 2 f_equal.
      destruct (Z.eqb_spec (i + 1) n) as [E | E].
      - replace (0 - 1 + n) with i by lia. apply Z.rem_small. lia.
      - rewrite Z.rem_mod_nonneg by lia.
        replace (i + 1 - 1 + n) with (i + 1 * n) by lia.
        rewrite Z.mod_add by lia. apply Z.mod_small. lia. }
    split.
    { rewrite Hup.
      unfold press, CommandPalette.handleKeyDown, CommandPalette.remainder.
      cbn [fst CommandPalette.query CommandPalette.selectedIndex
           CommandPalette.isOpen option_map].
      fold n. rewrite Hn0. destruct st as [q idx o]. cbn in Hidx |- *.
      subst idx. do 2 f_equal.
      destruct (Z.eqb_spec i 0) as [E | E].
      - replace (n - 1 + 1) with n by lia. rewrite Z.rem_same by lia.
        lia.
      - replace (i - 1 + 1) with i by lia. apply Z.rem_small. lia. }
    split.
    { unfold press.
      rewrite (palette_down_steps cmds st i (List.length cmds) Hidx Hrange).
      fold n. replace (i + n) with (i + 1 * n) by lia.
      rewrite Z.mod_add by lia. rewrite Z.mod_small by lia.
      destruct st. cbn in Hidx |- *. now rewrite Hidx. }
    destruct (nth_error cmds (Z.to_nat i)) as [c|] eqn:Hnth.
    + exists c. split; [reflexivity|].
      unfold CommandPalette.handleKeyDown, CommandPalette.item.
      rewrite Hidx. replace (i <? 0) with false
        by (symmetry; apply Z.ltb_ge; lia).
      now rewrite Hnth.
    + exfalso. apply nth_error_None in Hnth. unfold n in Hrange. lia.
  - intros value. destruct cmds; reflexivity.
  - intros ->. unfold press, CommandPalette.handleKeyDown,
      CommandPalette.remainder, CommandPalette.item.
    cbn [fst List.length Z.of_nat Z.eqb].
    repeat split.
    + destruct (CommandPalette.selectedIndex st); reflexivity.
    + destruct (CommandPalette.selectedIndex st); reflexivity.
    + destruct (CommandPalette.selectedIndex st) as [v|]; [|reflexivity].
      destruct (v <? 0); [reflexivity|].
      destruct (Z.to_nat v); reflexivity.
Qed.

Lemma palette_navigation_witness :
  let st := CommandPalette.mkState "" (Some 2) true in
  let cmds := ["Select Tool"; "Pen"; "Highlighter"]%string in
  CommandPalette.selectedIndex
    (fst (CommandPalette.handleKeyDown cmds st CommandPalette.ArrowDown))
  = Some 0
  /\ CommandPalette.handleKeyDown cmds st CommandPalette.Enter
     = (CommandPalette.onClose st, Some "Highlighter"%string).
Proof.
  intros st cmds.
  destruct (palette_navigation string cmds st) as [H _].
  destruct (H 2) as (Hdown & _ & _ & _ & _ & c & Hc & Henter);
    [discriminate | reflexivity | cbn; lia |].
  split; [exact Hdown|].
  rewrite Henter. injection Hc as <-. reflexivity.
Defined.

(** ** A resize from grab to release *)

Local Open Scope Q_scope.

Lemma floor20 (a : Q) : (if Js.ltb a 20 then 20 else a) == Qmax 20 a.
Proof.
  destruct (Js.ltb a 20) eqn:E.
  - apply Js_ltb_true in E. rewrite Q.max_l; [reflexivity | lra].
  - apply Js_ltb_false in E. now rewrite Q.max_r.
Qed.

(** X23.  A resize from grab to release.  Grabbing a handle does nothing
    unless exactly one id is selected and its element has a non-zero width
    and height.  Otherwise a following pointer move resizes the elements
    with that id from the geometry at the grab and the world displacement
    of the pointer since the grab: a handle without [w] keeps [x] and one
    without [n] keeps [y]; with [e] the width is the old width plus the
    horizontal displacement and with [s] the height is the old height plus
    the vertical one, each raised to 20 when it would be smaller; a handle
    with neither [e] nor [w] keeps the width, and one with neither [n] nor
    [s] the height, again raised to 20.  The move leaves the history
    alone, and the release pushes the resized store as one snapshot and
    ends the resize. *)
Theorem resize_gesture_sides :
  forall (sqrt : Q -> Q) (atan2deg : Q -> Q -> Q) (s : AppState)
         (e0 e1 : MouseEvent) (d : string),
    ((forall sid, selectedIds s <> [sid]) -> handleResizeStart s e0 d = s)
    /\ (forall sid el,
           selectedIds s = [sid] -> find_id sid (elements s) = Some el ->
           Js.truthy (width el) && Js.truthy (height el) = false ->
           handleResizeStart s e0 d = s)
    /\ forall sid el w0 h0,
         isPanning s = false -> isRotating (rotateInfo s) = false ->
         isDrawing s = false -> creationStart s = None ->
         selectedIds s = [sid] -> find_id sid (elements s) = Some el ->
         width el = Some w0 -> height el = Some h0 ->
         ~ w0 == 0 -> ~ h0 == 0 ->
         In d resizeDirections ->
         let s1 := handleResizeStart s e0 d in
         let dx := px (getMousePos s e1) - px (getMousePos s e0) in
         let dy := py (getMousePos s e1) - py (getMousePos s e0) in
         exists s2 s3 nx ny nw nh,
           handleMouseMove sqrt atan2deg s1 e1 = Some s2
           /\ handleMouseUp s2 = Some s3
           /\ elements s2
              = map_id sid (fun t => with_size (with_xy t nx ny) nw nh)
                  (elements s)
           /\ history s2 = history s
           /\ elements s3 = elements s2
           /\ history s3
              = firstn (historyStep s + 1) (history s) ++ [elements s2]
           /\ isResizing (resizeInfo s3) = false
           /\ (Js.includes d "w" = false -> nx = x el)
           /\ (Js.includes d "n" = false -> ny = y el)
           /\ (Js.includes d "e" = true -> nw == Qmax 20 (w0 + dx))
           /\ (Js.includes d "s" = true -> nh == Qmax 20 (h0 + dy))
           /\ (Js.includes d "e" = false -> Js.includes d "w" = false ->
               nw == Qmax 20 w0)
           /\ (Js.includes d "n" = false -> Js.includes d "s" = false ->
               nh == Qmax 20 h0).
Proof.
  intros sqrt atan2deg s e0 e1 d. split; [|split].
  - intros Hno. unfold handleResizeStart.
    destruct (selectedIds s) as [|a [|b l]]; try reflexivity.
    exfalso. now apply (Hno a).
  - intros sid el Hsel Hfind Hfalsy. unfold handleResizeStart.
    now rewrite Hsel, Hfind, Hfalsy.
  - intros sid el w0 h0 Hpan Hrot Hdraw Hcre Hsel Hfind Hw Hh Hw0 Hh0 Hd s1 dx dy.
    assert (Ew : Qeq_bool w0 0 = false).
    { apply not_true_is_false. intros F. apply Qeq_bool_iff in F.
      contradiction. }
    assert (Eh : Qeq_bool h0 0 = false).
    { apply not_true_is_false. intros F. apply Qeq_bool_iff in F.
      contradiction. }
    set (ri := mkResizeInfo true (Some d) (px (getMousePos s e0))
                 (py (getMousePos s e0)) (x el) (y el) w0 h0).
    assert (Hs1 : s1 = set_gesture s (isPanning s) (panStart s)
                         (creationStart s) (dragInfo s) ri (rotateInfo s)
                         (isDrawing s)).
    { unfold s1, handleResizeStart. rewrite Hsel, Hfind, Hw, Hh.
      cbn [Js.truthy Js.or_else]. rewrite Ew, Eh. reflexivity. }
    exists (setElements s1 (map_id sid (resizeElement ri dx dy) (elements s))),
      (endGesture
         (commitElements
            (setElements s1
               (map_id sid (resizeElement ri dx dy) (elements s)))
            (map_id sid (resizeElement ri dx dy) (elements s)))).
    do 4 eexists.
    split.
    { rewrite Hs1. unfold handleMouseMove.
      cbn [isPanning set_gesture rotateInfo resizeInfo selectedIds
           isResizing ri elements].
      rewrite Hpan, Hrot, Hsel. reflexivity. }
    split.
    { rewrite Hs1. unfold handleMouseUp.
      cbn [isDrawing set_gesture setElements creationStart selectedIds
           dragInfo resizeInfo rotateInfo isResizing ri elements].
      rewrite Hdraw, Hcre. now rewrite orb_true_r. }
    split.
    { cbn [elements setElements]. unfold resizeElement. cbv zeta.
      reflexivity. }
    split; [rewrite Hs1; reflexivity|].
    split.
    { cbn [elements endGesture set_gesture].
      now rewrite commitElements_elements. }
    split.
    { cbn [history endGesture set_gesture].
      rewrite commitElements_history. rewrite Hs1. reflexivity. }
    split; [reflexivity|].
    unfold handleHas.
    cbn [handle ri initialX initialY initialWidth initialHeight].
    unfold resizeDirections in Hd.
    repeat (destruct Hd as [<- | Hd]; [cbn [Js.includes]|]);
      try contradiction.
    all: cbn.
    all: repeat split; intros; try discriminate; try reflexivity;
      try apply floor20.
    all: match goal with
         | |- (if ?b then _ else _) = _ => destruct b; reflexivity
         end.
Qed.

Lemma resize_gesture_sides_witness :
  let a := exampleBox "a" 10 10 100 50 1 in
  let s := boardWith [a] ["a"%string] in
  exists s2 nx ny nw nh,
    handleMouseMove (fun q => q) (fun _ _ => 0)
      (handleResizeStart s (leftButtonAt 110 60) "se") (leftButtonAt 140 50)
    = Some s2
    /\ elements s2 = [with_size (with_xy a nx ny) nw nh]
    /\ nx = 10 /\ nw == 130 /\ nh == 40.
Proof.
  intros a s.
  destruct (resize_gesture_sides (fun q => q) (fun _ _ => 0) s
              (leftButtonAt 110 60) (leftButtonAt 140 50) "se")
    as (_ & _ & H).
  destruct (H "a"%string a 100 50)
    as (s2 & s3 & nx & ny & nw & nh & Hmove & _ & Hels & _ & _ & _ & _
        & Hx & _ & Hw & Hh & _);
    try reflexivity; try discriminate.
  { unfold resizeDirections. cbn. tauto. }
  exists s2, nx, ny, nw, nh. split; [exact Hmove|].
  split; [exact Hels|]. split; [now apply Hx|].
  split; [rewrite (Hw eq_refl) | rewrite (Hh eq_refl)]; reflexivity.
Defined.

(** ** A shape from pointer-down to pointer-up *)





(** ** Delete from the context menu *)

Local Open Scope nat_scope.

Lemma context_targets_agree (s : AppState) (elementId : option string) :
  isDrawingMode s = false ->
  let s1 := handleContextMenu s elementId in
  let ids := contextMenuSelection s elementId in
  selectedIds s1 = ids /\ elements s1 = elements s
  /\ history s1 = history s /\ historyStep s1 = historyStep s
  /\ targetIdsOf s1 (menuActionElementId ids) = ids.
Proof.
  intros Hmode. unfold handleContextMenu. rewrite Hmode. cbv zeta.
  repeat (split; [reflexivity|]).
  unfold targetIdsOf, menuActionElementId.
  cbn [selectedIds setContextMenuOpen setSelectedIds].
  destruct (contextMenuSelection s elementId) as [|m rest]; [reflexivity|].
  cbn [hd_error]. destruct (String.eqb m ""); [reflexivity|].
  replace (Js.mem m (m :: rest)) with true
    by (symmetry; apply Js_mem_In; now left).
  reflexivity.
Qed.

(** X25.  Delete from the context menu.  Outside the drawing modes, a
    right click followed by the menu's [delete] removes exactly the
    elements the menu lists (the clicked element alone when it was not
    selected, the selection otherwise), keeps the others in order, clears
    the selection and pushes one snapshot; on a board that showed the
    snapshot under the cursor an undo brings the removed elements back and
    a redo removes them again. *)
Theorem context_menu_delete :
  forall (uuidv4 : nat -> string) (s : AppState)
         (elementId clip : option string),
    isDrawingMode s = false ->
    let s1 := handleContextMenu s elementId in
    let ids := contextMenuSelection s elementId in
    exists s2,
      handleContextMenuAction uuidv4 s1 ADelete
        (menuActionElementId (selectedIds s1)) clip = Some s2
      /\ elements s2
         = filter (fun el => negb (Js.mem (id el) ids)) (elements s)
      /\ (forall el, In el (elements s2) <->
                     In el (elements s) /\ ~ In (id el) ids)
      /\ (forall e, elementId = Some e -> e <> ""%string ->
                    ~ In e (selectedIds s) ->
                    forall el, In el (elements s2) <->
                               In el (elements s) /\ id el <> e)
      /\ selectedIds s2 = []
      /\ history s2
         = firstn (historyStep s + 1) (history s) ++ [elements s2]
      /\ (history_wf s -> synced s ->
          elements (handleUndo s2) = elements s
          /\ elements (handleRedo (handleUndo s2)) = elements s2).
Proof.
  intros uuidv4 s elementId clip Hmode s1 ids.
  destruct (context_targets_agree s elementId Hmode)
    as (Hsel1 & Hels1 & Hh1 & Hst1 & Htarget).
  fold s1 ids in Hsel1, Hels1, Hh1, Hst1, Htarget.
  eexists. split.
  { unfold handleContextMenuAction. rewrite Hsel1, Htarget. reflexivity. }
  rewrite commitElements_elements, commitElements_history,
    commitElements_selectedIds.
  cbn [elements history historyStep selectedIds setSelectedIds].
  rewrite Hels1, Hh1, Hst1.
  split; [reflexivity|].
  assert (Hin : forall el,
             In el (filter (fun el => negb (Js.mem (id el) ids)) (elements s))
             <-> In el (elements s) /\ ~ In (id el) ids).
  { intros el. rewrite filter_In, negb_true_iff, <- not_true_iff_false,
      Js_mem_In. reflexivity. }
  split; [exact Hin|]. split.
  { intros e -> Hne Hnot el. rewrite Hin.
    assert (E : ids = [e]).
    { unfold ids, contextMenuSelection. apply String.eqb_neq in Hne.
      rewrite Hne. destruct (Js.mem e (selectedIds s)) eqn:M;
        [|reflexivity].
      apply Js_mem_In in M. contradiction. }
    rewrite E. cbn [In]. intuition congruence. }
  split; [reflexivity|]. split; [reflexivity|].
  intros Hwf Hsync.
  match goal with
  | |- elements (handleUndo (commitElements ?t ?c)) = _ /\ _ =>
      apply (commit_undo_redo s t c Hwf Hsync);
        [exact Hh1 | exact Hst1 | reflexivity | reflexivity]
  end.
Qed.

Lemma context_menu_delete_witness :
  let a := exampleBox "a" 0 0 50 50 1 in
  let b := exampleBox "b" 100 0 30 30 2 in
  let s := boardWith [a; b] ["a"%string] in
  exists s2,
    handleContextMenuAction unaryId (handleContextMenu s (Some "b"%string))
      ADelete (Some "b"%string) None = Some s2
    /\ elements s2 = [a] /\ elements (handleUndo s2) = [a; b].
Proof.
  intros a b s.
  destruct (context_menu_delete unaryId s (Some "b"%string) None)
    as (s2 & Hrun & Hels & _ & _ & _ & _ & Hundo); [reflexivity|].
  exists s2. split; [exact Hrun|]. split; [exact Hels|].
  apply Hundo; [vm_compute; lia | reflexivity].
Defined.

(** ** Direction and range of the wheel zoom *)

Local Open Scope Q_scope.

(** X26.  Direction and range of the wheel zoom.  Without a container the
    wheel does nothing.  With one, it changes the view only, the new scale
    lies between 0.1 and 5 whatever the old one was, and, for an old scale
    in that range, scrolling up (a negative [deltaY]) never zooms out and
    scrolling down never zooms in; a scroll of no extent keeps the
    scale. *)
Theorem handleWheel_direction :
  forall (s : AppState) (e : WheelEvent),
    (containerRect s = None -> handleWheel s e = s)
    /\ forall box,
         containerRect s = Some box ->
         let s' := handleWheel s e in
         let old := scale (viewTransform s) in
         let new := scale (viewTransform s') in
         elements s' = elements s /\ history s' = history s
         /\ historyStep s' = historyStep s
         /\ selectedIds s' = selectedIds s
         /\ (1 # 10) <= new /\ new <= 5
         /\ ((1 # 10) <= old -> old <= 5 ->
             (deltaY e <= 0 -> old <= new)
             /\ (0 <= deltaY e -> new <= old)
             /\ (deltaY e == 0 -> new == old)).
Proof.
  intros s e. split.
  { unfold handleWheel. intros ->. reflexivity. }
  intros box Hbox s' old new. unfold new, s', handleWheel. rewrite Hbox.
  cbn [elements history historyStep selectedIds viewTransform
       setViewTransform scale].
  fold old.
  repeat (split; [reflexivity|]).
  set (raw := old * (1 + - deltaY e * (1 # 1000))).
  split.
  { apply Q.min_glb; [apply Q.le_max_l | discriminate]. }
  split; [apply Q.le_min_r|].
  intros Hlo Hhi.
  assert (Hup : deltaY e <= 0 -> old <= raw).
  { intros Hd.
    assert (P : 0 <= old * (- deltaY e * (1 # 1000)))
      by (apply Qmult_le_0_compat; lra).
    unfold raw. rewrite Qmult_plus_distr_r.
    set (t := old * (- deltaY e * (1 # 1000))) in *. clearbody t. lra. }
  assert (Hdown : 0 <= deltaY e -> raw <= old).
  { intros Hd.
    assert (P : 0 <= old * (deltaY e * (1 # 1000)))
      by (apply Qmult_le_0_compat; lra).
    assert (E : raw == old - old * (deltaY e * (1 # 1000)))
      by (unfold raw; ring).
    rewrite E. set (t := old * (deltaY e * (1 # 1000))) in *. clearbody t.
    lra. }
  assert (Hmono_up : deltaY e <= 0 -> old <= Qmin (Qmax (1 # 10) raw) 5).
  { intros Hd. apply Q.min_glb; [|exact Hhi].
    eapply Qle_trans; [apply (Hup Hd) | apply Q.le_max_r]. }
  assert (Hmono_down : 0 <= deltaY e -> Qmin (Qmax (1 # 10) raw) 5 <= old).
  { intros Hd. eapply Qle_trans; [apply Q.le_min_l|].
    apply Q.max_lub; [exact Hlo | exact (Hdown Hd)]. }
  split; [exact Hmono_up|]. split; [exact Hmono_down|].
  intros Hz. apply Qle_antisym; [apply Hmono_down | apply Hmono_up]; lra.
Qed.

Lemma handleWheel_direction_witness :
  let s := initialState exampleRect in
  let e := mkWheelEvent (-100) 400 300 in
  1 <= scale (viewTransform (handleWheel s e))
  /\ scale (viewTransform (handleWheel s e)) <= 5.
Proof.
  intros s e.
  destruct (handleWheel_direction s e) as [_ H].
  destruct (H (mkDOMRect 0 0 800 600) eq_refl)
    as (_ & _ & _ & _ & _ & Hhi & Hdir).
  destruct Hdir as (Hup & _); [discriminate | discriminate |].
  split; [apply Hup; discriminate | exact Hhi].
Defined.
